(** * Declarative API tools: a shallow embedding of the TypeScript sources

    The development follows the layout of [extensions/api-tools]:
    - [Js]              the fragment of JavaScript values and string
                        operations the sources rely on;
    - [RegExp]          the regular-expression literals of the sources and
                        [RegExp.prototype.test];
    - [TemplateEngine]  [template-engine.ts];
    - [Executor]        [executor.ts];
    - [SchemaBuilder]   [schema-builder.ts];
    - [YamlLoader]      [yaml-loader.ts];
    - [Spec]            the vocabulary of the specification;
    - [TemplateScan], [Shape], [Rendering], [Notions]
                        further vocabulary: the placeholders of a template,
                        the shape of a value, what response templates see;
    - [Index]           the plugin's [index.ts]: tenant, environment and
                        label of a registered tool;
    - [Reference], [Scenarios]
                        a concrete platform and the inputs of the examples.
    The properties follow, module by module, and end with the repository's
    tests replayed on the embedding.

    Modelling conventions.  A string is a [string] of code units.  An object
    obtained from JSON or YAML is the list of its own properties in
    enumeration order, its property names pairwise different, and its
    prototype is [Object.prototype] ([Array.prototype] for an array).  A
    property read under a name taken from a template or from
    [requires_env] finds the own property or else the member inherited from
    the prototype ([Js.lookup], [Js.env_member]); a read under one of the
    fixed names of a definition ([name], [request], ...), which no prototype
    defines, is a look-up among own properties ([Js.prop]).  [String(v)]
    throws where the conversion finds no primitive ([Js.String_]).  An
    assignment [o[k] = v] under the name [__proto__] reaches the accessor of
    [Object.prototype] ([Js.set], [Js.set_interpolated]).  The process
    environment is a finite map of strings.  A thrown [Error] is represented
    by its message. *)

From Stdlib Require Import ZArith Ascii String List Bool Lia DecimalString.
From stdpp Require Import base option gmap strings list.

Local Open Scope string_scope.
Local Open Scope Z_scope.
Local Set Warnings "-register-all".

(** ** Exceptions

    [Throw msg] stands for [throw new Error(msg)]; a [try] block is a
    [match] on the result. *)

Inductive Result (A : Type) :=
  | Ok (a : A)
  | Throw (msg : string).
Arguments Ok {A} a.
Arguments Throw {A} msg.

Definition rbind {A B} (m : Result A) (k : A -> Result B) : Result B :=
  match m with
  | Ok a => k a
  | Throw msg => Throw msg
  end.

Declare Scope result_scope.
Delimit Scope result_scope with result.
Notation "'let*' x := m 'in' k" := (rbind m (fun x => k))
  (at level 10, x name, m at level 100, k at level 200) : result_scope.
Local Open Scope result_scope.

(** ** JavaScript strings *)

Module Js.

(** [s.startsWith(p)] *)
Fixpoint startsWith (s p : string) {struct p} : bool :=
  match p, s with
  | EmptyString, _ => true
  | String a p', String b s' => Ascii.eqb a b && startsWith s' p'
  | String _ _, EmptyString => false
  end.

(** [s.slice(n)] for a non-negative [n]. *)
Fixpoint slice (s : string) (n : nat) {struct n} : string :=
  match n, s with
  | O, _ => s
  | S n', String _ s' => slice s' n'
  | S _, EmptyString => EmptyString
  end.

(** [s.endsWith(p)]: [p] is compared with the last [p.length] code units. *)
Definition endsWith (s p : string) : bool :=
  (String.length p <=? String.length s)%nat
  && String.eqb (slice s (String.length s - String.length p)) p.

(** [s.includes(p)] *)
Fixpoint includes (s p : string) : bool :=
  startsWith s p ||
  match s with
  | EmptyString => false
  | String _ s' => includes s' p
  end.

(** [xs.join(sep)] on an array of strings. *)
Fixpoint join (sep : string) (xs : list string) : string :=
  match xs with
  | [] => ""
  | [x] => x
  | x :: rest => x +:+ sep +:+ join sep rest
  end.

(** [xs.includes(x)] on an array of strings. *)
Definition array_includes (xs : list string) (x : string) : bool :=
  existsb (String.eqb x) xs.

(** Decimal rendering of an array index. *)
Definition index_key (i : nat) : string :=
  NilZero.string_of_uint (Nat.to_uint i).

(** JavaScript numbers are IEEE doubles; the sources never compute with the
    numbers found in JSON or YAML data, they only print them, test their
    truthiness or create them from an integer (an HTTP status, an array
    length).  The carrier is therefore kept abstract. *)
Class JsNumber := {
  number : Type;
  Number_toString : number -> string;   (* String(n) *)
  Number_truthy : number -> bool;       (* neither 0 nor NaN *)
  Number_ofZ : Z -> number;
}.

Section Values.
Context {N : JsNumber}.

(** Values reachable from [JSON.parse], the YAML parser or a call-argument
    object, plus [undefined]. *)
Inductive JsValue :=
  | JUndefined
  | JNull
  | JBool (b : bool)
  | JNum (n : number)
  | JStr (s : string)
  | JArr (xs : list JsValue)
  | JObj (props : list (string * JsValue)).

(** A [Record<string, unknown>]: own properties in enumeration order. *)
Definition JsRecord := list (string * JsValue).

Inductive JsType := TyUndefined | TyObject | TyBoolean | TyNumber | TyString.

(** [typeof v] *)
Definition typeof (v : JsValue) : JsType :=
  match v with
  | JUndefined => TyUndefined
  | JNull | JArr _ | JObj _ => TyObject
  | JBool _ => TyBoolean
  | JNum _ => TyNumber
  | JStr _ => TyString
  end.

Definition JsType_eqb (a b : JsType) : bool :=
  match a, b with
  | TyUndefined, TyUndefined | TyObject, TyObject | TyBoolean, TyBoolean
  | TyNumber, TyNumber | TyString, TyString => true
  | _, _ => false
  end.

(** [!!v] *)
Definition truthy (v : JsValue) : bool :=
  match v with
  | JUndefined | JNull => false
  | JBool b => b
  | JNum n => Number_truthy n
  | JStr s => negb (String.eqb s "")
  | JArr _ | JObj _ => true
  end.

(** [v === undefined] *)
Definition is_undefined (v : JsValue) : bool :=
  match v with JUndefined => true | _ => false end.

(** [Array.isArray(v)] *)
Definition isArray (v : JsValue) : bool :=
  match v with JArr _ => true | _ => false end.

(** [v.length] for an array. *)
Definition array_length (v : JsValue) : nat :=
  match v with JArr xs => length xs | _ => 0 end.

(** First own property named [key]. *)
Fixpoint assoc {A} (props : list (string * A)) (key : string) : option A :=
  match props with
  | [] => None
  | (k, v) :: rest => if String.eqb k key then Some v else assoc rest key
  end.

(** Definition of the own property [key] with value [v], as an object
    literal, a spread or a parser does it: overwrite in place, or append a
    new own property. *)
Fixpoint assign {A} (props : list (string * A)) (key : string) (v : A)
  : list (string * A) :=
  match props with
  | [] => [(key, v)]
  | (k, w) :: rest =>
      if String.eqb k key then (k, v) :: rest else (k, w) :: assign rest key v
  end.

(** The message of the [TypeError] that [String(o)] throws when neither
    [o.toString] nor [o.valueOf] gives a primitive (the text is V8's). *)
Definition cannot_convert : string := "Cannot convert object to primitive value".

(** [String(v)].  An array prints as [xs.join(",")], where [null] and
    [undefined] elements print as the empty string and the other elements
    are converted in turn.  An object prints through the [toString] it
    inherits, as [[object Object]]; an own property [toString] hides that
    function and, being data, cannot be called, nor does [valueOf] give a
    primitive, so the conversion throws. *)
Fixpoint String_ (v : JsValue) : Result string :=
  match v with
  | JUndefined => Ok "undefined"
  | JNull => Ok "null"
  | JBool true => Ok "true"
  | JBool false => Ok "false"
  | JNum n => Ok (Number_toString n)
  | JStr s => Ok s
  | JArr xs =>
      let* parts :=
        (fix elems (xs : list JsValue) : Result (list string) :=
           match xs with
           | [] => Ok []
           | x :: rest =>
               let* s := match x with
                         | JUndefined | JNull => Ok ""
                         | _ => String_ x
                         end in
               let* more := elems rest in
               Ok (s :: more)
           end) xs in
      Ok (join "," parts)
  | JObj props =>
      match assoc props "toString" with
      | Some _ => Throw cannot_convert
      | None => Ok "[object Object]"
      end
  end.

(** Index entries of an array, numbered from [i]. *)
Fixpoint indexed (i : nat) (xs : list JsValue) : JsRecord :=
  match xs with
  | [] => []
  | x :: rest => (index_key i, x) :: indexed (S i) rest
  end.

(** [Object.entries(v)] for a value whose [typeof] is ["object"]: own
    enumerable properties. *)
Definition entries (v : JsValue) : JsRecord :=
  match v with
  | JObj props => props
  | JArr xs => indexed 0 xs
  | _ => []
  end.

(** Own properties visible to a property read: an array also owns
    [length]. *)
Definition own_properties (v : JsValue) : JsRecord :=
  match v with
  | JObj props => props
  | JArr xs =>
      (indexed 0 xs ++ [("length", JNum (Number_ofZ (Z.of_nat (length xs))))])%list
  | _ => []
  end.

(** The own property [key] of a record, [undefined] when there is
    none. *)
Definition get (r : JsRecord) (key : string) : JsValue :=
  default JUndefined (assoc r key).

(** [v.key] for a value whose [typeof] is ["object"] and a [key] that
    neither [Object.prototype] nor [Array.prototype] defines, as are the
    names [validateDefinition] reads: the own property, or [undefined]
    (lemmas [prop_lookup] and [definition_names_own] relate it to
    [lookup]). *)
Definition prop (v : JsValue) (key : string) : JsValue :=
  get (own_properties v) key.

(** [{ ...a, ...b }]: the properties of [b] are defined over those of [a]. *)
Definition spread {A} (a b : list (string * A)) : list (string * A) :=
  fold_left (fun acc kv => assign acc kv.1 kv.2) b a.

(** The own properties of [o] after [o[key] = v], for an object [o] that
    inherits from [Object.prototype]: [key] becomes or stays an own
    property with value [v].  The name [__proto__] is the exception: unless
    [o] has an own property of that name, the assignment reaches the
    accessor of [Object.prototype], whose setter changes at most the
    prototype of [o] and adds no property. *)
Definition set {A} (props : list (string * A)) (key : string) (v : A)
  : list (string * A) :=
  if String.eqb key "__proto__" && negb (bool_decide (is_Some (assoc props key)))
  then props
  else assign props key v.

(** *** Property reads under a computed name

    The objects the sources read under a name taken from a template or
    from [requires_env] are created by an object literal, by [JSON.parse]
    or by the host: their prototype is [Object.prototype], and
    [Array.prototype] for an array.  A read that finds no own property
    continues there. *)

(** The functions of [Object.prototype] other than [constructor]. *)
Definition Object_prototype_functions : list string :=
  [ "__defineGetter__"; "__defineSetter__"; "hasOwnProperty";
    "__lookupGetter__"; "__lookupSetter__"; "isPrototypeOf";
    "propertyIsEnumerable"; "toString"; "valueOf"; "toLocaleString" ].

(** The names every object inherits from [Object.prototype]. *)
Definition Object_prototype_names : list string :=
  "__proto__" :: "constructor" :: Object_prototype_functions.

(** The functions of [Array.prototype] other than [constructor]
    (ECMAScript 2023). *)
Definition Array_prototype_functions : list string :=
  [ "at"; "concat"; "copyWithin"; "fill"; "find"; "findIndex"; "findLast";
    "findLastIndex"; "lastIndexOf"; "pop"; "push"; "reverse"; "shift";
    "unshift"; "slice"; "sort"; "splice"; "includes"; "indexOf"; "join";
    "keys"; "entries"; "values"; "forEach"; "filter"; "flat"; "flatMap";
    "map"; "every"; "some"; "reduce"; "reduceRight"; "toLocaleString";
    "toString"; "toReversed"; "toSorted"; "toSpliced"; "with" ].

(** What a property read yields: a value of the data, a built-in function
    (given by the name in its source text), or a prototype object (the
    value of [__proto__]). *)
Inductive Member :=
  | Data (v : JsValue)
  | Builtin (name : string)
  | ObjectPrototype
  | ArrayPrototype.

(** [member === undefined] *)
Definition member_undefined (m : Member) : bool :=
  match m with Data v => is_undefined v | _ => false end.

(** [!!member] *)
Definition member_truthy (m : Member) : bool :=
  match m with Data v => truthy v | _ => true end.

(** [String(member)]: a built-in function prints as its source text (the
    text is V8's), [Object.prototype] as any plain object and
    [Array.prototype], an empty array, as the empty string. *)
Definition String_member (m : Member) : Result string :=
  match m with
  | Data v => String_ v
  | Builtin name => Ok ("function " +:+ name +:+ "() { [native code] }")
  | ObjectPrototype => Ok "[object Object]"
  | ArrayPrototype => Ok ""
  end.

(** The member [key] of [Object.prototype], for a read that started at an
    object whose prototype is [proto]: [__proto__] is an accessor that
    returns the prototype of the object read. *)
Definition Object_prototype_member (proto : Member) (key : string) : Member :=
  if String.eqb key "__proto__" then proto
  else if String.eqb key "constructor" then Builtin "Object"
  else if array_includes Object_prototype_functions key then Builtin key
  else Data JUndefined.

(** The member [key] of [Array.prototype], which inherits from
    [Object.prototype]. *)
Definition Array_prototype_member (key : string) : Member :=
  if String.eqb key "constructor" then Builtin "Array"
  else if array_includes Array_prototype_functions key then Builtin key
  else Object_prototype_member ArrayPrototype key.

(** An object as a [Record<string, unknown>] can be: a plain object, given
    by its own properties, or an array. *)
Inductive JsObject :=
  | Plain (props : JsRecord)
  | ArrayObject (xs : list JsValue).

(** The value as an object, when [typeof v === "object" && v !== null]. *)
Definition as_object (v : JsValue) : option JsObject :=
  match v with
  | JObj props => Some (Plain props)
  | JArr xs => Some (ArrayObject xs)
  | _ => None
  end.

(** [o[key]] *)
Definition lookup (o : JsObject) (key : string) : Member :=
  match o with
  | Plain props =>
      match assoc props key with
      | Some v => Data v
      | None => Object_prototype_member ObjectPrototype key
      end
  | ArrayObject xs =>
      match assoc (own_properties (JArr xs)) key with
      | Some v => Data v
      | None => Array_prototype_member key
      end
  end.

(** [env[key]] for a plain object [env] whose own properties hold strings,
    as [{ ...process.env, ...extraEnv }] is. *)
Definition env_member (env : gmap string string) (key : string) : Member :=
  match env !! key with
  | Some s => Data (JStr s)
  | None => Object_prototype_member ObjectPrototype key
  end.

(** *** What [interpolateDeep] builds

    [interpolateDeep] fills a fresh object by assignments [result[k] = v].
    Under the name [__proto__] such an assignment does not create a
    property: it makes [v] the prototype of [result] when [v] is an object
    or [null], and does nothing otherwise.  The values it returns can
    therefore have a prototype that no parsed value has. *)
Inductive Interpolated :=
  | IUndefined
  | INull
  | IBool (b : bool)
  | INum (n : number)
  | IStr (s : string)
  | IArr (xs : list Interpolated)
  (** [proto] is [None] for an object that still has the prototype [{}]
      gave it, and holds the new prototype otherwise *)
  | IObj (proto : option Interpolated) (props : list (string * Interpolated)).

(** [result[k] = v] on the object being filled, given by its prototype
    and its own properties.  The property names of an object are pairwise
    different, so the first case occurs at most once for a result, while
    it still inherits the accessor. *)
Definition set_interpolated
    (result : option Interpolated * list (string * Interpolated))
    (k : string) (v : Interpolated)
  : option Interpolated * list (string * Interpolated) :=
  if String.eqb k "__proto__" then
    match v with
    | INull | IArr _ | IObj _ _ => (Some v, result.2)
    | _ => result
    end
  else (result.1, assign result.2 k v).

(** [typeof v === "object" && v !== null] *)
Definition is_object_i (v : Interpolated) : bool :=
  match v with IArr _ | IObj _ _ => true | _ => false end.

Fixpoint indexed_i (i : nat) (xs : list Interpolated)
  : list (string * Interpolated) :=
  match xs with
  | [] => []
  | x :: rest => (index_key i, x) :: indexed_i (S i) rest
  end.

(** [Object.entries(v)] *)
Definition entries_i (v : Interpolated) : list (string * Interpolated) :=
  match v with
  | IObj _ props => props
  | IArr xs => indexed_i 0 xs
  | _ => []
  end.

(** The value as [JSON.stringify] sees it, which reads own enumerable
    properties only and finds no callable [toJSON] along any of these
    prototype chains. *)
Fixpoint own_tree (v : Interpolated) : JsValue :=
  match v with
  | IUndefined => JUndefined
  | INull => JNull
  | IBool b => JBool b
  | INum n => JNum n
  | IStr s => JStr s
  | IArr xs => JArr (map own_tree xs)
  | IObj _ props =>
      JObj ((fix each (ps : list (string * Interpolated)) : JsRecord :=
               match ps with
               | [] => []
               | (k, x) :: rest => (k, own_tree x) :: each rest
               end) props)
  end.

(** Where the read of [toString] on an object or array ends: at an own
    or inherited property of the data, which is no function; at
    [Object.prototype.toString]; at [Array.prototype.toString], when the
    chain passes through an array; or nowhere, when the chain ends in
    [null]. *)
Inductive Method := Hidden | ObjectMethod | ArrayMethod | Missing.

Fixpoint find_toString (v : Interpolated) : Method :=
  match v with
  | IObj proto props =>
      match assoc props "toString" with
      | Some _ => Hidden
      | None =>
          match proto with
          | None => ObjectMethod
          | Some p => find_toString p
          end
      end
  | IArr _ => ArrayMethod
  | _ => Missing
  end.

(** [String(v)].  An array prints as for parsed values.  An object prints
    through the [toString] it finds: [Object.prototype.toString] gives
    [[object Object]]; when it finds data, or nothing, no [valueOf] along
    the chain gives a primitive either and the conversion throws; and what
    [Array.prototype.toString] makes of an object that is no array, which
    depends on the [join], [length] and index properties along the chain,
    is left to [exotic]. *)
Fixpoint String_interpolated (exotic : Interpolated -> Result string)
    (v : Interpolated) : Result string :=
  match v with
  | IUndefined => Ok "undefined"
  | INull => Ok "null"
  | IBool true => Ok "true"
  | IBool false => Ok "false"
  | INum n => Ok (Number_toString n)
  | IStr s => Ok s
  | IArr xs =>
      let* parts :=
        (fix elems (xs : list Interpolated) : Result (list string) :=
           match xs with
           | [] => Ok []
           | x :: rest =>
               let* s := match x with
                         | IUndefined | INull => Ok ""
                         | _ => String_interpolated exotic x
                         end in
               let* more := elems rest in
               Ok (s :: more)
           end) xs in
      Ok (join "," parts)
  | IObj _ _ =>
      match find_toString v with
      | ObjectMethod => Ok "[object Object]"
      | ArrayMethod => exotic v
      | Hidden | Missing => Throw cannot_convert
      end
  end.

End Values.

End Js.

(** ** Regular expressions

    The literals used by the sources are built from characters, ranges,
    alternation, sequencing and [*], optionally anchored with [^] and [$]
    and optionally case-insensitive.  [test] decides whether some substring
    matches, which is what [RegExp.prototype.test] returns for a regular
    expression without the [g] or [y] flag. *)

Module RegExp.

Inductive re :=
  | Void
  | Eps
  | Chr (c : ascii)
  | Rng (lo hi : ascii)
  | Alt (a b : re)
  | Seq (a b : re)
  | Star (a : re).

Record t := {
  anchor_start : bool;    (* the pattern starts with ^ *)
  body : re;
  anchor_end : bool;      (* the pattern ends with $ *)
  ignoreCase : bool;      (* the i flag *)
}.

(** Sequence of literal characters. *)
Fixpoint lit (s : string) : re :=
  match s with
  | EmptyString => Eps
  | String c s' => Seq (Chr c) (lit s')
  end.

(** The [i] flag on ASCII letters: two characters match when they are the
    same letter in either case.  (Host names, the only strings matched
    case-insensitively by the sources, are ASCII.) *)
Definition upper (c : ascii) : ascii :=
  let n := nat_of_ascii c in
  if ((97 <=? n) && (n <=? 122))%nat then ascii_of_nat (n - 32) else c.

Definition lower (c : ascii) : ascii :=
  let n := nat_of_ascii c in
  if ((65 <=? n) && (n <=? 90))%nat then ascii_of_nat (n + 32) else c.

Definition chr_matches (ic : bool) (p c : ascii) : bool :=
  if ic then Ascii.eqb (upper p) (upper c) else Ascii.eqb p c.

Definition in_range (lo hi c : ascii) : bool :=
  ((nat_of_ascii lo <=? nat_of_ascii c) && (nat_of_ascii c <=? nat_of_ascii hi))%nat.

Definition rng_matches (ic : bool) (lo hi c : ascii) : bool :=
  if ic
  then in_range lo hi c || in_range lo hi (upper c) || in_range lo hi (lower c)
  else in_range lo hi c.

Fixpoint nullable (r : re) : bool :=
  match r with
  | Void => false
  | Eps => true
  | Chr _ => false
  | Rng _ _ => false
  | Alt a b => nullable a || nullable b
  | Seq a b => nullable a && nullable b
  | Star _ => true
  end.

(** Brzozowski derivative. *)
Fixpoint deriv (ic : bool) (c : ascii) (r : re) : re :=
  match r with
  | Void => Void
  | Eps => Void
  | Chr p => if chr_matches ic p c then Eps else Void
  | Rng lo hi => if rng_matches ic lo hi c then Eps else Void
  | Alt a b => Alt (deriv ic c a) (deriv ic c b)
  | Seq a b =>
      if nullable a
      then Alt (Seq (deriv ic c a) b) (deriv ic c b)
      else Seq (deriv ic c a) b
  | Star a => Seq (deriv ic c a) (Star a)
  end.

(** The whole of [s] matches [r]. *)
Fixpoint matches_all (ic : bool) (r : re) (s : string) : bool :=
  match s with
  | EmptyString => nullable r
  | String c s' => matches_all ic (deriv ic c r) s'
  end.

(** Some prefix of [s] matches [r]. *)
Fixpoint matches_prefix (ic : bool) (r : re) (s : string) : bool :=
  nullable r ||
  match s with
  | EmptyString => false
  | String c s' => matches_prefix ic (deriv ic c r) s'
  end.

(** A match starts at the first position of [s]. *)
Definition matches_here (p : t) (s : string) : bool :=
  if anchor_end p
  then matches_all (ignoreCase p) (body p) s
  else matches_prefix (ignoreCase p) (body p) s.

(** A match starts at some position of [s]. *)
Fixpoint matches_somewhere (p : t) (s : string) : bool :=
  matches_here p s ||
  match s with
  | EmptyString => false
  | String _ s' => matches_somewhere p s'
  end.

(** [p.test(s)] *)
Definition test (p : t) (s : string) : bool :=
  if anchor_start p then matches_here p s else matches_somewhere p s.

(** The strings a pattern body denotes. *)
Inductive Matches (ic : bool) : re -> string -> Prop :=
  | M_Eps : Matches ic Eps ""
  | M_Chr p c : chr_matches ic p c = true -> Matches ic (Chr p) (String c "")
  | M_Rng lo hi c :
      rng_matches ic lo hi c = true -> Matches ic (Rng lo hi) (String c "")
  | M_Alt_l a b s : Matches ic a s -> Matches ic (Alt a b) s
  | M_Alt_r a b s : Matches ic b s -> Matches ic (Alt a b) s
  | M_Seq a b s1 s2 :
      Matches ic a s1 -> Matches ic b s2 -> Matches ic (Seq a b) (s1 +:+ s2)
  | M_Star_nil a : Matches ic (Star a) ""
  | M_Star_more a s1 s2 :
      Matches ic a s1 -> Matches ic (Star a) s2 ->
      Matches ic (Star a) (s1 +:+ s2).

End RegExp.

(** ** template-engine.ts *)

Module TemplateEngine.
Import Js.

Section WithNumbers.
Context {N : JsNumber}.

(** [TemplateContext]: three plain objects.  The own properties of [env]
    hold strings, as those of [process.env] and [extraEnv] do; [params] is
    given by its own properties; [response] can be an array. *)
Record TemplateContext := {
  env : gmap string string;
  params : JsRecord;
  response : option JsObject;
}.

(** *** [TEMPLATE_PATTERN]

    The literal is [{{], then group 1 [env|params|response], then a dot,
    then group 2 [[a-zA-Z_][a-zA-Z0-9_]* ], then [}}]; flag [g]. *)

Definition TEMPLATE_PATTERN : RegExp.re :=
  let letter := RegExp.Alt (RegExp.Rng "a" "z") (RegExp.Rng "A" "Z") in
  let start := RegExp.Alt letter (RegExp.Chr "_") in
  let more := RegExp.Alt letter (RegExp.Alt (RegExp.Rng "0" "9") (RegExp.Chr "_")) in
  RegExp.Seq (RegExp.lit "{{")
    (RegExp.Seq
       (RegExp.Alt (RegExp.lit "env")
          (RegExp.Alt (RegExp.lit "params") (RegExp.lit "response")))
       (RegExp.Seq (RegExp.Chr ".")
          (RegExp.Seq (RegExp.Seq start (RegExp.Star more))
             (RegExp.lit "}}")))).

(** The alternatives of group 1. *)
Definition TEMPLATE_SCOPES : list string := ["env"; "params"; "response"].

Definition is_letter (c : ascii) : bool :=
  RegExp.in_range "a" "z" c || RegExp.in_range "A" "Z" c.

Definition is_digit (c : ascii) : bool := RegExp.in_range "0" "9" c.

(** [[a-zA-Z_]] *)
Definition ident_start (c : ascii) : bool :=
  is_letter c || Ascii.eqb c "_".

(** [[a-zA-Z0-9_]] *)
Definition ident_char (c : ascii) : bool :=
  is_letter c || is_digit c || Ascii.eqb c "_".

(** Every character of [s] is in [[a-zA-Z0-9_]]. *)
Fixpoint all_ident_chars (s : string) : bool :=
  match s with
  | EmptyString => true
  | String c s' => ident_char c && all_ident_chars s'
  end.

(** The strings group 2 can capture: [[a-zA-Z_][a-zA-Z0-9_]* ]. *)
Definition is_identifier (s : string) : bool :=
  match s with
  | String c s' => ident_start c && all_ident_chars s'
  | EmptyString => false
  end.

(** No character of [s] is an opening brace. *)
Fixpoint brace_free (s : string) : bool :=
  match s with
  | EmptyString => true
  | String c s' => negb (Ascii.eqb c "{") && brace_free s'
  end.

(** The remainder of [s] after the literal [p], if [s] starts with [p]. *)
Fixpoint eat (p s : string) {struct p} : option string :=
  match p, s with
  | EmptyString, _ => Some s
  | String a p', String b s' => if Ascii.eqb a b then eat p' s' else None
  | String _ _, EmptyString => None
  end.

(** First alternative of [alts] that [s] starts with, and the remainder. *)
Fixpoint eat_alt (alts : list string) (s : string) : option (string * string) :=
  match alts with
  | [] => None
  | a :: more =>
      match eat a s with
      | Some rest => Some (a, rest)
      | None => eat_alt more s
      end
  end.

(** Longest run of [[a-zA-Z0-9_]] at the start of [s], and the remainder. *)
Fixpoint eat_ident_chars (s : string) : string * string :=
  match s with
  | String c s' =>
      if ident_char c
      then let '(k, rest) := eat_ident_chars s' in (String c k, rest)
      else (EmptyString, s)
  | EmptyString => (EmptyString, EmptyString)
  end.

(** One match of the pattern: the two capture groups and what follows the
    match. *)
Record Match := {
  m_scope : string;
  m_key : string;
  m_rest : string;
}.

(** The matched text, [match] in the callback. *)
Definition m_text (m : Match) : string :=
  "{{" +:+ m_scope m +:+ "." +:+ m_key m +:+ "}}".

(** The match of [TEMPLATE_PATTERN] that starts at the first character of
    [s], with its two groups.  The greedy identifier never has to give
    characters back, since the [}] that must follow is not an identifier
    character, and at most one alternative of group 1 can be followed by a
    dot; so there is at most one way to match, and this function finds it
    (lemmas [match_here_matches] and [match_unique] below). *)
Definition match_here (s : string) : option Match :=
  s1 ← eat "{{" s;
  '(scope, s2) ← eat_alt TEMPLATE_SCOPES s1;
  s3 ← eat "." s2;
  match s3 with
  | String c s4 =>
      if ident_start c then
        let '(k, s5) := eat_ident_chars s4 in
        s6 ← eat "}}" s5;
        Some {| m_scope := scope; m_key := String c k; m_rest := s6 |}
      else None
  | EmptyString => None
  end.

(** [template.replace(TEMPLATE_PATTERN, callback)]: scan from the left; at
    a match, call [callback] and continue after the match; otherwise copy
    one character.  [fuel] bounds the number of steps. *)
Fixpoint replace_from (callback : string -> string -> string -> Result string)
    (fuel : nat) (s : string) : Result string :=
  match fuel with
  | O => Ok s
  | S fuel' =>
      match match_here s with
      | Some m =>
          let* v := callback (m_text m) (m_scope m) (m_key m) in
          let* out := replace_from callback fuel' (m_rest m) in
          Ok (v +:+ out)
      | None =>
          match s with
          | EmptyString => Ok EmptyString
          | String c s' =>
              let* out := replace_from callback fuel' s' in
              Ok (String c out)
          end
      end
  end.

Definition replace (callback : string -> string -> string -> Result string)
    (s : string) : Result string :=
  replace_from callback (S (String.length s)) s.

(** The callback of [interpolateString].  What it returns for [env] is
    converted to a string by [replace]; [value ?? ""] is the empty string
    for [undefined]. *)
Definition replacer (ctx : TemplateContext) (strictEnv : bool)
    (match_ scope key : string) : Result string :=
  if String.eqb scope "env" then
    let value := env_member (env ctx) key in
    if member_undefined value && strictEnv
    then Throw ("Missing required environment variable: " +:+ key)
    else if member_undefined value then Ok "" else String_member value
  else if String.eqb scope "params" then
    let value := lookup (Plain (params ctx)) key in
    if member_undefined value then Ok "" else String_member value
  else if String.eqb scope "response" then
    match response ctx with
    | None => Ok ""
    | Some r =>
        let value := lookup r key in
        if member_undefined value then Ok "" else String_member value
    end
  else Ok match_.

(** [interpolateString(template, ctx, strictEnv = true)]; [None] stands for
    an omitted third argument. *)
Definition interpolateString (template : string) (ctx : TemplateContext)
    (strictEnv : option bool) : Result string :=
  let strictEnv := default true strictEnv in
  replace (replacer ctx strictEnv) template.

(** [interpolateDeep(value, ctx, strictEnv = true)] *)
Fixpoint interpolateDeep (value : JsValue) (ctx : TemplateContext)
    (strictEnv : option bool) : Result Interpolated :=
  match value with
  | JStr s =>
      let* s' := interpolateString s ctx strictEnv in Ok (IStr s')
  | JArr xs =>
      let* ys :=
        (fix map_items (xs : list JsValue) : Result (list Interpolated) :=
           match xs with
           | [] => Ok []
           | item :: rest =>
               let* item' := interpolateDeep item ctx strictEnv in
               let* rest' := map_items rest in
               Ok (item' :: rest')
           end) xs in
      Ok (IArr ys)
  | JObj props =>
      let* result :=
        (fix each_entry (props : JsRecord)
             (result : option Interpolated * list (string * Interpolated))
           : Result (option Interpolated * list (string * Interpolated)) :=
           match props with
           | [] => Ok result
           | (k, v) :: rest =>
               let* v' := interpolateDeep v ctx strictEnv in
               each_entry rest (set_interpolated result k v')
           end) props (None, []) in
      Ok (IObj result.1 result.2)
  | JUndefined => Ok IUndefined
  | JNull => Ok INull
  | JBool b => Ok (IBool b)
  | JNum n => Ok (INum n)
  end.

End WithNumbers.
End TemplateEngine.

(** ** types.ts *)

Module Types.
Import Js.

Section WithNumbers.
Context {N : JsNumber}.

Inductive ApiToolParameterType := PString | PNumber | PBoolean | PInteger.

Record ApiToolParameter := {
  p_type : ApiToolParameterType;
  p_description : option string;
  p_required : option bool;
  p_enum : option (list string);
  p_default : option JsValue;
}.

Inductive BodyType := BodyJson | BodyForm | BodyText.

Record ApiToolRequestBody := {
  body_type : BodyType;
  body_content : JsValue;
}.

Inductive HttpMethod := GET | POST | PUT | PATCH | DELETE.

Record ApiToolRequest := {
  method : HttpMethod;
  url : string;
  headers : option (list (string * string));
  body : option ApiToolRequestBody;
  timeout_ms : option Z;
}.

Record ApiToolResponse := {
  extract : option string;
  summary : option string;
  error_template : option string;
}.

Record ApiToolDefinition := {
  name : string;
  description : string;
  parameters : option (list (string * ApiToolParameter));
  request : ApiToolRequest;
  response : option ApiToolResponse;
  requires_env : option (list string);
  allowed_hosts : list string;
}.

Record ApiToolExecuteParams := {
  definition : ApiToolDefinition;
  args : JsRecord;
  extraEnv : option (gmap string string);
}.

End WithNumbers.
End Types.

(** ** executor.ts *)

Module Executor.
Import Js Types.

Definition MAX_TIMEOUT_MS : Z := 60000.
Definition DEFAULT_TIMEOUT_MS : Z := 30000.

(** Private IP patterns to block. *)
Definition PRIVATE_IP_PATTERNS : list RegExp.t :=
  let re start body end_ i :=
    {| RegExp.anchor_start := start; RegExp.body := body;
       RegExp.anchor_end := end_; RegExp.ignoreCase := i |} in
  let lit := RegExp.lit in
  let Seq := RegExp.Seq in
  let Alt := RegExp.Alt in
  let Chr := RegExp.Chr in
  let Rng := RegExp.Rng in
  [ (* /^localhost$/i *)
    re true (lit "localhost") true true;
    (* /^127\./ *)
    re true (lit "127.") false false;
    (* /^10\./ *)
    re true (lit "10.") false false;
    (* /^172\.(1[6-9]|2[0-9]|3[0-1])\./ *)
    re true
      (Seq (lit "172.")
         (Seq (Alt (Seq (Chr "1"%char) (Rng "6"%char "9"%char))
                 (Alt (Seq (Chr "2"%char) (Rng "0"%char "9"%char))
                    (Seq (Chr "3"%char) (Rng "0"%char "1"%char))))
            (Chr "."%char)))
      false false;
    (* /^192\.168\./ *)
    re true (lit "192.168.") false false;
    (* /^169\.254\./ *)
    re true (lit "169.254.") false false;
    (* /\.local$/i *)
    re false (lit ".local") true true;
    (* /\.internal$/i *)
    re false (lit ".internal") true true ].

(** AWS metadata endpoint. *)
Definition BLOCKED_HOSTS : list string := ["169.254.169.254"].

Definition isPrivateHost (hostname : string) : bool :=
  if array_includes BLOCKED_HOSTS hostname then true
  else existsb (fun pattern => RegExp.test pattern hostname) PRIVATE_IP_PATTERNS.

Definition isAllowedHost (hostname : string) (allowedHosts : list string) : bool :=
  existsb
    (fun allowed =>
       if startsWith allowed "*." then
         let suffix := slice allowed 1 in
         endsWith hostname suffix || String.eqb hostname (slice allowed 2)
       else String.eqb hostname allowed)
    allowedHosts.

(** [ExecuteResult] *)
Section WithNumbers.
Context {N : JsNumber}.

Record ExecuteResult := {
  success : bool;
  data : option JsValue;
  status : option Z;
  error : option string;
  summary : option string;
}.

(** What [fetch] is called with; [rq_timeout] is the delay after which the
    abort signal fires. *)
Record Request := {
  rq_url : string;
  rq_method : HttpMethod;
  rq_headers : list (string * string);
  rq_body : option string;
  rq_timeout : Z;
}.

(** What the executor reads from a [Response]. *)
Record Response := {
  rs_status : Z;                       (* response.status *)
  rs_content_type : option string;     (* response.headers.get("content-type") *)
  rs_json : Result JsValue;            (* await response.json() *)
  rs_text : Result string;             (* await response.text() *)
}.

(** [response.ok]: the status is in the range 200 to 299. *)
Definition rs_ok (r : Response) : bool :=
  (200 <=? rs_status r) && (rs_status r <=? 299).

(** The platform and the outside world, as seen by one invocation. *)
Record Runtime := {
  process_env : gmap string string;
  (** [new URL(u).hostname], [None] when the constructor throws *)
  URL_hostname : string -> option string;
  (** [JSON.stringify(v)], which is [undefined] for [undefined] *)
  JSON_stringify : JsValue -> option string;
  (** [String(o)] for an object, not an array, that inherits
      [Array.prototype.toString] *)
  String_exotic : Interpolated -> Result string;
  (** [new URLSearchParams()], [append] for each pair, [toString()] *)
  URLSearchParams_toString : list (string * string) -> string;
  (** the outcome of [await fetch(...)]: a response, or a rejection
      (network failure, abort on time-out) *)
  fetch : Request -> Result Response;
}.

Definition validateUrl (rt : Runtime) (url : string) (allowedHosts : list string)
  : Result unit :=
  let* hostname :=
    match URL_hostname rt url with
    | Some h => Ok h
    | None => Throw ("Invalid URL: " +:+ url)
    end in
  if isPrivateHost hostname then
    Throw ("Blocked: requests to private/internal hosts not allowed ("
           +:+ hostname +:+ ")")
  else if negb (isAllowedHost hostname allowedHosts) then
    Throw ("Blocked: host '" +:+ hostname +:+ "' not in allowed_hosts ["
           +:+ join ", " allowedHosts +:+ "]")
  else Ok tt.

(** [{ ...process.env, ...env }] *)
Definition merged_env (rt : Runtime) (env : option (gmap string string))
  : gmap string string :=
  default ∅ env ∪ process_env rt.

(** [!merged[key]]: the own value is the empty string, or there is no own
    value and [Object.prototype] has no member of that name either. *)
Definition env_falsy (merged : gmap string string) (key : string) : bool :=
  negb (member_truthy (env_member merged key)).

Definition checkRequiredEnvVars (rt : Runtime) (requires : option (list string))
    (env : option (gmap string string)) : Result unit :=
  match requires with
  | None => Ok tt
  | Some [] => Ok tt
  | Some requires =>
      let merged := merged_env rt env in
      let missing := List.filter (fun key => env_falsy merged key) requires in
      if (0 <? length missing)%nat then
        Throw ("Missing required environment variables: " +:+ join ", " missing)
      else Ok tt
  end.

(** *** The invocation monad

    Besides throwing, one invocation can call [fetch]; the calls made so far
    are recorded, oldest first. *)

Definition Exec (A : Type) : Type := list Request -> list Request * Result A.

Definition eret {A} (a : A) : Exec A := fun log => (log, Ok a).

Definition ebind {A B} (m : Exec A) (k : A -> Exec B) : Exec B :=
  fun log =>
    match m log with
    | (log', Ok a) => k a log'
    | (log', Throw msg) => (log', Throw msg)
    end.

(** A computation that cannot touch the network. *)
Definition pure {A} (r : Result A) : Exec A := fun log => (log, r).

(** [await fetch(url, { method, headers, body, signal })] with a timer that
    aborts the signal after [timeout] milliseconds. *)
Definition call_fetch (rt : Runtime) (rq : Request) : Exec Response :=
  fun log => ((log ++ [rq])%list, fetch rt rq).

Notation "'let!' x := m 'in' k" := (ebind m (fun x => k))
  (at level 10, x name, m at level 100, k at level 200).

(** The loop over [Object.entries(definition.request.headers)]. *)
Fixpoint interpolate_headers (ctx : TemplateEngine.TemplateContext)
    (entries : list (string * string)) (headers : list (string * string))
  : Result (list (string * string)) :=
  match entries with
  | [] => Ok headers
  | (key, value) :: rest =>
      let* v := TemplateEngine.interpolateString value ctx None in
      interpolate_headers ctx rest (set headers key v)
  end.

(** [!headers["Content-Type"]] *)
Definition no_content_type (headers : list (string * string)) : bool :=
  match assoc headers "Content-Type" with
  | None => true
  | Some v => String.eqb v ""
  end.

(** [typeof v === "object" && v !== null] *)
Definition is_object (v : JsValue) : bool :=
  JsType_eqb (typeof v) TyObject && negb (match v with JNull => true | _ => false end).

(** The loop [formData.append(k, String(v))]. *)
Fixpoint form_pairs (rt : Runtime) (entries : list (string * Interpolated))
  : Result (list (string * string)) :=
  match entries with
  | [] => Ok []
  | (k, v) :: rest =>
      let* s := String_interpolated (String_exotic rt) v in
      let* more := form_pairs rt rest in
      Ok ((k, s) :: more)
  end.

(** The block under "Build request body": the body and the headers after
    it. *)
Definition build_body (rt : Runtime) (ctx : TemplateEngine.TemplateContext)
    (b : option ApiToolRequestBody) (headers : list (string * string))
  : Result (option string * list (string * string)) :=
  match b with
  | None => Ok (None, headers)
  | Some b =>
      let* interpolatedContent :=
        TemplateEngine.interpolateDeep (body_content b) ctx None in
      match body_type b with
      | BodyJson =>
          let body := JSON_stringify rt (own_tree interpolatedContent) in
          Ok (body,
              if no_content_type headers
              then set headers "Content-Type" "application/json"
              else headers)
      | BodyForm =>
          let* formData :=
            if is_object_i interpolatedContent
            then form_pairs rt (entries_i interpolatedContent)
            else Ok [] in
          let body := URLSearchParams_toString rt formData in
          Ok (Some body,
              if no_content_type headers
              then set headers "Content-Type" "application/x-www-form-urlencoded"
              else headers)
      | BodyText =>
          let* body := String_interpolated (String_exotic rt) interpolatedContent in
          Ok (Some body, headers)
      end
  end.

(** "Calculate timeout" *)
Definition effective_timeout (definition : ApiToolDefinition) : Z :=
  Z.min (default DEFAULT_TIMEOUT_MS (timeout_ms (request definition)))
        MAX_TIMEOUT_MS.

(** "Parse response" *)
Definition parse_response (response : Response) : Result JsValue :=
  let contentType :=
    match rs_content_type response with
    | Some ct => if String.eqb ct "" then "" else ct
    | None => ""
    end in
  if includes contentType "application/json"
  then rs_json response
  else let* t := rs_text response in Ok (JStr t).

(** A declared, non-empty template ([definition.response?.summary] and
    [definition.response?.error_template] are tested for truthiness). *)
Definition declared_template (t : option string) : option string :=
  match t with
  | Some s => if String.eqb s "" then None else Some s
  | None => None
  end.

(** "Build template context" *)
Definition call_context (rt : Runtime) (params : ApiToolExecuteParams)
  : TemplateEngine.TemplateContext :=
  {| TemplateEngine.env := merged_env rt (extraEnv params);
     TemplateEngine.params := args params;
     TemplateEngine.response := None |}.

(** The body of the [try] block. *)
Definition run (rt : Runtime) (params : ApiToolExecuteParams)
  : Exec ExecuteResult :=
  let definition := definition params in
  let args := args params in
  (* Check required env vars *)
  let! _ := pure (checkRequiredEnvVars rt (requires_env definition) (extraEnv params)) in
  (* Build template context *)
  let ctx := call_context rt params in
  (* Interpolate URL *)
  let! url := pure (TemplateEngine.interpolateString (url (request definition)) ctx None) in
  (* Validate URL against security constraints *)
  let! _ := pure (validateUrl rt url (allowed_hosts definition)) in
  (* Interpolate headers *)
  let! headers :=
    pure (match headers (request definition) with
          | Some hs => interpolate_headers ctx hs []
          | None => Ok []
          end) in
  (* Build request body *)
  let! bh := pure (build_body rt ctx (body (request definition)) headers) in
  let body := bh.1 in
  let headers := bh.2 in
  (* Calculate timeout *)
  let timeout := effective_timeout definition in
  (* Execute request *)
  let! response :=
    call_fetch rt
      {| rq_url := url; rq_method := method (request definition);
         rq_headers := headers; rq_body := body; rq_timeout := timeout |} in
  (* Parse response *)
  let! responseData := pure (parse_response response) in
  (* Build result *)
  let result :=
    {| success := rs_ok response;
       status := Some (rs_status response);
       data := Some responseData;
       error := None;
       summary := None |} in
  (* Generate summary if template provided *)
  let! result :=
    match declared_template (Types.response definition ≫= Types.summary) with
    | Some template =>
        if rs_ok response then
          let responseCtx :=
            {| TemplateEngine.env := TemplateEngine.env ctx;
               TemplateEngine.params := TemplateEngine.params ctx;
               TemplateEngine.response :=
                 Some (match as_object responseData with
                       | Some payload => payload
                       | None => Plain [("value", responseData)]
                       end) |} in
          let! s := pure (TemplateEngine.interpolateString template responseCtx (Some false)) in
          eret {| success := success result; status := status result;
                  data := data result; error := error result;
                  summary := Some s |}
        else eret result
    | None => eret result
    end in
  (* Generate error message if template provided and request failed *)
  let! result :=
    match declared_template (Types.response definition ≫= error_template) with
    | Some template =>
        if negb (rs_ok response) then
          let responseCtx :=
            {| TemplateEngine.env := TemplateEngine.env ctx;
               TemplateEngine.params := TemplateEngine.params ctx;
               TemplateEngine.response :=
                 Some (Plain
                         (spread [("status", JNum (Number_ofZ (rs_status response)))]
                            (if is_object responseData
                             then entries responseData
                             else [("message", responseData)]))) |} in
          let! e := pure (TemplateEngine.interpolateString template responseCtx (Some false)) in
          eret {| success := success result; status := status result;
                  data := data result; error := Some e;
                  summary := summary result |}
        else eret result
    | None => eret result
    end in
  eret result.

(** The result built in the [catch] block. *)
Definition failure (errorMessage : string) : ExecuteResult :=
  {| success := false; data := None; status := None;
     error := Some errorMessage; summary := None |}.

(** [executeApiTool(params)]: the value that is serialised into the
    returned text block, together with the calls to [fetch] that were
    made. *)
Definition executeApiTool (rt : Runtime) (params : ApiToolExecuteParams)
  : list Request * ExecuteResult :=
  match run rt params [] with
  | (log, Ok result) => (log, result)
  | (log, Throw errorMessage) => (log, failure errorMessage)
  end.

End WithNumbers.
End Executor.

(** ** schema-builder.ts *)

Module SchemaBuilder.
Import Js Types.

(** The TypeBox schemas the builder creates, one constructor per [Type.*]
    call; the options argument carries the description.  [TObject] holds
    the own properties of the object given to [Type.Object]. *)
Inductive TSchema :=
  | TString (description : option string)
  | TNumber (description : option string)
  | TInteger (description : option string)
  | TBoolean (description : option string)
  | TLiteral (value : string)
  | TUnion (anyOf : list TSchema) (description : option string)
  | TOptional (schema : TSchema)
  | TObject (properties : list (string * TSchema)).

Definition TProperties := list (string * TSchema).

Section WithNumbers.
Context {N : JsNumber}.

(** The schema built for one parameter, before the optional wrapper. *)
Definition base_schema (param : ApiToolParameter) : TSchema :=
  match p_type param with
  | PString =>
      match p_enum param with
      | Some (v :: vs) => TUnion (map TLiteral (v :: vs)) (p_description param)
      | _ => TString (p_description param)
      end
  | PNumber => TNumber (p_description param)
  | PInteger => TInteger (p_description param)
  | PBoolean => TBoolean (p_description param)
  end.

(** One iteration of the loop over [Object.entries(parameters)]; the state
    is the pair of the locals [properties] (its own properties) and
    [required].  For a parameter named [__proto__] the assignment
    [properties[name] = ...] makes the schema the prototype of [properties]
    and adds no property. *)
Definition add_parameter (st : TProperties * list string)
    (entry : string * ApiToolParameter) : TProperties * list string :=
  let '(properties, required) := st in
  let '(name, param) := entry in
  let schema := base_schema param in
  if default false (p_required param)
  then (set properties name schema, (required ++ [name])%list)
  else (set properties name (TOptional schema), required).

(** The locals [properties] and [required] when the loop ends. *)
Definition build_loop (parameters : list (string * ApiToolParameter))
  : TProperties * list string :=
  fold_left add_parameter parameters ([], []).

Definition buildParameterSchema
    (parameters : option (list (string * ApiToolParameter))) : TSchema :=
  match parameters with
  | None => TObject []
  | Some [] => TObject []
  | Some parameters => TObject (build_loop parameters).1
  end.

End WithNumbers.

(** *** Reading a schema

    [Type.Object] marks as required exactly the properties that are not
    wrapped in [Type.Optional]. *)





End SchemaBuilder.

(** ** yaml-loader.ts *)

Module YamlLoader.
Import Js.

(** [/^[a-z][a-z0-9_]*$/] *)
Definition TOOL_NAME_PATTERN : RegExp.t :=
  {| RegExp.anchor_start := true;
     RegExp.body :=
       RegExp.Seq (RegExp.Rng "a" "z")
         (RegExp.Star
            (RegExp.Alt (RegExp.Rng "a" "z")
               (RegExp.Alt (RegExp.Rng "0" "9") (RegExp.Chr "_"))));
     RegExp.anchor_end := true;
     RegExp.ignoreCase := false |}.

(** The pattern as it prints inside a template literal. *)
Definition TOOL_NAME_PATTERN_text : string := "/^[a-z][a-z0-9_]*$/".

Section WithNumbers.
Context {N : JsNumber}.

(** [typeof v === "string"] together with the string. *)
Definition as_string (v : JsValue) : option string :=
  match v with JStr s => Some s | _ => None end.

(** [!v || typeof v !== "object"] *)
Definition not_an_object (v : JsValue) : bool :=
  negb (truthy v) || negb (JsType_eqb (typeof v) TyObject).

(** [list.includes(v as string)] for a list of string literals. *)
Definition includes_value (list : list string) (v : JsValue) : bool :=
  match v with
  | JStr s => array_includes list s
  | _ => false
  end.

(** The loop over [Object.entries(d.parameters)]: the first warning, if
    any. *)
Fixpoint check_parameters (filename : string) (entries : JsRecord)
  : option string :=
  match entries with
  | [] => None
  | (key, param) :: rest =>
      if not_an_object param then
        Some ("api-tools: " +:+ filename +:+ " parameter '" +:+ key
              +:+ "' is invalid")
      else
        let p := param in
        if negb (includes_value ["string"; "number"; "boolean"; "integer"]
                   (prop p "type")) then
          Some ("api-tools: " +:+ filename +:+ " parameter '" +:+ key
                +:+ "' has invalid type")
        else check_parameters filename rest
  end.

(** [validateDefinition(def, filename)]: [inr d] is the returned definition;
    [inl w] stands for [console.warn(w); return null]. *)
Definition validateDefinition (def : JsValue) (filename : string)
  : string + JsValue :=
  if not_an_object def then
    inl ("api-tools: " +:+ filename +:+ " is not a valid object")
  else
  let d := def in
  (* Required fields *)
  if negb (JsType_eqb (typeof (prop d "name")) TyString)
     || negb (RegExp.test TOOL_NAME_PATTERN (default "" (as_string (prop d "name"))))
  then
    inl ("api-tools: " +:+ filename +:+ " has invalid name (must match "
         +:+ TOOL_NAME_PATTERN_text +:+ ")")
  else if negb (JsType_eqb (typeof (prop d "description")) TyString) then
    inl ("api-tools: " +:+ filename +:+ " missing description")
  else if not_an_object (prop d "request") then
    inl ("api-tools: " +:+ filename +:+ " missing request block")
  else
  let req := prop d "request" in
  if negb (includes_value ["GET"; "POST"; "PUT"; "PATCH"; "DELETE"]
             (prop req "method")) then
    inl ("api-tools: " +:+ filename +:+ " has invalid request.method")
  else if negb (JsType_eqb (typeof (prop req "url")) TyString) then
    inl ("api-tools: " +:+ filename +:+ " missing request.url")
  else if negb (isArray (prop d "allowed_hosts"))
          || (array_length (prop d "allowed_hosts") =? 0)%nat then
    inl ("api-tools: " +:+ filename +:+ " missing or empty allowed_hosts")
  else
  (* Validate parameters if present *)
  if negb (is_undefined (prop d "parameters")) then
    if negb (JsType_eqb (typeof (prop d "parameters")) TyObject)
       || match prop d "parameters" with JNull => true | _ => false end
    then inl ("api-tools: " +:+ filename +:+ " has invalid parameters")
    else
      match check_parameters filename (entries (prop d "parameters")) with
      | Some warning => inl warning
      | None => inr d
      end
  else inr d.

(** The file system and the YAML parser. *)
Record Host := {
  path_join : string -> string -> string;       (* join(a, b) *)
  existsSync : string -> bool;
  readdirSync : string -> Result (list string);
  readFileSync : string -> Result string;       (* readFileSync(p, "utf-8") *)
  parseYaml : string -> Result JsValue;
}.

(** One iteration of the loop over [files]; the state is the array
    [definitions] and the lines written by [console.warn]. *)
Definition load_file (h : Host) (apiToolsDir : string)
    (st : list JsValue * list string) (file : string)
  : list JsValue * list string :=
  let '(definitions, console) := st in
  if negb (endsWith file ".yaml") && negb (endsWith file ".yml") then st
  else
    let filePath := path_join h apiToolsDir file in
    let attempt :=
      let* content := readFileSync h filePath in
      let* parsed := parseYaml h content in
      Ok (validateDefinition parsed file) in
    match attempt with
    | Ok (inr validated) => ((definitions ++ [validated])%list, console)
    | Ok (inl warning) => (definitions, (console ++ [warning])%list)
    | Throw message =>
        (definitions,
         (console ++ ["api-tools: failed to parse " +:+ file +:+ ": " +:+ message])%list)
    end.

(** [loadToolDefinitions(agentDir)]: the returned array, and the lines
    written by [console.warn]. *)
Definition loadToolDefinitions (h : Host) (agentDir : string)
  : list JsValue * list string :=
  let apiToolsDir := path_join h agentDir "api-tools" in
  if negb (existsSync h apiToolsDir) then ([], [])
  else
    match readdirSync h apiToolsDir with
    | Throw _ => ([], [])
    | Ok files => fold_left (load_file h apiToolsDir) files ([], [])
    end.

End WithNumbers.
End YamlLoader.

(** ** The specification's vocabulary

    The notions the properties are stated with: what the specification calls
    a placeholder, a subdomain, a private host, a valid definition, and the
    observable outcome of a call or of a load. *)

Module Spec.
Import Js.

(** A placeholder [{{scope.key}}]. *)
Definition placeholder (scope key : string) : string :=
  "{{" +:+ scope +:+ "." +:+ key +:+ "}}".

(** A name under which every plain object has an inherited member. *)
Definition inherited (key : string) : bool :=
  array_includes Object_prototype_names key.

(** [h] is a subdomain of [d]: some label sequence, a dot, then [d]. *)
Definition subdomain_of (h d : string) : Prop :=
  exists labels, h = labels +:+ "." +:+ d.

(** Decimal numeral of a natural number. *)
Definition numeral (n : nat) : string := NilZero.string_of_uint (Nat.to_uint n).

(** The private, internal, loopback and link-local host names listed by
    the specification, and the cloud metadata address. *)
Inductive listed_private_host : string -> Prop :=
  | lp_localhost : listed_private_host "localhost"
  | lp_127 rest : listed_private_host ("127." +:+ rest)
  | lp_10 rest : listed_private_host ("10." +:+ rest)
  | lp_172 n rest :
      (16 <= n <= 31)%nat ->
      listed_private_host ("172." +:+ numeral n +:+ "." +:+ rest)
  | lp_192_168 rest : listed_private_host ("192.168." +:+ rest)
  | lp_169_254 rest : listed_private_host ("169.254." +:+ rest)
  | lp_local labels : listed_private_host (labels +:+ ".local")
  | lp_internal labels : listed_private_host (labels +:+ ".internal")
  | lp_metadata : listed_private_host "169.254.169.254".

Section WithNumbers.
Context {N : JsNumber}.

(** An object or an array: what [typeof] calls an object, [null] apart. *)
Definition is_structure (v : JsValue) : bool :=
  match v with JObj _ | JArr _ => true | _ => false end.

(** The structural rules of a tool file, field by field. *)
Definition valid_name (d : JsValue) : bool :=
  match prop d "name" with
  | JStr s => RegExp.test YamlLoader.TOOL_NAME_PATTERN s
  | _ => false
  end.

Definition has_description (d : JsValue) : bool :=
  match prop d "description" with JStr _ => true | _ => false end.

Definition has_request (d : JsValue) : bool := is_structure (prop d "request").

Definition valid_method (d : JsValue) : bool :=
  match prop (prop d "request") "method" with
  | JStr m => bool_decide (m ∈ ["GET"; "POST"; "PUT"; "PATCH"; "DELETE"])
  | _ => false
  end.

Definition has_url (d : JsValue) : bool :=
  match prop (prop d "request") "url" with JStr _ => true | _ => false end.

Definition nonempty_allowed_hosts (d : JsValue) : bool :=
  match prop d "allowed_hosts" with
  | JArr (_ :: _) => true
  | _ => false
  end.

Definition well_typed_parameter (param : JsValue) : bool :=
  is_structure param &&
  match prop param "type" with
  | JStr t => bool_decide (t ∈ ["string"; "number"; "boolean"; "integer"])
  | _ => false
  end.

Definition well_typed_parameters (d : JsValue) : bool :=
  match prop d "parameters" with
  | JUndefined => true
  | ps => is_structure ps && forallb (fun kv => well_typed_parameter kv.2) (entries ps)
  end.

Definition passes_validation (d : JsValue) : bool :=
  is_structure d && valid_name d && has_description d && has_request d
  && valid_method d && has_url d && nonempty_allowed_hosts d
  && well_typed_parameters d.

(** The invocation gets as far as validating its URL, and the resolved
    URL has host name [h]. *)
Definition request_host (rt : Executor.Runtime)
    (params : Types.ApiToolExecuteParams) (h : string) : Prop :=
  Executor.checkRequiredEnvVars rt
    (Types.requires_env (Types.definition params)) (Types.extraEnv params)
  = Ok tt
  /\ exists u,
       TemplateEngine.interpolateString
         (Types.url (Types.request (Types.definition params)))
         (Executor.call_context rt params) None = Ok u
       /\ Executor.URL_hostname rt u = Some h.

(** The text of a failed result says that the host is not allow-listed. *)
Definition reports_unlisted_host (r : Executor.ExecuteResult) : Prop :=
  Executor.success r = false
  /\ exists msg, Executor.error r = Some msg
                 /\ includes msg "not in allowed_hosts" = true.

(** A file the loader considers: its name ends in [.yaml] or [.yml]. *)
Definition is_tool_file (file : string) : bool :=
  endsWith file ".yaml" || endsWith file ".yml".

(** The definition a tool file contributes: it must be readable, parse,
    and pass validation. *)
Definition definition_of (h : YamlLoader.Host) (apiToolsDir file : string)
  : option JsValue :=
  if is_tool_file file then
    match YamlLoader.readFileSync h (YamlLoader.path_join h apiToolsDir file) with
    | Ok content =>
        match YamlLoader.parseYaml h content with
        | Ok parsed => if passes_validation parsed then Some parsed else None
        | Throw _ => None
        end
    | Throw _ => None
    end
  else None.

(** The line a tool file makes the loader write with [console.warn], if
    any. *)
Definition diagnostic_of (h : YamlLoader.Host) (apiToolsDir file : string)
  : option string :=
  if is_tool_file file then
    let failed message :=
      "api-tools: failed to parse " +:+ file +:+ ": " +:+ message in
    match YamlLoader.readFileSync h (YamlLoader.path_join h apiToolsDir file) with
    | Ok content =>
        match YamlLoader.parseYaml h content with
        | Ok parsed =>
            match YamlLoader.validateDefinition parsed file with
            | inl warning => Some warning
            | inr _ => None
            end
        | Throw message => Some (failed message)
        end
    | Throw message => Some (failed message)
    end
  else None.

(** The names [checkRequiredEnvVars] reports: the required names whose
    value in the merged environment is falsy. *)
Definition missing_names (rt : Executor.Runtime) (requires : list string)
    (env : option (gmap string string)) : list string :=
  List.filter (fun key => Executor.env_falsy (Executor.merged_env rt env) key)
    requires.

(** A warning of the loader is about the file it names. *)
Definition about (filename warning : string) : Prop :=
  exists rest, warning = "api-tools: " +:+ filename +:+ rest.




End WithNumbers.
End Spec.

(** ** template-engine.ts: the placeholders of a template *)

Module TemplateScan.
Import Js TemplateEngine.

(** The matches of [TEMPLATE_PATTERN] that [replace] visits in [s], from
    left to right: after a match the scan continues behind it, otherwise
    one character further. *)
Fixpoint matches_from (fuel : nat) (s : string) : list Match :=
  match fuel with
  | O => []
  | S fuel' =>
      match match_here s with
      | Some m => m :: matches_from fuel' (m_rest m)
      | None =>
          match s with
          | EmptyString => []
          | String _ s' => matches_from fuel' s'
          end
      end
  end.

Definition matches_of (s : string) : list Match :=
  matches_from (S (String.length s)) s.

(** The keys of the [{{env.KEY}}] placeholders of a template, in order. *)
Definition env_keys (template : string) : list string :=
  map m_key
    (List.filter (fun m => String.eqb (m_scope m) "env") (matches_of template)).

End TemplateScan.

(** ** Shapes of values *)

Module Shape.
Import Js.

(** The entries of [ks] are pairwise different. *)
Fixpoint distinct (ks : list string) : bool :=
  match ks with
  | [] => true
  | k :: rest => negb (array_includes rest k) && distinct rest
  end.

Section WithNumbers.
Context {N : JsNumber}.

(** Every object inside [v] has pairwise different property names, as
    every JavaScript object has. *)
Fixpoint well_formed (v : JsValue) : bool :=
  match v with
  | JArr xs =>
      (fix all (xs : list JsValue) : bool :=
         match xs with
         | [] => true
         | x :: rest => well_formed x && all rest
         end) xs
  | JObj props =>
      distinct (map fst props)
      && (fix all (ps : JsRecord) : bool :=
            match ps with
            | [] => true
            | (_, x) :: rest => well_formed x && all rest
            end) props
  | _ => true
  end.

(** No object inside [v] has an own property named [__proto__]. *)
Fixpoint proto_free (v : JsValue) : bool :=
  match v with
  | JArr xs =>
      (fix all (xs : list JsValue) : bool :=
         match xs with
         | [] => true
         | x :: rest => proto_free x && all rest
         end) xs
  | JObj props =>
      (fix all (ps : JsRecord) : bool :=
         match ps with
         | [] => true
         | (k, x) :: rest => negb (String.eqb k "__proto__") && proto_free x && all rest
         end) props
  | _ => true
  end.

(** An interpolated value differs from the value it was made from at most
    in the contents of its strings: arrays have the same length, objects
    the same property names in the same order and the prototype they were
    created with, and every other leaf is the same. *)
Inductive SameShape : JsValue -> Interpolated -> Prop :=
  | ss_undefined : SameShape JUndefined IUndefined
  | ss_null : SameShape JNull INull
  | ss_bool b : SameShape (JBool b) (IBool b)
  | ss_num n : SameShape (JNum n) (INum n)
  | ss_str s t : SameShape (JStr s) (IStr t)
  | ss_arr xs ys : Forall2 SameShape xs ys -> SameShape (JArr xs) (IArr ys)
  | ss_obj ps qs :
      Forall2 (fun p q => p.1 = q.1 /\ SameShape p.2 q.2) ps qs ->
      SameShape (JObj ps) (IObj None qs).

(** The strings inside [v]: [v] itself, the elements of arrays and the
    property values of objects, at any depth.  (Property names are not
    among them.) *)
Fixpoint strings_of (v : JsValue) : list string :=
  match v with
  | JStr s => [s]
  | JArr xs =>
      (fix each (xs : list JsValue) : list string :=
         match xs with
         | [] => []
         | x :: rest => (strings_of x ++ each rest)%list
         end) xs
  | JObj props =>
      (fix each (ps : JsRecord) : list string :=
         match ps with
         | [] => []
         | (_, x) :: rest => (strings_of x ++ each rest)%list
         end) props
  | _ => []
  end.

End WithNumbers.
End Shape.

(** ** executor.ts: what the response templates see *)

Module Rendering.
Import Js Types Executor.

Section WithNumbers.
Context {N : JsNumber}.

(** The [response] scope of the summary template: the payload itself when
    it is an object or an array, otherwise [{ value: payload }]. *)
Definition summary_scope (responseData : JsValue) : JsObject :=
  match as_object responseData with
  | Some payload => payload
  | None => Plain [("value", responseData)]
  end.

(** The [response] scope of the error template:
    [{ status: response.status, ...payload }], with [{ message: payload }]
    in place of a payload that is not an object. *)
Definition error_scope (status : Z) (responseData : JsValue) : JsObject :=
  Plain (spread [("status", JNum (Number_ofZ status))]
           (if is_object responseData
            then entries responseData
            else [("message", responseData)])).

(** The context of a response template. *)
Definition response_context (rt : Runtime) (params : ApiToolExecuteParams)
    (scope : JsObject) : TemplateEngine.TemplateContext :=
  {| TemplateEngine.env := merged_env rt (extraEnv params);
     TemplateEngine.params := args params;
     TemplateEngine.response := Some scope |}.

(** What a [params] or [response] placeholder is replaced with when the
    property read gave [value], unless the conversion throws. *)
Definition shown (value : Member) : Result string :=
  if member_undefined value then Ok "" else String_member value.

(** The [Content-Type] set for a body when the headers have none. *)
Definition default_content_type (kind : BodyType) : option string :=
  match kind with
  | BodyJson => Some "application/json"
  | BodyForm => Some "application/x-www-form-urlencoded"
  | BodyText => None
  end.

(** The text of a response template: rendered in non-strict mode when it
    is declared, not empty and [wanted]. *)
Definition rendered (wanted : bool) (template : option string)
    (ctx : TemplateEngine.TemplateContext) : Result (option string) :=
  match declared_template template with
  | Some t =>
      if wanted
      then let* s := TemplateEngine.interpolateString t ctx (Some false) in
           Ok (Some s)
      else Ok None
  | None => Ok None
  end.

(** The result built from a response whose body was read as
    [responseData], once the templates are rendered. *)
Definition completed (response : Response) (responseData : JsValue)
    (summary_text error_text : option string) : ExecuteResult :=
  {| success := rs_ok response;
     data := Some responseData;
     status := Some (rs_status response);
     error := error_text;
     summary := summary_text |}.

(** What an invocation returns after an answered request whose body was
    read as [responseData]: the completed result, or the failure of the
    [catch] block when a template throws. *)
Definition finish (rt : Runtime) (params : ApiToolExecuteParams)
    (response : Response) (responseData : JsValue) : ExecuteResult :=
  match rendered (rs_ok response)
          (Types.response (definition params) ≫= Types.summary)
          (response_context rt params (summary_scope responseData)) with
  | Throw msg => failure msg
  | Ok summary_text =>
      match rendered (negb (rs_ok response))
              (Types.response (definition params) ≫= error_template)
              (response_context rt params
                 (error_scope (rs_status response) responseData)) with
      | Throw msg => failure msg
      | Ok error_text => completed response responseData summary_text error_text
      end
  end.

(** The templates of a request that are resolved before the call: the
    URL, the header values and the strings of the body content. *)
Definition request_templates (r : ApiToolRequest) : list string :=
  (url r
   :: map snd (default [] (headers r))
   ++ match body r with
      | Some b => Shape.strings_of (body_content b)
      | None => []
      end)%list.

End WithNumbers.
End Rendering.

(** ** index.ts: the plugin that registers the tools *)

Module Index.
Import Js Types Executor.

(** [s.split(sep)] for a separator of one character. *)
Fixpoint split (sep : ascii) (s : string) : list string :=
  match s with
  | EmptyString => [EmptyString]
  | String c s' =>
      if Ascii.eqb c sep then EmptyString :: split sep s'
      else
        match split sep s' with
        | part :: parts => String c part :: parts
        | [] => [String c EmptyString]
        end
  end.

(** [xs.indexOf(x)]: the first index of [x], or [-1]. *)
Fixpoint indexOf (xs : list string) (x : string) : Z :=
  match xs with
  | [] => -1
  | y :: rest =>
      if String.eqb y x then 0
      else let i := indexOf rest x in if i <? 0 then -1 else i + 1
  end.

Definition extractTenantId (agentDir : string) : option string :=
  let parts := split "/" agentDir in
  let agentsIdx := indexOf parts "agents" in
  if 0 <? agentsIdx then nth_error parts (Z.to_nat (agentsIdx - 1)) else None.

(** [name.replace(/_/g, " ")] *)
Fixpoint label (name : string) : string :=
  match name with
  | EmptyString => EmptyString
  | String c rest => String (if Ascii.eqb c "_" then " "%char else c) (label rest)
  end.

(** The [extraEnv] object built by the tool factory; [agentDir] is known
    to be a non-empty string at that point, [agentId] may be absent.
    [tenantEnv] is what [loadTenantEnv] returned. *)
Definition build_extraEnv (tenantEnv : gmap string string) (agentDir : string)
    (agentId : option string) : gmap string string :=
  let tenant_part : gmap string string :=
    if negb (String.eqb agentDir "")
    then {[ "TENANT_ID" := default "" (extractTenantId agentDir) ]}
    else ∅ in
  let agent_part : gmap string string :=
    match agentId with
    | Some id => if negb (String.eqb id "") then {[ "AGENT_ID" := id ]} else ∅
    | None => ∅
    end in
  (* { ...tenantEnv, ...tenant_part, ...agent_part } *)
  agent_part ∪ (tenant_part ∪ tenantEnv).

Section WithNumbers.
Context {N : JsNumber}.

(** The [execute] method of a registered tool. *)
Definition execute (rt : Runtime) (extraEnv : gmap string string)
    (def : ApiToolDefinition) (args : JsRecord)
  : list Request * ExecuteResult :=
  executeApiTool rt
    {| definition := def; args := args; Types.extraEnv := Some extraEnv |}.

End WithNumbers.
End Index.

(** ** More vocabulary *)

Module Notions.
Import Js.

(** The tool names the loader accepts: a lower-case letter followed by
    lower-case letters, digits and underscores. *)
Definition lower_letter (c : ascii) : bool := RegExp.in_range "a" "z" c.

Definition name_char (c : ascii) : bool :=
  lower_letter c || RegExp.in_range "0" "9" c || Ascii.eqb c "_".

Fixpoint all_name_chars (s : string) : bool :=
  match s with
  | EmptyString => true
  | String c s' => name_char c && all_name_chars s'
  end.

Definition is_tool_name (s : string) : bool :=
  match s with
  | String c s' => lower_letter c && all_name_chars s'
  | EmptyString => false
  end.

(** No character of [s] is a slash. *)
Fixpoint slash_free (s : string) : bool :=
  match s with
  | EmptyString => true
  | String c s' => negb (Ascii.eqb c "/") && slash_free s'
  end.

(** Upper-case form of a string, on ASCII letters. *)
Fixpoint upper_string (s : string) : string :=
  match s with
  | EmptyString => EmptyString
  | String c s' => String (RegExp.upper c) (upper_string s')
  end.

(** The second octet of [/^172\.(1[6-9]|2[0-9]|3[0-1])\./]. *)
Definition second_octet : RegExp.re :=
  RegExp.Alt (RegExp.Seq (RegExp.Chr "1") (RegExp.Rng "6" "9"))
    (RegExp.Alt (RegExp.Seq (RegExp.Chr "2") (RegExp.Rng "0" "9"))
       (RegExp.Seq (RegExp.Chr "3") (RegExp.Rng "0" "1"))).

(** The host names [isPrivateHost] rejects, each family with the letter
    case the corresponding pattern allows. *)
Inductive private_host : string -> Prop :=
  | ph_metadata : private_host "169.254.169.254"
  | ph_localhost h :
      upper_string h = upper_string "localhost" -> private_host h
  | ph_127 rest : private_host ("127." +:+ rest)
  | ph_10 rest : private_host ("10." +:+ rest)
  | ph_172 n rest :
      (16 <= n <= 31)%nat ->
      private_host ("172." +:+ Spec.numeral n +:+ "." +:+ rest)
  | ph_192_168 rest : private_host ("192.168." +:+ rest)
  | ph_169_254 rest : private_host ("169.254." +:+ rest)
  | ph_local labels suffix :
      upper_string suffix = upper_string ".local" ->
      private_host (labels +:+ suffix)
  | ph_internal labels suffix :
      upper_string suffix = upper_string ".internal" ->
      private_host (labels +:+ suffix).

End Notions.

(** ** A reference platform

    Integers as numbers, and a host-name extractor for URLs of the shape
    [scheme://host[:port][/path]]; used by the worked examples. *)

Module Reference.
Import Js.

#[export] Instance Z_numbers : JsNumber := {|
  number := Z;
  Number_toString z := NilZero.string_of_int (Z.to_int z);
  Number_truthy z := negb (z =? 0);
  Number_ofZ z := z;
|}.

(** The context of the template-engine tests. *)
Definition sample_ctx : TemplateEngine.TemplateContext :=
  {| TemplateEngine.env := {[ "API_KEY" := "secret123" ]};
     TemplateEngine.params :=
       [("name", JStr "World"); ("count", JNum 3); ("flag", JBool true)];
     TemplateEngine.response := None |}.

(** Host name of a URL [scheme://host[:port][/path]]. *)
Fixpoint after_scheme (u : string) : option string :=
  match u with
  | EmptyString => None
  | String ":" (String "/" (String "/" rest)) => Some rest
  | String _ u' => after_scheme u'
  end.

Fixpoint host_part (s : string) : string :=
  match s with
  | EmptyString => EmptyString
  | String c s' =>
      if Ascii.eqb c "/" || Ascii.eqb c ":" || Ascii.eqb c "?" || Ascii.eqb c "#"
      then EmptyString
      else String c (host_part s')
  end.

Definition sample_hostname (u : string) : option string :=
  host_part <$> after_scheme u.

(** The double-quote character, as a string. *)
Definition quote : string := String (ascii_of_nat 34) EmptyString.

(** A JSON printer without string escapes, enough for the examples. *)
Fixpoint sample_stringify (v : JsValue) : option string :=
  match v with
  | JUndefined => None
  | JNull => Some "null"
  | JBool b => Some (if b then "true" else "false")
  | JNum n => Some (Number_toString n)
  | JStr s => Some (quote +:+ s +:+ quote)
  | JArr xs =>
      Some ("[" +:+ join ","
              ((fix items (xs : list JsValue) : list string :=
                  match xs with
                  | [] => []
                  | x :: rest => default "null" (sample_stringify x) :: items rest
                  end) xs) +:+ "]")
  | JObj props =>
      Some ("{" +:+ join ","
              ((fix members (ps : JsRecord) : list string :=
                  match ps with
                  | [] => []
                  | (k, x) :: rest =>
                      match sample_stringify x with
                      | Some t => (quote +:+ k +:+ quote +:+ ":" +:+ t) :: members rest
                      | None => members rest
                      end
                  end) props) +:+ "}")
  end.

Definition sample_form (pairs : list (string * string)) : string :=
  join "&" (map (fun kv => kv.1 +:+ "=" +:+ kv.2) pairs).

(** No example builds an object that inherits from an array. *)
Definition sample_exotic (v : Interpolated) : Result string :=
  Throw cannot_convert.

(** A server that answers every request with the same JSON document. *)
Definition sample_response (status : Z) : Executor.Response :=
  {| Executor.rs_status := status;
     Executor.rs_content_type := Some "application/json; charset=utf-8";
     Executor.rs_json := Ok (JObj [("message", JStr "hello"); ("id", JNum 7)]);
     Executor.rs_text :=
       Ok (default "" (sample_stringify (JObj [("message", JStr "hello"); ("id", JNum 7)]))) |}.

Definition sample_runtime (penv : gmap string string) (status : Z)
  : Executor.Runtime :=
  {| Executor.process_env := penv;
     Executor.URL_hostname := sample_hostname;
     Executor.JSON_stringify := sample_stringify;
     Executor.String_exotic := sample_exotic;
     Executor.URLSearchParams_toString := sample_form;
     Executor.fetch := fun _ => Ok (sample_response status) |}.

(** A GET tool, as in the executor tests. *)
Definition get_tool (url : string) (allowed_hosts : list string)
    (requires_env : option (list string)) (timeout_ms : option Z)
  : Types.ApiToolDefinition :=
  {| Types.name := "test_tool";
     Types.description := "test";
     Types.parameters := None;
     Types.request :=
       {| Types.method := Types.GET; Types.url := url; Types.headers := None;
          Types.body := None; Types.timeout_ms := timeout_ms |};
     Types.response := None;
     Types.requires_env := requires_env;
     Types.allowed_hosts := allowed_hosts |}.

Definition call (d : Types.ApiToolDefinition) : Types.ApiToolExecuteParams :=
  {| Types.definition := d; Types.args := []; Types.extraEnv := None |}.

(** The tool of the test "blocks private IP addresses". *)
Definition localhost_tool : Types.ApiToolDefinition :=
  get_tool "http://localhost:8080/secret" ["localhost"] None None.

(** The tool of the test "blocks hosts not in allowed_hosts". *)
Definition evil_tool : Types.ApiToolDefinition :=
  get_tool "https://evil.com/steal" ["api.example.com"] None None.

(** A private target that is not on the allow-list either. *)
Definition unlisted_private_tool : Types.ApiToolDefinition :=
  get_tool "http://localhost:8080/secret" ["api.example.com"] None None.

(** The tool of the test "checks required env vars". *)
Definition needs_env_tool : Types.ApiToolDefinition :=
  get_tool "https://api.example.com/test" ["api.example.com"]
    (Some ["NONEXISTENT_VAR_12345"]) None.

(** A tool that declares a time-out above the ceiling. *)
Definition slow_tool : Types.ApiToolDefinition :=
  get_tool "https://httpbin.org/get" ["httpbin.org"] None (Some 120000).

(** A tool that requires a variable and uses it in its URL. *)
Definition keyed_tool : Types.ApiToolDefinition :=
  get_tool "https://api.example.com/{{env.API_KEY}}/test" ["api.example.com"]
    (Some ["API_KEY"]) None.

(** The tool of the test "sends POST with interpolated body". *)
Definition post_tool : Types.ApiToolDefinition :=
  {| Types.name := "test_tool";
     Types.description := "test";
     Types.parameters := None;
     Types.request :=
       {| Types.method := Types.POST;
          Types.url := "https://httpbin.org/post";
          Types.headers := Some [("Content-Type", "application/json")];
          Types.body :=
            Some {| Types.body_type := Types.BodyJson;
                    Types.body_content := JObj [("text", JStr "{{params.message}}")] |};
          Types.timeout_ms := Some 10000 |};
     Types.response :=
       Some {| Types.extract := None;
               Types.summary := Some "Sent: {{response.message}} (#{{response.id}})";
               Types.error_template := Some "HTTP {{response.status}}: {{response.message}}" |};
     Types.requires_env := None;
     Types.allowed_hosts := ["httpbin.org"] |}.

Definition post_call : Types.ApiToolExecuteParams :=
  {| Types.definition := post_tool;
     Types.args := [("message", JStr "Hello World")];
     Types.extraEnv := None |}.

(** The parameter declarations of the schema-builder tests. *)
Definition text_param : Types.ApiToolParameter :=
  {| Types.p_type := Types.PString; Types.p_description := Some "The text";
     Types.p_required := Some true; Types.p_enum := None;
     Types.p_default := None |}.

Definition visibility_param : Types.ApiToolParameter :=
  {| Types.p_type := Types.PString; Types.p_description := None;
     Types.p_required := Some false;
     Types.p_enum := Some ["PUBLIC"; "PRIVATE"];
     Types.p_default := None |}.

Definition limit_param : Types.ApiToolParameter :=
  {| Types.p_type := Types.PInteger; Types.p_description := None;
     Types.p_required := None; Types.p_enum := None;
     Types.p_default := None |}.

Definition sample_parameters : list (string * Types.ApiToolParameter) :=
  [("text", text_param); ("visibility", visibility_param); ("limit", limit_param)].

(** The valid definition of the loader tests, as the YAML parser returns
    it. *)
Definition test_tool_tree : JsValue :=
  JObj [ ("name", JStr "test_tool");
         ("description", JStr "A test tool");
         ("parameters",
          JObj [("msg", JObj [("type", JStr "string"); ("required", JBool true)])]);
         ("request",
          JObj [ ("method", JStr "POST");
                 ("url", JStr "https://api.example.com/test");
                 ("headers", JObj [("Content-Type", JStr "application/json")]);
                 ("body",
                  JObj [ ("type", JStr "json");
                         ("content", JObj [("message", JStr "{{params.msg}}")]) ]) ]);
         ("allowed_hosts", JArr [JStr "api.example.com"]) ].

(** The definition without a name of the loader tests. *)
Definition nameless_tree : JsValue :=
  JObj [ ("description", JStr "Missing name field");
         ("request",
          JObj [("method", JStr "GET"); ("url", JStr "https://example.com")]);
         ("allowed_hosts", JArr [JStr "example.com"]) ].

(** A directory with a valid file, a file without name, a file that does
    not parse and a file that is not YAML.  Paths are joined with a slash,
    a file's content is its path, and the parser is a table. *)
Definition sample_host : YamlLoader.Host :=
  {| YamlLoader.path_join := fun a b => a +:+ "/" +:+ b;
     YamlLoader.existsSync := fun p => String.eqb p "/agent/api-tools";
     YamlLoader.readdirSync := fun _ =>
       Ok ["bad.yaml"; "test_tool.yaml"; "notes.txt"; "broken.yml"];
     YamlLoader.readFileSync := fun p => Ok p;
     YamlLoader.parseYaml := fun content =>
       if String.eqb content "/agent/api-tools/test_tool.yaml" then Ok test_tool_tree
       else if String.eqb content "/agent/api-tools/bad.yaml" then Ok nameless_tree
       else Throw "Implicit map keys need to be followed by map values" |}.

End Reference.

(** ** More scenarios *)

Module Scenarios.
Import Js Types Executor Reference.

(** A platform whose server answers every request with [resp]. *)
Definition answering (penv : gmap string string) (resp : Response) : Runtime :=
  {| process_env := penv;
     URL_hostname := sample_hostname;
     JSON_stringify := sample_stringify;
     String_exotic := sample_exotic;
     URLSearchParams_toString := sample_form;
     fetch := fun _ => Ok resp |}.

(** A JSON error document that has a [status] property of its own. *)
Definition rate_limited_payload : JsRecord :=
  [("status", JStr "rate_limited"); ("retry_after", JNum 30)].

Definition rate_limited : Response :=
  {| rs_status := 429;
     rs_content_type := Some "application/json";
     rs_json := Ok (JObj rate_limited_payload);
     rs_text := Ok "rate limited" |}.

(** A plain-text answer. *)
Definition plain (status : Z) (text : string) : Response :=
  {| rs_status := status;
     rs_content_type := Some "text/plain";
     rs_json := Throw "Unexpected token";
     rs_text := Ok text |}.

(** A tool with both response templates. *)
Definition report_tool : ApiToolDefinition :=
  {| name := "report";
     description := "reports what the server said";
     parameters := None;
     request :=
       {| method := GET; url := "https://api.example.com/ping"; headers := None;
          body := None; timeout_ms := None |};
     response :=
       Some {| Types.extract := None;
               Types.summary := Some "Got {{response.value}}";
               Types.error_template :=
                 Some "Failed ({{response.status}}): {{response.message}}" |};
     requires_env := None;
     allowed_hosts := ["api.example.com"] |}.

(** A tool that posts a form and declares no header. *)
Definition form_tool : ApiToolDefinition :=
  {| name := "search";
     description := "posts a form";
     parameters := None;
     request :=
       {| method := POST; url := "https://api.example.com/search";
          headers := Some [("Accept", "text/plain")];
          body := Some {| body_type := BodyForm;
                          body_content := JObj [("q", JStr "{{params.q}}");
                                                ("page", JNum 2)] |};
          timeout_ms := None |};
     response := None;
     requires_env := None;
     allowed_hosts := ["*.example.com"] |}.

Definition form_call : ApiToolExecuteParams :=
  {| definition := form_tool; args := [("q", JStr "rocq")]; extraEnv := None |}.

(** A tool that addresses the tenant's own endpoint. *)
Definition tenant_tool : ApiToolDefinition :=
  get_tool "https://api.example.com/tenants/{{env.TENANT_ID}}" ["api.example.com"]
    (Some ["TENANT_ID"]) None.

(** The directory of an agent of tenant [acme], a directory outside any
    tenant tree, and a tenant configuration that tries to set the identity
    variables itself. *)
Definition agent_directory : string := "/data/tenants/acme/agents/support".

Definition stray_directory : string := "/srv/bot".

Definition tenant_config : gmap string string :=
  {[ "TENANT_ID" := "other"; "API_KEY" := "k1" ]}.





(** A context whose parameter [who] is an object with a property
    [toString] of its own. *)
Definition opaque_ctx : TemplateEngine.TemplateContext :=
  {| TemplateEngine.env := ∅;
     TemplateEngine.params := [("who", JObj [("toString", JStr "me")])];
     TemplateEngine.response := None |}.

End Scenarios.

(** * Properties *)

(** ** Strings *)

Module StringFacts.
Import Js.

(** [+:+] does not unfold under [simpl]; its two equations are used as
    rewrite rules instead. *)
Lemma app_nil_l (a : string) : "" +:+ a = a.
Proof. reflexivity. Qed.

Lemma app_cons (x : ascii) (a b : string) :
  String x a +:+ b = String x (a +:+ b).
Proof. reflexivity. Qed.

Ltac unfold_app := rewrite ?app_cons, ?app_nil_l in *.

Lemma app_assoc (a b c : string) : (a +:+ b) +:+ c = a +:+ (b +:+ c).
Proof.
  induction a as [|x a IH]; [reflexivity|].
  rewrite !app_cons. now rewrite IH.
Qed.

Lemma app_nil_r (a : string) : a +:+ "" = a.
Proof.
  induction a as [|x a IH]; [reflexivity|].
  rewrite app_cons. now rewrite IH.
Qed.

Lemma length_app (a b : string) :
  String.length (a +:+ b) = (String.length a + String.length b)%nat.
Proof.
  induction a as [|x a IH]; [reflexivity|].
  rewrite app_cons. simpl. now rewrite IH.
Qed.

Lemma startsWith_app (p r : string) : startsWith (p +:+ r) p = true.
Proof.
  induction p as [|x p IH]; [reflexivity|].
  rewrite app_cons. simpl. now rewrite Ascii.eqb_refl.
Qed.

Lemma startsWith_inv (s p : string) :
  startsWith s p = true -> exists r, s = p +:+ r.
Proof.
  revert s; induction p as [|x p IH]; intros s H; simpl in *.
  - now exists s.
  - destruct s as [|y s]; [discriminate|].
    apply andb_prop in H as [Hxy Hs].
    apply Ascii.eqb_eq in Hxy as ->.
    destruct (IH _ Hs) as [r ->]. now exists r.
Qed.

Lemma startsWith_spec (s p : string) :
  startsWith s p = true <-> exists r, s = p +:+ r.
Proof.
  split; [apply startsWith_inv | intros [r ->]; apply startsWith_app].
Qed.

Lemma slice_app (p r : string) : slice (p +:+ r) (String.length p) = r.
Proof.
  induction p as [|x p IH]; [now destruct r|].
  rewrite app_cons. simpl. exact IH.
Qed.

(** The first [n] code units, then the rest. *)
Lemma slice_split (s : string) (n : nat) :
  (n <= String.length s)%nat ->
  s = substring 0 n s +:+ slice s n.
Proof.
  revert s; induction n as [|n IH]; intros s Hn.
  - destruct s; reflexivity.
  - destruct s as [|c s]; simpl in *; [lia|].
    rewrite app_cons. f_equal. apply IH. lia.
Qed.

Lemma endsWith_app (q p : string) : endsWith (q +:+ p) p = true.
Proof.
  unfold endsWith. rewrite length_app.
  apply andb_true_intro; split.
  - apply Nat.leb_le. lia.
  - replace (String.length q + String.length p - String.length p)%nat
      with (String.length q) by lia.
    rewrite slice_app. apply String.eqb_refl.
Qed.

Lemma endsWith_inv (s p : string) :
  endsWith s p = true -> exists q, s = q +:+ p.
Proof.
  unfold endsWith. intros H.
  apply andb_prop in H as [Hlen Heq].
  apply Nat.leb_le in Hlen. apply String.eqb_eq in Heq.
  exists (substring 0 (String.length s - String.length p) s).
  pose proof (slice_split s (String.length s - String.length p)) as Hs.
  rewrite Heq in Hs. apply Hs. lia.
Qed.

Lemma endsWith_spec (s p : string) :
  endsWith s p = true <-> exists q, s = q +:+ p.
Proof.
  split; [apply endsWith_inv | intros [q ->]; apply endsWith_app].
Qed.

Lemma includes_app (a k b : string) : includes (a +:+ k +:+ b) k = true.
Proof.
  induction a as [|x a IH].
  - rewrite app_nil_l. destruct (k +:+ b) eqn:E; simpl.
    + destruct k; [reflexivity | discriminate].
    + rewrite <- E, startsWith_app. reflexivity.
  - rewrite app_cons. simpl. rewrite IH. apply orb_true_r.
Qed.

Lemma join_includes (sep k : string) (xs : list string) :
  In k xs -> exists a b, join sep xs = a +:+ k +:+ b.
Proof.
  induction xs as [|x xs IH]; intros Hin; [destruct Hin|].
  destruct Hin as [->|Hin].
  - destruct xs as [|y ys].
    + exists "", "". now rewrite app_nil_r.
    + exists "", (sep +:+ join sep (y :: ys)). reflexivity.
  - destruct (IH Hin) as (a & b & E).
    destruct xs as [|y ys]; [destruct Hin|].
    exists (x +:+ sep +:+ a), b.
    change (join sep (x :: y :: ys)) with (x +:+ sep +:+ join sep (y :: ys)).
    rewrite E. now rewrite !app_assoc.
Qed.

End StringFacts.

(** ** Regular expressions: the matcher computes the denotation *)

Module RegExpSemantics.
Import StringFacts.
Import RegExp.

Lemma app_eq_nil (a b : string) : a +:+ b = "" -> a = "" /\ b = "".
Proof.
  destruct a.
  - rewrite app_nil_l. now intros ->.
  - rewrite app_cons. discriminate.
Qed.

Lemma Matches_nil_nullable (ic : bool) (r : re) (s : string) :
  Matches ic r s -> s = "" -> nullable r = true.
Proof.
  induction 1 as [ |p c Hc|lo hi c Hc|a b s H IH|a b s H IH
                  |a b s1 s2 Ha IHa Hb IHb| |a s1 s2 Ha IHa Hs IHs];
    intros E; simpl; try reflexivity; try discriminate E.
  - now rewrite IH.
  - rewrite IH by assumption. apply orb_true_r.
  - apply app_eq_nil in E as [-> ->]. now rewrite IHa, IHb.
Qed.

Lemma nullable_Matches (ic : bool) (r : re) :
  nullable r = true <-> Matches ic r "".
Proof.
  split; [|intros H; now apply (Matches_nil_nullable ic r "")].
  induction r as [ | |p|lo hi|a IHa b IHb|a IHa b IHb|a IHa]; simpl;
    intros H; try discriminate H.
  - constructor.
  - apply orb_prop in H as [H|H]; [apply M_Alt_l | apply M_Alt_r]; auto.
  - apply andb_prop in H as [Ha Hb].
    change "" with ("" +:+ ""). apply M_Seq; auto.
  - constructor.
Qed.

Lemma deriv_sound (ic : bool) (c : ascii) (r : re) (s : string) :
  Matches ic (deriv ic c r) s -> Matches ic r (String c s).
Proof.
  revert s.
  induction r as [ | |p|lo hi|a IHa b IHb|a IHa b IHb|a IHa]; simpl; intros s H.
  - inversion H.
  - inversion H.
  - destruct (chr_matches ic p c) eqn:E; inversion H; subst. now constructor.
  - destruct (rng_matches ic lo hi c) eqn:E; inversion H; subst. now constructor.
  - inversion H; subst; [apply M_Alt_l | apply M_Alt_r]; auto.
  - destruct (nullable a) eqn:Hnull.
    + inversion H as [ | | |a' b' s' Hl|a' b' s' Hr| | | ]; subst.
      * inversion Hl; subst. rewrite <- app_cons. apply M_Seq; auto.
      * change (String c s) with ("" +:+ String c s).
        apply M_Seq; [now apply nullable_Matches | auto].
    + inversion H; subst. rewrite <- app_cons. apply M_Seq; auto.
  - inversion H; subst. rewrite <- app_cons. apply M_Star_more; auto.
Qed.

Lemma deriv_complete (ic : bool) (r : re) (w : string) :
  Matches ic r w ->
  forall c s, w = String c s -> Matches ic (deriv ic c r) s.
Proof.
  induction 1 as [ |p c' Hc|lo hi c' Hc|a b s' H IH|a b s' H IH
                  |a b s1 s2 Ha IHa Hb IHb| |a s1 s2 Ha IHa Hs IHs];
    intros c s E; simpl.
  - discriminate E.
  - injection E as -> <-. rewrite Hc. constructor.
  - injection E as -> <-. rewrite Hc. constructor.
  - apply M_Alt_l. now apply IH.
  - apply M_Alt_r. now apply IH.
  - destruct s1 as [|c1 s1].
    + rewrite app_nil_l in E.
      rewrite (Matches_nil_nullable ic a "" Ha eq_refl).
      apply M_Alt_r. now apply IHb.
    + rewrite app_cons in E. injection E as -> <-.
      destruct (nullable a); [apply M_Alt_l|]; apply M_Seq; auto.
  - discriminate E.
  - destruct s1 as [|c1 s1].
    + rewrite app_nil_l in E. now apply IHs.
    + rewrite app_cons in E. injection E as -> <-. apply M_Seq; auto.
Qed.

(** [matches_all] decides the denotation. *)
Lemma matches_all_spec (ic : bool) (r : re) (s : string) :
  matches_all ic r s = true <-> Matches ic r s.
Proof.
  revert r; induction s as [|c s IH]; intros r; simpl.
  - apply (nullable_Matches ic).
  - rewrite IH. split; [apply deriv_sound|].
    intros H. now apply (deriv_complete ic r (String c s)).
Qed.

(** [matches_prefix] finds the strings that start with a member of the
    denotation. *)
Lemma matches_prefix_spec (ic : bool) (r : re) (s : string) :
  matches_prefix ic r s = true <->
  exists w rest, s = w +:+ rest /\ Matches ic r w.
Proof.
  revert r; induction s as [|c s IH]; intros r; simpl.
  - rewrite orb_false_r, (nullable_Matches ic). split.
    + intros H. exists "", "". split; [reflexivity | exact H].
    + intros (w & rest & E & H). symmetry in E.
      apply app_eq_nil in E as [-> _]. exact H.
  - rewrite orb_true_iff, IH, (nullable_Matches ic). split.
    + intros [H|(w & rest & -> & H)].
      * exists "", (String c s). split; [reflexivity | exact H].
      * exists (String c w), rest. split; [reflexivity|].
        now apply deriv_sound.
    + intros (w & rest & E & H). destruct w as [|c' w].
      * now left.
      * rewrite app_cons in E. injection E as <- ->. right.
        exists w, rest. split; [reflexivity|].
        now apply (deriv_complete ic r (String c w)).
Qed.

(** [test]: some substring is in the denotation, at the start of the
    string when the pattern starts with [^], up to its end when the
    pattern ends with [$]. *)
Lemma matches_here_spec (p : t) (s : string) :
  matches_here p s = true <->
  exists w rest,
    s = w +:+ rest /\ Matches (ignoreCase p) (body p) w
    /\ (anchor_end p = true -> rest = "").
Proof.
  unfold matches_here. destruct (anchor_end p).
  - rewrite matches_all_spec. split.
    + intros H. exists s, "". now rewrite app_nil_r.
    + intros (w & rest & -> & H & Hrest). rewrite Hrest by reflexivity.
      now rewrite app_nil_r.
  - rewrite matches_prefix_spec. split.
    + intros (w & rest & E & H). exists w, rest. repeat split; auto. discriminate.
    + intros (w & rest & E & H & _). now exists w, rest.
Qed.

Lemma matches_somewhere_spec (p : t) (s : string) :
  matches_somewhere p s = true <->
  exists pre tail, s = pre +:+ tail /\ matches_here p tail = true.
Proof.
  induction s as [|c s IH]; simpl.
  - rewrite orb_false_r. split.
    + intros H. now exists "", "".
    + intros (pre & tail & E & H). symmetry in E.
      apply app_eq_nil in E as [_ ->]. exact H.
  - rewrite orb_true_iff, IH. split.
    + intros [H|(pre & tail & -> & H)].
      * now exists "", (String c s).
      * now exists (String c pre), tail.
    + intros (pre & tail & E & H). destruct pre as [|c' pre].
      * left. rewrite app_nil_l in E. now subst.
      * right. rewrite app_cons in E. injection E as <- ->. now exists pre, tail.
Qed.

Theorem test_spec (p : t) (s : string) :
  test p s = true <->
  exists pre w post,
    s = pre +:+ w +:+ post
    /\ Matches (ignoreCase p) (body p) w
    /\ (anchor_start p = true -> pre = "")
    /\ (anchor_end p = true -> post = "").
Proof.
  unfold test. destruct (anchor_start p).
  - rewrite matches_here_spec. split.
    + intros (w & rest & -> & H & Hend). exists "", w, rest. now repeat split.
    + intros (pre & w & post & -> & H & Hstart & Hend).
      rewrite Hstart by reflexivity. now exists w, post.
  - rewrite matches_somewhere_spec. split.
    + intros (pre & tail & -> & H).
      apply matches_here_spec in H as (w & rest & -> & H & Hend).
      exists pre, w, rest. repeat split; auto. discriminate.
    + intros (pre & w & post & -> & H & _ & Hend).
      exists pre, (w +:+ post). split; [reflexivity|].
      apply matches_here_spec. now exists w, post.
Qed.

Lemma Matches_lit (p : string) : Matches false (lit p) p.
Proof.
  induction p as [|c p IH]; simpl; [constructor|].
  change (String c p) with (String c "" +:+ p).
  apply M_Seq; [|exact IH]. constructor. apply Ascii.eqb_refl.
Qed.

Lemma Matches_lit_inv (p s : string) : Matches false (lit p) s -> s = p.
Proof.
  revert s; induction p as [|c p IH]; simpl; intros s H.
  - now inversion H.
  - inversion H as [ | | | | |a b s1 s2 Hc Hp| | ]; subst.
    inversion Hc as [ |p' c' E| | | | | | ]; subst.
    apply Ascii.eqb_eq in E as ->. rewrite app_cons, app_nil_l.
    f_equal. now apply IH.
Qed.

End RegExpSemantics.

(** ** template-engine.ts: the pattern and [replace] *)

Module TemplateFacts.
Import Js TemplateEngine StringFacts.

Lemma eat_inv (p s r : string) : eat p s = Some r -> s = p +:+ r.
Proof.
  revert s; induction p as [|x p IH]; intros s H; simpl in H.
  - now injection H as ->.
  - destruct s as [|y s]; [discriminate|].
    destruct (Ascii.eqb_spec x y) as [->|]; [|discriminate].
    rewrite app_cons. f_equal. now apply IH.
Qed.

Lemma eat_alt_inv (alts : list string) (s a r : string) :
  eat_alt alts s = Some (a, r) -> In a alts /\ s = a +:+ r.
Proof.
  induction alts as [|b alts IH]; simpl; [discriminate|].
  destruct (eat b s) as [r'|] eqn:E.
  - intros [= <- <-]. split; [now left | now apply eat_inv].
  - intros H. destruct (IH H) as [Hin Hs]. split; [now right | exact Hs].
Qed.

Lemma ident_start_char (c : ascii) : ident_start c = true -> ident_char c = true.
Proof.
  unfold ident_start, ident_char. intros H.
  apply orb_prop in H as [->| ->]; [reflexivity | apply orb_true_r].
Qed.

Lemma eat_ident_chars_inv (s k r : string) :
  eat_ident_chars s = (k, r) -> s = k +:+ r /\ all_ident_chars k = true.
Proof.
  revert k r; induction s as [|c s IH]; intros k r H; simpl in H.
  - injection H as <- <-. now split.
  - destruct (ident_char c) eqn:Hc.
    + destruct (eat_ident_chars s) as [k' r'] eqn:E.
      injection H as <- <-.
      destruct (IH _ _ eq_refl) as [-> Hk].
      split; [reflexivity|]. simpl. now rewrite Hc.
    + injection H as <- <-. now split.
Qed.

(** The identifier run stops at the first character outside
    [[a-zA-Z0-9_]]. *)
Lemma eat_ident_chars_app (k : string) (c : ascii) (r : string) :
  all_ident_chars k = true -> ident_char c = false ->
  eat_ident_chars (k +:+ String c r) = (k, String c r).
Proof.
  intros Hk Hc. induction k as [|x k IH].
  - rewrite app_nil_l. simpl. now rewrite Hc.
  - simpl in Hk. apply andb_prop in Hk as [Hx Hk].
    rewrite app_cons. simpl. rewrite Hx, (IH Hk). reflexivity.
Qed.

(** Completeness of [match_here]: a placeholder with a recognised scope
    and an identifier key is matched, whatever follows. *)
Lemma match_here_placeholder (scope key rest : string) :
  In scope TEMPLATE_SCOPES -> is_identifier key = true ->
  match_here (Spec.placeholder scope key +:+ rest)
  = Some {| m_scope := scope; m_key := key; m_rest := rest |}.
Proof.
  intros Hscope Hkey.
  destruct key as [|c k]; [discriminate|].
  simpl in Hkey. apply andb_prop in Hkey as [Hc Hk].
  assert (Hrun : eat_ident_chars (k +:+ "}}" +:+ rest) = (k, "}}" +:+ rest)).
  { rewrite app_cons. now apply eat_ident_chars_app. }
  unfold Spec.placeholder.
  simpl in Hscope.
  destruct Hscope as [<-|[<-|[<-|[]]]];
    rewrite !app_assoc; unfold_app; unfold match_here; simpl;
    rewrite Hc, Hrun; unfold_app; simpl; reflexivity.
Qed.

(** Soundness of [match_here]: a match is a placeholder with a recognised
    scope and an identifier key, followed by the remainder. *)
Lemma match_here_inv (s : string) (m : Match) :
  match_here s = Some m ->
  s = m_text m +:+ m_rest m
  /\ In (m_scope m) TEMPLATE_SCOPES
  /\ is_identifier (m_key m) = true.
Proof.
  unfold match_here. intros H.
  destruct (eat "{{" s) as [s1|] eqn:E1;
    cbn [mbind option_bind] in H; [|discriminate].
  destruct (eat_alt TEMPLATE_SCOPES s1) as [[scope s2]|] eqn:E2;
    cbn [mbind option_bind] in H; [|discriminate].
  destruct (eat "." s2) as [s3|] eqn:E3;
    cbn [mbind option_bind] in H; [|discriminate].
  destruct s3 as [|c s4]; [discriminate|].
  destruct (ident_start c) eqn:Hc; [|discriminate].
  destruct (eat_ident_chars s4) as [k s5] eqn:E4.
  destruct (eat "}}" s5) as [s6|] eqn:E5;
    cbn [mbind option_bind] in H; [|discriminate].
  injection H as <-. simpl.
  apply eat_inv in E1, E3, E5.
  apply eat_alt_inv in E2 as [Hin E2].
  apply eat_ident_chars_inv in E4 as [E4 Hk].
  split; [|split; [exact Hin | now rewrite Hc]].
  unfold m_text. simpl m_scope. simpl m_key.
  subst s s1 s2 s4 s5. rewrite !app_assoc. unfold_app. reflexivity.
Qed.

Lemma m_text_length (m : Match) : (2 <= String.length (m_text m))%nat.
Proof. unfold m_text. unfold_app. simpl. lia. Qed.

Lemma match_here_shorter (s : string) (m : Match) :
  match_here s = Some m -> (String.length (m_rest m) < String.length s)%nat.
Proof.
  intros H. apply match_here_inv in H as [-> _].
  rewrite length_app. pose proof (m_text_length m). lia.
Qed.

Section Replace.
Variable callback : string -> string -> string -> Result string.

(** Any fuel above the length of the string gives the same result. *)
Lemma replace_from_fuel (f1 f2 : nat) (s : string) :
  (String.length s < f1)%nat -> (String.length s < f2)%nat ->
  replace_from callback f1 s = replace_from callback f2 s.
Proof.
  revert f2 s; induction f1 as [|f1 IH]; intros f2 s H1 H2; [lia|].
  destruct f2 as [|f2]; [lia|]. simpl.
  destruct (match_here s) as [m|] eqn:E.
  - apply match_here_shorter in E.
    rewrite (IH f2 (m_rest m)) by lia. reflexivity.
  - destruct s as [|c s]; [reflexivity|]. simpl in H1, H2.
    rewrite (IH f2 s) by lia. reflexivity.
Qed.

(** The recursion equation of [replace]. *)
Lemma replace_eq (s : string) :
  replace callback s =
  match match_here s with
  | Some m =>
      let* v := callback (m_text m) (m_scope m) (m_key m) in
      let* out := replace callback (m_rest m) in
      Ok (v +:+ out)
  | None =>
      match s with
      | EmptyString => Ok EmptyString
      | String c s' =>
          let* out := replace callback s' in
          Ok (String c out)
      end
  end.
Proof.
  unfold replace at 1. simpl.
  destruct (match_here s) as [m|] eqn:E.
  - apply match_here_shorter in E.
    unfold replace.
    rewrite (replace_from_fuel (String.length s) (S (String.length (m_rest m))))
      by lia.
    reflexivity.
  - destruct s as [|c s]; reflexivity.
Qed.

Lemma replace_empty : replace callback "" = Ok "".
Proof. reflexivity. Qed.



(** A match is not affected by what follows it. *)
Lemma match_here_app (s1 s2 : string) (m : Match) :
  match_here s1 = Some m ->
  match_here (s1 +:+ s2)
  = Some {| m_scope := m_scope m; m_key := m_key m; m_rest := m_rest m +:+ s2 |}.
Proof.
  intros H. apply match_here_inv in H as (-> & Hscope & Hkey).
  rewrite app_assoc. now apply match_here_placeholder.
Qed.

(** If [w] has no opening brace and [a{b] starts with [w], then [a] starts
    with [w]. *)
Lemma brace_free_prefix (w a b rest : string) :
  brace_free w = true ->
  a +:+ String "{" b = w +:+ rest ->
  exists r, a = w +:+ r.
Proof.
  revert a; induction w as [|x w IH]; intros a Hw E.
  - now exists a.
  - simpl in Hw. apply andb_prop in Hw as [Hx Hw].
    apply negb_true_iff, Ascii.eqb_neq in Hx.
    destruct a as [|y a]; unfold_app.
    + injection E as E _. now subst x.
    + injection E as -> E. destruct (IH a Hw E) as [r ->]. now exists r.
Qed.

Lemma all_ident_chars_brace_free (k : string) :
  all_ident_chars k = true -> brace_free k = true.
Proof.
  induction k as [|c k IH]; [reflexivity|]. simpl.
  intros H. apply andb_prop in H as [Hc Hk]. rewrite (IH Hk), andb_true_r.
  destruct (Ascii.eqb_spec c "{") as [->|]; [discriminate Hc | reflexivity].
Qed.

Lemma is_identifier_brace_free (k : string) :
  is_identifier k = true -> brace_free k = true.
Proof.
  intros H. apply all_ident_chars_brace_free.
  destruct k as [|c k]; [reflexivity|]. simpl in *.
  apply andb_prop in H as [Hc Hk].
  now rewrite (ident_start_char _ Hc).
Qed.

Lemma brace_free_app (a b : string) :
  brace_free (a +:+ b) = brace_free a && brace_free b.
Proof.
  induction a as [|c a IH]; [reflexivity|].
  rewrite app_cons. simpl. rewrite IH. now rewrite andb_assoc.
Qed.

Lemma scope_brace_free (scope : string) :
  In scope TEMPLATE_SCOPES -> brace_free scope = true.
Proof. simpl. intros [<-|[<-|[<-|[]]]]; reflexivity. Qed.

(** The text of a match, the two leading braces apart, has no opening
    brace. *)
Lemma match_tail_brace_free (m : Match) :
  In (m_scope m) TEMPLATE_SCOPES -> is_identifier (m_key m) = true ->
  brace_free (m_scope m +:+ "." +:+ m_key m +:+ "}}") = true.
Proof.
  intros Hs Hk. rewrite !brace_free_app.
  rewrite (scope_brace_free _ Hs), (is_identifier_brace_free _ Hk).
  reflexivity.
Qed.

(** A failed match on a non-empty [s1] still fails when a text starting
    with two opening braces is appended. *)
Lemma match_here_app_none (s1 t : string) :
  s1 <> "" -> match_here s1 = None ->
  match_here (s1 +:+ "{{" +:+ t) = None.
Proof.
  intros Hne Hnone.
  destruct (match_here (s1 +:+ "{{" +:+ t)) as [m|] eqn:E; [|reflexivity].
  exfalso.
  apply match_here_inv in E as (E & Hscope & Hkey).
  pose proof (match_tail_brace_free m Hscope Hkey) as Hfree.
  set (w := m_scope m +:+ "." +:+ m_key m +:+ "}}") in *.
  change (s1 +:+ String "{" (String "{" t)
          = String "{" (String "{" (w +:+ m_rest m))) in E.
  destruct s1 as [|c1 [|c2 s1]]; [congruence| |].
  - (* a single brace: the scope would have to start with a brace *)
    injection E as _ E. subst w.
    simpl in Hscope.
    destruct Hscope as [Hs|[Hs|[Hs|[]]]]; rewrite <- Hs in E;
      rewrite !app_cons in E; discriminate E.
  - (* two braces, then a text starting with the tail of the match *)
    injection E as -> -> E.
    destruct (brace_free_prefix _ _ _ _ Hfree E) as [r ->].
    change (match_here (Spec.placeholder (m_scope m) (m_key m) +:+ r) = None)
      in Hnone.
    rewrite (match_here_placeholder _ _ r Hscope Hkey) in Hnone.
    discriminate Hnone.
Qed.

(** Text before a pair of opening braces is processed on its own. *)
Lemma replace_split (pre t : string) :
  replace callback (pre +:+ "{{" +:+ t) =
  let* a := replace callback pre in
  let* b := replace callback ("{{" +:+ t) in
  Ok (a +:+ b).
Proof.
  remember (String.length pre) as n eqn:Hn.
  revert pre Hn. induction n as [n IH] using lt_wf_ind. intros pre Hn.
  destruct pre as [|c pre].
  - rewrite app_nil_l, replace_empty. simpl.
    destruct (replace callback ("{{" +:+ t)); reflexivity.
  - rewrite (replace_eq (String c pre +:+ "{{" +:+ t)), (replace_eq (String c pre)).
    destruct (match_here (String c pre)) as [m|] eqn:E.
    + rewrite (match_here_app _ ("{{" +:+ t) _ E).
      change (m_text {| m_scope := m_scope m; m_key := m_key m;
                        m_rest := m_rest m +:+ "{{" +:+ t |})
        with (m_text m).
      simpl m_scope. simpl m_key. simpl m_rest.
      apply match_here_shorter in E.
      rewrite (IH (String.length (m_rest m))) by (subst n; auto).
      destruct (callback (m_text m) (m_scope m) (m_key m)); [|reflexivity].
      simpl. destruct (replace callback (m_rest m)); [|reflexivity].
      simpl. destruct (replace callback ("{{" +:+ t)); [|reflexivity].
      simpl. now rewrite app_assoc.
    + rewrite match_here_app_none by (trivial; discriminate).
      rewrite app_cons.
      rewrite (IH (String.length pre)) by (subst n; simpl; auto).
      destruct (replace callback pre); [|reflexivity].
      simpl. destruct (replace callback ("{{" +:+ t)); reflexivity.
Qed.

(** A placeholder with a recognised scope is replaced by what the callback
    returns for it; the texts before and after are processed on their
    own. *)
Lemma replace_placeholder (pre scope key post : string) :
  In scope TEMPLATE_SCOPES -> is_identifier key = true ->
  replace callback (pre +:+ Spec.placeholder scope key +:+ post) =
  let* a := replace callback pre in
  let* v := callback (Spec.placeholder scope key) scope key in
  let* b := replace callback post in
  Ok (a +:+ v +:+ b).
Proof.
  intros Hscope Hkey.
  change (Spec.placeholder scope key +:+ post)
    with ("{{" +:+ ((scope +:+ "." +:+ key +:+ "}}") +:+ post)).
  rewrite replace_split.
  change ("{{" +:+ ((scope +:+ "." +:+ key +:+ "}}") +:+ post))
    with (Spec.placeholder scope key +:+ post).
  rewrite (replace_eq (Spec.placeholder scope key +:+ post)).
  rewrite (match_here_placeholder _ _ post Hscope Hkey).
  change (m_text {| m_scope := scope; m_key := key; m_rest := post |})
    with (Spec.placeholder scope key).
  simpl m_scope. simpl m_key. simpl m_rest.
  destruct (replace callback pre); [|reflexivity]. simpl.
  destruct (callback (Spec.placeholder scope key) scope key); [|reflexivity].
  simpl. destruct (replace callback post); reflexivity.
Qed.






(** With a callback that never throws, [replace] never throws. *)
Lemma replace_from_total :
  (forall a b c, exists v, callback a b c = Ok v) ->
  forall fuel s, exists out, replace_from callback fuel s = Ok out.
Proof.
  intros Htotal. induction fuel as [|fuel IH]; intros s; simpl.
  - now exists s.
  - destruct (match_here s) as [m|].
    + destruct (Htotal (m_text m) (m_scope m) (m_key m)) as [v ->].
      destruct (IH (m_rest m)) as [out ->]. simpl. eauto.
    + destruct s as [|c s]; [eauto|].
      destruct (IH s) as [out ->]. simpl. eauto.
Qed.

End Replace.

(** *** [match_here] against the denotation of [TEMPLATE_PATTERN] *)

Import RegExpSemantics.

Lemma Matches_one_char (r : RegExp.re) (s : string) (ok : ascii -> bool) :
  (forall w, RegExp.Matches false r w -> exists c, w = String c "" /\ ok c = true) ->
  RegExp.Matches false (RegExp.Star r) s ->
  (fix all (s : string) : bool :=
     match s with
     | EmptyString => true
     | String c s' => ok c && all s'
     end) s = true.
Proof.
  intros Hone H. remember (RegExp.Star r) as sr eqn:E.
  induction H as [ | | | | | | |a s1 s2 Ha _ Hs IHs]; try discriminate E.
  - reflexivity.
  - injection E as ->.
    destruct (Hone _ Ha) as (c & -> & Hc).
    rewrite app_cons, app_nil_l. rewrite Hc. now apply IHs.
Qed.

Lemma Matches_letter (c : ascii) :
  RegExp.Matches false
    (RegExp.Alt (RegExp.Rng "a" "z") (RegExp.Rng "A" "Z")) (String c "")
  <-> is_letter c = true.
Proof.
  unfold is_letter. rewrite orb_true_iff. split.
  - intros H. inversion H as [ | | |a b s Hl|a b s Hr| | | ]; subst.
    + inversion Hl; subst. now left.
    + inversion Hr; subst. now right.
  - intros [H|H]; [apply RegExp.M_Alt_l | apply RegExp.M_Alt_r]; now constructor.
Qed.

Lemma Matches_single (r1 r2 : RegExp.re) (w : string) :
  (forall w, RegExp.Matches false r1 w -> exists c, w = String c "") ->
  (forall w, RegExp.Matches false r2 w -> exists c, w = String c "") ->
  RegExp.Matches false (RegExp.Alt r1 r2) w -> exists c, w = String c "".
Proof. intros H1 H2 H. inversion H; subst; auto. Qed.

Lemma Matches_Rng_single (lo hi : ascii) (w : string) :
  RegExp.Matches false (RegExp.Rng lo hi) w -> exists c, w = String c "".
Proof. intros H. inversion H; subst. eauto. Qed.

Lemma Matches_Chr_single (p : ascii) (w : string) :
  RegExp.Matches false (RegExp.Chr p) w -> exists c, w = String c "".
Proof. intros H. inversion H; subst. eauto. Qed.

Lemma Matches_underscore (c : ascii) :
  RegExp.Matches false (RegExp.Chr "_") (String c "") <-> Ascii.eqb c "_" = true.
Proof.
  split.
  - intros H. inversion H as [ |p c' E| | | | | | ]; subst.
    unfold RegExp.chr_matches in E. now rewrite Ascii.eqb_sym.
  - intros H. constructor. unfold RegExp.chr_matches. now rewrite Ascii.eqb_sym.
Qed.

Lemma Matches_digit (c : ascii) :
  RegExp.Matches false (RegExp.Rng "0" "9") (String c "") <-> is_digit c = true.
Proof.
  split.
  - intros H. now inversion H; subst.
  - intros H. now constructor.
Qed.

(** [[a-zA-Z_]] *)
Lemma Matches_ident_start (w : string) :
  RegExp.Matches false
    (RegExp.Alt (RegExp.Alt (RegExp.Rng "a" "z") (RegExp.Rng "A" "Z"))
       (RegExp.Chr "_")) w
  <-> exists c, w = String c "" /\ ident_start c = true.
Proof.
  unfold ident_start. split.
  - intros H.
    destruct (Matches_single _ _ w
                (fun w => Matches_single _ _ w (Matches_Rng_single _ _)
                            (Matches_Rng_single _ _))
                (Matches_Chr_single _) H) as [c ->].
    exists c. split; [reflexivity|]. rewrite orb_true_iff.
    inversion H; subst; [left; now apply Matches_letter
                        | right; now apply Matches_underscore].
  - intros (c & -> & H). apply orb_prop in H as [H|H].
    + apply RegExp.M_Alt_l. now apply Matches_letter.
    + apply RegExp.M_Alt_r. now apply Matches_underscore.
Qed.

(** [[a-zA-Z0-9_]] *)
Lemma Matches_ident_char (w : string) :
  RegExp.Matches false
    (RegExp.Alt (RegExp.Alt (RegExp.Rng "a" "z") (RegExp.Rng "A" "Z"))
       (RegExp.Alt (RegExp.Rng "0" "9") (RegExp.Chr "_"))) w
  <-> exists c, w = String c "" /\ ident_char c = true.
Proof.
  unfold ident_char. split.
  - intros H.
    destruct (Matches_single _ _ w
                (fun w => Matches_single _ _ w (Matches_Rng_single _ _)
                            (Matches_Rng_single _ _))
                (fun w => Matches_single _ _ w (Matches_Rng_single _ _)
                            (Matches_Chr_single _)) H) as [c ->].
    exists c. split; [reflexivity|]. rewrite !orb_true_iff.
    inversion H as [ | | |a b s Hl|a b s Hr| | | ]; subst.
    + left; left. now apply Matches_letter.
    + inversion Hr; subst;
        [left; right; now apply Matches_digit
        | right; now apply Matches_underscore].
  - intros (c & -> & H). rewrite !orb_true_iff in H.
    destruct H as [[H|H]|H].
    + apply RegExp.M_Alt_l. now apply Matches_letter.
    + apply RegExp.M_Alt_r, RegExp.M_Alt_l. now apply Matches_digit.
    + apply RegExp.M_Alt_r, RegExp.M_Alt_r. now apply Matches_underscore.
Qed.

Lemma Matches_ident_chars (k : string) :
  RegExp.Matches false
    (RegExp.Star
       (RegExp.Alt (RegExp.Alt (RegExp.Rng "a" "z") (RegExp.Rng "A" "Z"))
          (RegExp.Alt (RegExp.Rng "0" "9") (RegExp.Chr "_")))) k
  <-> all_ident_chars k = true.
Proof.
  split.
  - intros H.
    apply (Matches_one_char _ k ident_char) in H; [exact H|].
    intros w Hw. now apply Matches_ident_char.
  - induction k as [|c k IH]; simpl; intros H; [constructor|].
    apply andb_prop in H as [Hc Hk].
    change (String c k) with (String c "" +:+ k).
    apply RegExp.M_Star_more; [|now apply IH].
    apply Matches_ident_char. now exists c.
Qed.

(** The denotation of [TEMPLATE_PATTERN] is the set of placeholders with a
    scope among the three and an identifier as key. *)
Theorem template_pattern_denotation (w : string) :
  RegExp.Matches false TEMPLATE_PATTERN w <->
  exists scope key,
    In scope TEMPLATE_SCOPES /\ is_identifier key = true
    /\ w = Spec.placeholder scope key.
Proof.
  unfold TEMPLATE_PATTERN. cbv zeta. split.
  - intros H.
    inversion H as [ | | | | |r1 r2 w1 w2 Hopen H2| | ]; subst; clear H.
    inversion H2 as [ | | | | |r1 r2 ws w3 Hscope H3| | ]; subst; clear H2.
    inversion H3 as [ | | | | |r1 r2 wd w4 Hdot H4| | ]; subst; clear H3.
    inversion H4 as [ | | | | |r1 r2 wk wc Hkey Hclose| | ]; subst; clear H4.
    inversion Hkey as [ | | | | |r1 r2 k0 k1 Hstart Hmore| | ]; subst; clear Hkey.
    apply (Matches_lit_inv "{{") in Hopen.
    apply (Matches_lit_inv "}}") in Hclose. subst w1 wc.
    inversion Hdot as [ |p c E| | | | | | ]; subst; clear Hdot.
    apply Ascii.eqb_eq in E as <-.
    apply Matches_ident_start in Hstart as (c & -> & Hc).
    apply Matches_ident_chars in Hmore.
    exists ws, (String c k1). split; [|split].
    + inversion Hscope as [ | | |a b s Hl|a b s Hr| | | ]; subst.
      * apply (Matches_lit_inv "env") in Hl as ->. simpl; auto.
      * inversion Hr as [ | | |a b s Hl'|a b s Hr'| | | ]; subst.
        -- apply (Matches_lit_inv "params") in Hl' as ->. simpl; auto.
        -- apply (Matches_lit_inv "response") in Hr' as ->. simpl; auto.
    + simpl. now rewrite Hc, Hmore.
    + unfold Spec.placeholder. rewrite !app_assoc. reflexivity.
  - intros (scope & key & Hscope & Hkey & ->).
    destruct key as [|c k]; [discriminate Hkey|].
    simpl in Hkey. apply andb_prop in Hkey as [Hc Hk].
    unfold Spec.placeholder.
    apply RegExp.M_Seq; [apply Matches_lit|].
    apply RegExp.M_Seq.
    { simpl in Hscope. destruct Hscope as [<-|[<-|[<-|[]]]].
      - apply RegExp.M_Alt_l, Matches_lit.
      - apply RegExp.M_Alt_r, RegExp.M_Alt_l, Matches_lit.
      - apply RegExp.M_Alt_r, RegExp.M_Alt_r, Matches_lit. }
    change ("." +:+ String c k +:+ "}}")
      with (String "." "" +:+ (String c "" +:+ k) +:+ "}}").
    apply RegExp.M_Seq; [constructor; apply Ascii.eqb_refl|].
    apply RegExp.M_Seq; [|apply Matches_lit].
    apply RegExp.M_Seq.
    + apply Matches_ident_start. now exists c.
    + now apply Matches_ident_chars.
Qed.

(** [match_here] returns a match of the pattern at the start of the
    string, and its groups. *)
Theorem match_here_matches (s : string) (m : Match) :
  match_here s = Some m ->
  s = m_text m +:+ m_rest m
  /\ RegExp.Matches false TEMPLATE_PATTERN (m_text m).
Proof.
  intros H. apply match_here_inv in H as (E & Hscope & Hkey).
  split; [exact E|].
  apply template_pattern_denotation. now exists (m_scope m), (m_key m).
Qed.

(** Whenever the string starts with a match of the pattern, [match_here]
    returns that very match: there is no other way to match at that
    position, so the order in which a backtracking matcher tries the
    alternatives does not matter. *)
Theorem match_unique (s w rest : string) :
  s = w +:+ rest ->
  RegExp.Matches false TEMPLATE_PATTERN w ->
  exists m, match_here s = Some m /\ m_text m = w /\ m_rest m = rest.
Proof.
  intros -> H.
  apply template_pattern_denotation in H as (scope & key & Hscope & Hkey & ->).
  exists {| m_scope := scope; m_key := key; m_rest := rest |}.
  split; [now apply match_here_placeholder|]. now split.
Qed.

End TemplateFacts.

(** ** template-engine.ts: [interpolateString] *)

Module TemplateProperties.
Import Js TemplateEngine StringFacts TemplateFacts.

Section WithNumbers.
Context {N : JsNumber}.

Lemma get_absent (r : JsRecord) (key : string) :
  assoc r key = None -> get r key = JUndefined.
Proof. unfold get. now intros ->. Qed.

(** A name that is not inherited finds nothing on [Object.prototype]. *)
Lemma Object_prototype_member_absent (proto : Member) (key : string) :
  Spec.inherited key = false ->
  Object_prototype_member proto key = Data JUndefined.
Proof.
  unfold Spec.inherited, Object_prototype_names, Object_prototype_member,
    array_includes.
  cbn [existsb]. intros H.
  apply orb_false_elim in H as [H1 H]. apply orb_false_elim in H as [H2 H3].
  now rewrite H1, H2, H3.
Qed.

(** An inherited name finds a function or the prototype, which is neither
    [undefined] nor falsy and prints without error. *)
Lemma Object_prototype_member_inherited (key : string) :
  Spec.inherited key = true ->
  member_undefined (Object_prototype_member ObjectPrototype key) = false
  /\ member_truthy (Object_prototype_member ObjectPrototype key) = true
  /\ exists text,
       String_member (Object_prototype_member ObjectPrototype key) = Ok text.
Proof.
  unfold Spec.inherited, Object_prototype_names, Object_prototype_member,
    array_includes.
  cbn [existsb]. intros H.
  destruct (String.eqb key "__proto__"); [cbn; eauto|].
  destruct (String.eqb key "constructor"); [cbn; eauto|].
  cbn [orb] in H. rewrite H. cbn. eauto.
Qed.



Lemma env_member_own (env : gmap string string) (key s : string) :
  env !! key = Some s -> env_member env key = Data (JStr s).
Proof. intros H. unfold env_member. now rewrite H. Qed.






(** Under a name that no prototype defines, a read gives the own property
    or [undefined]. *)
Lemma prop_lookup (v : JsValue) (o : JsObject) (key : string) :
  as_object v = Some o ->
  Array_prototype_member key = Data JUndefined ->
  lookup o key = Data (prop v key).
Proof.
  intros Ho Hk.
  assert (Hobject : Object_prototype_member ObjectPrototype key = Data JUndefined).
  { revert Hk. unfold Array_prototype_member, Object_prototype_member.
    destruct (String.eqb key "constructor"); [discriminate|].
    destruct (array_includes Array_prototype_functions key); [discriminate|].
    destruct (String.eqb key "__proto__"); [discriminate|].
    now destruct (array_includes Object_prototype_functions key). }
  destruct v; try discriminate Ho; injection Ho as <-;
    unfold prop, get; cbn [lookup own_properties].
  - destruct (assoc _ key); [reflexivity | exact Hk].
  - destruct (assoc _ key); [reflexivity | exact Hobject].
Qed.

(** No prototype defines one of the names read in a definition. *)
Lemma definition_names_own :
  Forall (fun key => Array_prototype_member key = Data JUndefined)
    ["name"; "description"; "request"; "method"; "url"; "allowed_hosts";
     "parameters"; "type"].
Proof. repeat constructor. Qed.

Lemma in_scopes_env : In "env" TEMPLATE_SCOPES.
Proof. simpl; auto. Qed.


Lemma in_scopes_response : In "response" TEMPLATE_SCOPES.
Proof. simpl; auto. Qed.

(** [interpolateString] around one placeholder of a recognised scope. *)
Lemma interpolate_placeholder (ctx : TemplateContext) (strictEnv : option bool)
    (pre scope key post : string) :
  In scope TEMPLATE_SCOPES -> is_identifier key = true ->
  interpolateString (pre +:+ Spec.placeholder scope key +:+ post) ctx strictEnv =
  let* a := interpolateString pre ctx strictEnv in
  let* v := replacer ctx (default true strictEnv)
              (Spec.placeholder scope key) scope key in
  let* b := interpolateString post ctx strictEnv in
  Ok (a +:+ v +:+ b).
Proof. intros Hs Hk. unfold interpolateString. now apply replace_placeholder. Qed.

(** The callback, scope by scope. *)
Lemma replacer_env (ctx : TemplateContext) (strict : bool) (m key : string) :
  replacer ctx strict m "env" key
  = if member_undefined (env_member (env ctx) key) && strict
    then Throw ("Missing required environment variable: " +:+ key)
    else if member_undefined (env_member (env ctx) key) then Ok ""
         else String_member (env_member (env ctx) key).
Proof. reflexivity. Qed.


Lemma replacer_response (ctx : TemplateContext) (strict : bool) (m key : string) :
  replacer ctx strict m "response" key
  = match response ctx with
    | None => Ok ""
    | Some r => Rendering.shown (lookup r key)
    end.
Proof. reflexivity. Qed.

(** An own value of the env scope is substituted as it is, in both
    modes. *)
Lemma replacer_env_own (ctx : TemplateContext) (strict : bool) (m key s : string) :
  env ctx !! key = Some s -> replacer ctx strict m "env" key = Ok s.
Proof.
  intros H. rewrite replacer_env, (env_member_own _ _ _ H). reflexivity.
Qed.




End WithNumbers.

Import Reference Scenarios.





End TemplateProperties.

(** ** Regular expressions *)

Module RegExpFacts.
Import Js StringFacts.

(** A match that starts at a later position is found. *)
Lemma matches_somewhere_app (p : RegExp.t) (a b : string) :
  RegExp.matches_here p b = true ->
  RegExp.matches_somewhere p (a +:+ b) = true.
Proof.
  intros H. induction a as [|c a IH].
  - rewrite app_nil_l. destruct b; simpl; now rewrite H.
  - rewrite app_cons. simpl. rewrite IH. apply orb_true_r.
Qed.

Lemma matches_prefix_nullable (ic : bool) (r : RegExp.re) (s : string) :
  RegExp.nullable r = true -> RegExp.matches_prefix ic r s = true.
Proof. intros H. destruct s; simpl; now rewrite H. Qed.

(** A string that starts with a full match has a matching prefix. *)
Lemma matches_prefix_app (ic : bool) (r : RegExp.re) (p rest : string) :
  RegExp.matches_all ic r p = true ->
  RegExp.matches_prefix ic r (p +:+ rest) = true.
Proof.
  revert r; induction p as [|c p IH]; intros r H.
  - rewrite app_nil_l. now apply matches_prefix_nullable.
  - rewrite app_cons. simpl in *. rewrite (IH _ H). apply orb_true_r.
Qed.

Lemma test_prefix (p : RegExp.t) (pre rest : string) :
  RegExp.anchor_start p = true -> RegExp.anchor_end p = false ->
  RegExp.matches_all (RegExp.ignoreCase p) (RegExp.body p) pre = true ->
  RegExp.test p (pre +:+ rest) = true.
Proof.
  intros Hs He H. unfold RegExp.test, RegExp.matches_here. rewrite Hs, He.
  now apply matches_prefix_app.
Qed.

Lemma test_suffix (p : RegExp.t) (labels suffix : string) :
  RegExp.anchor_start p = false ->
  RegExp.matches_here p suffix = true ->
  RegExp.test p (labels +:+ suffix) = true.
Proof.
  intros Hs H. unfold RegExp.test. rewrite Hs.
  now apply matches_somewhere_app.
Qed.

End RegExpFacts.

(** ** executor.ts: host checks *)

Module HostFacts.
Import Js Executor StringFacts RegExpFacts.

Lemma blocked_by_pattern (i : nat) (p : RegExp.t) (h : string) :
  nth_error PRIVATE_IP_PATTERNS i = Some p ->
  RegExp.test p h = true ->
  isPrivateHost h = true.
Proof.
  intros Hnth Htest. unfold isPrivateHost.
  destruct (array_includes BLOCKED_HOSTS h); [reflexivity|].
  apply existsb_exists. exists p. split; [|exact Htest].
  eapply nth_error_In. exact Hnth.
Qed.

(** Every host name the specification lists is blocked. *)
Lemma listed_private_host_blocked (h : string) :
  Spec.listed_private_host h -> isPrivateHost h = true.
Proof.
  intros [ |rest|rest|n rest Hn|rest|rest|labels|labels| ].
  - reflexivity.
  - apply (blocked_by_pattern 1 _ _ eq_refl). now apply test_prefix.
  - apply (blocked_by_pattern 2 _ _ eq_refl). now apply test_prefix.
  - apply (blocked_by_pattern 3 _ _ eq_refl).
    rewrite <- (app_assoc (Spec.numeral n) "." rest).
    rewrite <- (app_assoc "172." _ rest).
    apply test_prefix; [reflexivity | reflexivity |].
    do 16 (destruct n as [|n]; [lia|]).
    do 16 (destruct n as [|n]; [vm_compute; reflexivity|]).
    lia.
  - apply (blocked_by_pattern 4 _ _ eq_refl). now apply test_prefix.
  - apply (blocked_by_pattern 5 _ _ eq_refl). now apply test_prefix.
  - apply (blocked_by_pattern 6 _ _ eq_refl). now apply test_suffix.
  - apply (blocked_by_pattern 7 _ _ eq_refl). now apply test_suffix.
  - reflexivity.
Qed.

(** One allow-list entry. *)
Lemma isAllowedHost_exists (h : string) (allowed : list string) :
  isAllowedHost h allowed = true <->
  exists entry, In entry allowed /\ isAllowedHost h [entry] = true.
Proof.
  unfold isAllowedHost. rewrite existsb_exists. split.
  - intros (e & Hin & He). exists e. split; [exact Hin|].
    cbn [existsb]. rewrite orb_false_r. exact He.
  - intros (e & Hin & He). exists e. split; [exact Hin|].
    cbn [existsb] in He. rewrite orb_false_r in He. exact He.
Qed.

Lemma wildcard_entry_matches (h d : string) :
  isAllowedHost h ["*." +:+ d] = true <-> h = d \/ Spec.subdomain_of h d.
Proof.
  unfold isAllowedHost. cbn [existsb]. rewrite orb_false_r.
  change (startsWith ("*." +:+ d) "*.") with true. cbv iota.
  change (slice ("*." +:+ d) 1) with ("." +:+ d).
  change (slice ("*." +:+ d) 2) with d.
  rewrite orb_true_iff, endsWith_spec, String.eqb_eq.
  unfold Spec.subdomain_of. tauto.
Qed.

Lemma exact_entry_matches (h entry : string) :
  startsWith entry "*." = false ->
  (isAllowedHost h [entry] = true <-> h = entry).
Proof.
  intros Hplain. unfold isAllowedHost. cbn [existsb].
  rewrite Hplain, orb_false_r. apply String.eqb_eq.
Qed.

End HostFacts.

(** ** executor.ts: the pipeline *)

Module ExecutorFacts.
Import Js Types Executor StringFacts HostFacts.

Section WithNumbers.
Context {N : JsNumber}.

Lemma checkRequiredEnvVars_missing (rt : Runtime) (requires : list string)
    (env : option (gmap string string)) (key : string) :
  In key requires -> env_falsy (merged_env rt env) key = true ->
  checkRequiredEnvVars rt (Some requires) env =
  Throw ("Missing required environment variables: "
         +:+ join ", " (Spec.missing_names rt requires env)).
Proof.
  intros Hin Hfalsy.
  assert (Hmiss : In key (Spec.missing_names rt requires env)).
  { apply filter_In. now split. }
  unfold checkRequiredEnvVars.
  destruct requires as [|r rs]; [destruct Hin|].
  fold (Spec.missing_names rt (r :: rs) env).
  destruct (Spec.missing_names rt (r :: rs) env) as [|m ms]; [destruct Hmiss|].
  reflexivity.
Qed.

(** Failing the environment check ends the invocation before any call to
    [fetch]. *)
Lemma env_failure (rt : Runtime) (params : ApiToolExecuteParams) (msg : string) :
  checkRequiredEnvVars rt (requires_env (definition params)) (extraEnv params)
  = Throw msg ->
  executeApiTool rt params = ([], failure msg).
Proof.
  intros H. unfold executeApiTool, run, ebind, pure. now rewrite H.
Qed.

(** Failing the URL validation ends the invocation before any call to
    [fetch]. *)
Lemma url_failure (rt : Runtime) (params : ApiToolExecuteParams) (u msg : string) :
  checkRequiredEnvVars rt (requires_env (definition params)) (extraEnv params)
  = Ok tt ->
  TemplateEngine.interpolateString (url (request (definition params)))
    (call_context rt params) None = Ok u ->
  validateUrl rt u (allowed_hosts (definition params)) = Throw msg ->
  executeApiTool rt params = ([], failure msg).
Proof.
  intros Henv Hurl Hval. unfold executeApiTool, run, ebind, pure.
  now rewrite Henv, Hurl, Hval.
Qed.

Lemma validateUrl_private (rt : Runtime) (u h : string) (allowed : list string) :
  URL_hostname rt u = Some h -> isPrivateHost h = true ->
  validateUrl rt u allowed =
  Throw ("Blocked: requests to private/internal hosts not allowed ("
         +:+ h +:+ ")").
Proof. intros Hh Hp. unfold validateUrl. rewrite Hh. simpl. now rewrite Hp. Qed.

Lemma validateUrl_unlisted (rt : Runtime) (u h : string) (allowed : list string) :
  URL_hostname rt u = Some h -> isPrivateHost h = false ->
  isAllowedHost h allowed = false ->
  validateUrl rt u allowed =
  Throw ("Blocked: host '" +:+ h +:+ "' not in allowed_hosts ["
         +:+ join ", " allowed +:+ "]").
Proof.
  intros Hh Hp Ha. unfold validateUrl. rewrite Hh. simpl. now rewrite Hp, Ha.
Qed.

(** What one invocation can be: it stops before the network, or it calls
    [fetch] exactly once and then either fails (rejected request,
    unreadable body, a response template that throws) or builds its result
    from the response. *)
Inductive Outcome (rt : Runtime) (params : ApiToolExecuteParams)
  : list Request -> ExecuteResult -> Prop :=
  | stopped_before_fetch msg :
      Outcome rt params [] (failure msg)
  | fetch_rejected rq msg :
      rq_timeout rq = effective_timeout (definition params) ->
      fetch rt rq = Throw msg ->
      Outcome rt params [rq] (failure msg)
  | body_unreadable rq resp msg :
      rq_timeout rq = effective_timeout (definition params) ->
      fetch rt rq = Ok resp ->
      parse_response resp = Throw msg ->
      Outcome rt params [rq] (failure msg)
  | rendering_failed rq resp d msg :
      rq_timeout rq = effective_timeout (definition params) ->
      fetch rt rq = Ok resp ->
      parse_response resp = Ok d ->
      Outcome rt params [rq] (failure msg)
  | exchange_completed rq resp d result :
      rq_timeout rq = effective_timeout (definition params) ->
      fetch rt rq = Ok resp ->
      parse_response resp = Ok d ->
      success result = rs_ok resp ->
      status result = Some (rs_status resp) ->
      data result = Some d ->
      Outcome rt params [rq] result.

Lemma executeApiTool_outcome (rt : Runtime) (params : ApiToolExecuteParams) :
  Outcome rt params (executeApiTool rt params).1 (executeApiTool rt params).2.
Proof.
  unfold executeApiTool, run, ebind, pure, call_fetch, eret.
  destruct (checkRequiredEnvVars _ _ _); [|apply stopped_before_fetch].
  destruct (TemplateEngine.interpolateString (url _) _ None) as [u|];
    [|apply stopped_before_fetch].
  destruct (validateUrl _ _ _); [|apply stopped_before_fetch].
  destruct (match headers _ with Some hs => _ | None => _ end) as [hs|];
    [|apply stopped_before_fetch].
  destruct (build_body _ _ _ _) as [[b hs']|]; [|apply stopped_before_fetch].
  cbn [app fst snd].
  set (rq := {| rq_url := u; rq_method := _; rq_headers := hs';
                rq_body := b; rq_timeout := _ |}).
  destruct (fetch rt rq) as [resp|msg] eqn:Hfetch;
    [|cbn [fst snd]; apply fetch_rejected; [reflexivity | exact Hfetch]].
  destruct (parse_response resp) as [d|msg] eqn:Hparse;
    [|cbn [fst snd];
      apply (body_unreadable _ _ rq resp); [reflexivity | exact Hfetch | exact Hparse]].
  destruct (declared_template (Types.response (definition params) ≫= Types.summary))
    as [ts|];
  destruct (declared_template (Types.response (definition params) ≫= error_template))
    as [te|];
  destruct (rs_ok resp) eqn:Hok; cbn [negb];
  repeat match goal with
  | |- context [TemplateEngine.interpolateString ?t ?c (Some false)] =>
      destruct (TemplateEngine.interpolateString t c (Some false))
  end;
  cbn [fst snd success status data];
  first
    [ apply (exchange_completed _ _ rq resp d);
      solve [reflexivity | exact Hfetch | exact Hparse | symmetry; exact Hok]
    | apply (rendering_failed _ _ rq resp d);
      solve [reflexivity | exact Hfetch | exact Hparse] ].
Qed.

Lemma validateUrl_ok (rt : Runtime) (u : string) (allowed : list string) :
  validateUrl rt u allowed = Ok tt ->
  exists h, URL_hostname rt u = Some h
            /\ isPrivateHost h = false /\ isAllowedHost h allowed = true.
Proof.
  unfold validateUrl.
  destruct (URL_hostname rt u) as [h|]; cbn [rbind]; [|discriminate].
  destruct (isPrivateHost h) eqn:Hprivate; [discriminate|].
  destruct (isAllowedHost h allowed) eqn:Hallowed; cbn [negb]; [|discriminate].
  intros _. now exists h.
Qed.

(** After a successful check no required name is falsy. *)
Lemma checkRequiredEnvVars_ok (rt : Runtime) (requires : list string)
    (env : option (gmap string string)) (key : string) :
  checkRequiredEnvVars rt (Some requires) env = Ok tt ->
  In key requires ->
  env_falsy (merged_env rt env) key = false.
Proof.
  unfold checkRequiredEnvVars. intros H Hin.
  destruct requires as [|r rs]; [destruct Hin|].
  destruct (List.filter _ (r :: rs)) as [|m ms] eqn:Hfilter; [|discriminate H].
  destruct (env_falsy (merged_env rt env) key) eqn:E; [|reflexivity].
  assert (Hm : In key (List.filter (fun key => env_falsy (merged_env rt env) key)
                         (r :: rs))) by (apply filter_In; now split).
  rewrite Hfilter in Hm. destruct Hm.
Qed.

(** Everything that has happened when [fetch] is called. *)
Lemma request_history (rt : Runtime) (params : ApiToolExecuteParams) (rq : Request) :
  In rq (executeApiTool rt params).1 ->
  (executeApiTool rt params).1 = [rq]
  /\ checkRequiredEnvVars rt (requires_env (definition params)) (extraEnv params)
     = Ok tt
  /\ TemplateEngine.interpolateString (url (request (definition params)))
       (call_context rt params) None = Ok (rq_url rq)
  /\ validateUrl rt (rq_url rq) (allowed_hosts (definition params)) = Ok tt
  /\ rq_method rq = method (request (definition params))
  /\ rq_timeout rq = effective_timeout (definition params)
  /\ exists hs,
       match headers (request (definition params)) with
       | Some declared => interpolate_headers (call_context rt params) declared []
       | None => Ok []
       end = Ok hs
       /\ build_body rt (call_context rt params)
            (body (request (definition params))) hs
          = Ok (rq_body rq, rq_headers rq).
Proof.
  unfold executeApiTool, run, ebind, pure, call_fetch, eret.
  destruct (checkRequiredEnvVars _ _ _) as [[]|]; [|intros []].
  destruct (TemplateEngine.interpolateString (url _) _ None) as [u|];
    [|intros []].
  destruct (validateUrl _ _ _) as [[]|] eqn:Hval; [|intros []].
  destruct (match headers _ with Some hs => _ | None => _ end) as [hs|] eqn:Hhs;
    [|intros []].
  destruct (build_body _ _ _ _) as [[b hs']|] eqn:Hbody; [|intros []].
  cbn [app fst snd].
  set (rq0 := {| rq_url := u; rq_method := _; rq_headers := hs';
                 rq_body := b; rq_timeout := _ |}).
  assert (Hfacts : forall log : list Request, In rq log -> log = [rq0] ->
            log = [rq] /\ Ok tt = Ok tt /\ Ok u = Ok (rq_url rq)
            /\ validateUrl rt (rq_url rq) (allowed_hosts (definition params)) = Ok tt
            /\ rq_method rq = method (request (definition params))
            /\ rq_timeout rq = effective_timeout (definition params)
            /\ exists hs0, Ok hs = Ok hs0
                 /\ build_body rt (call_context rt params)
                      (body (request (definition params))) hs0
                    = Ok (rq_body rq, rq_headers rq)).
  { intros log Hin ->. destruct Hin as [<-|[]].
    repeat split; try reflexivity; try exact Hval. exists hs. now split. }
  destruct (fetch rt rq0) as [resp|msg]; [|intros H; now apply (Hfacts [rq0])].
  destruct (parse_response resp) as [d|msg]; [|intros H; now apply (Hfacts [rq0])].
  destruct (declared_template (Types.response (definition params) ≫= Types.summary))
    as [ts|];
  destruct (declared_template (Types.response (definition params) ≫= error_template))
    as [te|];
  destruct (rs_ok resp); cbn [negb];
  repeat match goal with
  | |- context [TemplateEngine.interpolateString ?t ?c (Some false)] =>
      destruct (TemplateEngine.interpolateString t c (Some false))
  end;
  cbn [fst snd]; intros H; now apply (Hfacts [rq0]).
Qed.

(** After an answered request with a readable body, the result is the one
    described by [finish]. *)
Lemma completed_exchange (rt : Runtime) (params : ApiToolExecuteParams)
    (rq : Request) (resp : Response) (d : JsValue) :
  (executeApiTool rt params).1 = [rq] ->
  fetch rt rq = Ok resp ->
  parse_response resp = Ok d ->
  (executeApiTool rt params).2 = Rendering.finish rt params resp d.
Proof.
  intros Hlog Hfetch Hparse.
  assert (Hin : In rq (executeApiTool rt params).1) by (rewrite Hlog; now left).
  destruct (request_history rt params rq Hin)
    as (_ & Henv & Hurl & Hval & Hmethod & Htimeout & hs & Hhs & Hbody).
  clear Hlog Hin.
  unfold executeApiTool, run, ebind, pure, call_fetch, eret.
  rewrite Henv, Hurl, Hval, Hhs, Hbody. cbn [app fst snd].
  rewrite <- Hmethod, <- Htimeout.
  replace {| rq_url := rq_url rq; rq_method := rq_method rq;
             rq_headers := rq_headers rq; rq_body := rq_body rq;
             rq_timeout := rq_timeout rq |} with rq by now destruct rq.
  rewrite Hfetch, Hparse.
  unfold Rendering.finish, Rendering.rendered, Rendering.completed,
    Rendering.response_context, Rendering.summary_scope, Rendering.error_scope,
    call_context.
  cbn [TemplateEngine.env TemplateEngine.params].
  destruct (declared_template (Types.response (definition params) ≫= Types.summary))
    as [ts|];
  destruct (declared_template (Types.response (definition params) ≫= error_template))
    as [te|];
  destruct (rs_ok resp); cbn [negb];
  repeat match goal with
  | |- context [TemplateEngine.interpolateString ?t ?c (Some false)] =>
      let r := fresh "r" in
      let E := fresh "E" in
      destruct (TemplateEngine.interpolateString t c (Some false)) as [r|r] eqn:E;
      repeat match goal with
      | |- context [TemplateEngine.interpolateString ?t' ?c' (Some false)] =>
          let H := fresh "H" in
          first
            [ assert (H : TemplateEngine.interpolateString t' c' (Some false) = Ok r)
                by exact E
            | assert (H : TemplateEngine.interpolateString t' c' (Some false)
                          = Throw r) by exact E ];
          rewrite H; clear H
      end
  end;
  reflexivity.
Qed.

(** Every result is a failure built in the [catch] block or the result of
    a completed exchange. *)
Lemma result_cases (rt : Runtime) (params : ApiToolExecuteParams) :
  (exists msg, (executeApiTool rt params).2 = failure msg)
  \/ (exists resp d summary_text error_text,
        (executeApiTool rt params).2
        = Rendering.completed resp d summary_text error_text
        /\ (rs_ok resp = true -> error_text = None)
        /\ (rs_ok resp = false -> summary_text = None)).
Proof.
  pose proof (executeApiTool_outcome rt params) as H.
  remember (executeApiTool rt params).1 as log eqn:Hlog.
  remember (executeApiTool rt params).2 as r eqn:Hr.
  destruct H as [msg | rq msg _ _ | rq resp msg _ _ _ | rq resp d msg _ _ _
                 | rq resp d result _ Hf Hp _ _ _];
    [left; eauto | left; eauto | left; eauto | left; eauto |].
  rewrite Hr, (completed_exchange rt params rq resp d (eq_sym Hlog) Hf Hp).
  unfold Rendering.finish, Rendering.rendered.
  destruct (declared_template (Types.response (definition params) ≫= Types.summary))
    as [ts|];
  destruct (declared_template (Types.response (definition params) ≫= error_template))
    as [te|];
  destruct (rs_ok resp) eqn:Hok; cbn [negb];
  repeat match goal with
  | |- context [TemplateEngine.interpolateString ?t ?c (Some false)] =>
      destruct (TemplateEngine.interpolateString t c (Some false))
  end;
  cbn [rbind];
  first
    [ left; eexists; reflexivity
    | right; do 4 eexists; split; [reflexivity|];
      split; intros; congruence ].
Qed.

End WithNumbers.
End ExecutorFacts.

(** ** executor.ts: [executeApiTool] *)

Module ExecutorProperties.
Import Js Types Executor StringFacts HostFacts ExecutorFacts.

Section WithNumbers.
Context {N : JsNumber}.

Lemma private_host_failure (rt : Runtime) (params : ApiToolExecuteParams) (h : string) :
  Spec.request_host rt params h -> isPrivateHost h = true ->
  executeApiTool rt params =
  ([], failure ("Blocked: requests to private/internal hosts not allowed ("
                +:+ h +:+ ")")).
Proof.
  intros (Henv & u & Hurl & Hhost) Hprivate.
  apply (url_failure rt params u _ Henv Hurl).
  now apply validateUrl_private.
Qed.

(** C1.  When the resolved request URL has a host name of the listed
    private, internal, loopback or link-local families, or the cloud
    metadata address, the invocation returns a failed result whose message
    says that a private/internal host was blocked, and [fetch] is not
    called.  Nothing is assumed about [allowed_hosts]: the host may be on
    the list. *)
Theorem private_host_always_blocked (rt : Runtime)
    (params : ApiToolExecuteParams) (h : string) :
  Spec.request_host rt params h ->
  Spec.listed_private_host h ->
  let msg := "Blocked: requests to private/internal hosts not allowed ("
             +:+ h +:+ ")" in
  executeApiTool rt params = ([], failure msg)
  /\ success (failure msg) = false
  /\ includes msg "private/internal" = true.
Proof.
  intros Hreq Hlisted msg. split; [|split].
  - apply private_host_failure; [exact Hreq|].
    now apply listed_private_host_blocked.
  - reflexivity.
  - unfold msg.
    change ("Blocked: requests to private/internal hosts not allowed ("
            +:+ h +:+ ")")
      with ("Blocked: requests to " +:+ "private/internal"
            +:+ (" hosts not allowed (" +:+ h +:+ ")")).
    apply includes_app.
Qed.

(** C2, as amended.  A wildcard entry [*.D] matches the host [D] and the
    subdomains of [D] and nothing else; any other entry matches only the
    identical host name; a list matches when one of its entries does.  When
    the resolved URL's host name is not a blocked private/internal host and
    matches no entry, the invocation fails with the message naming the host
    as not in [allowed_hosts], and [fetch] is not called. *)
Theorem allow_list_enforced :
  (forall h d, isAllowedHost h ["*." +:+ d] = true
               <-> h = d \/ Spec.subdomain_of h d)
  /\ (forall h entry, startsWith entry "*." = false ->
        (isAllowedHost h [entry] = true <-> h = entry))
  /\ (forall h allowed, isAllowedHost h allowed = true
        <-> exists entry, In entry allowed /\ isAllowedHost h [entry] = true)
  /\ isAllowedHost "example.com" ["*.example.com"] = true
  /\ isAllowedHost "api.example.com" ["*.example.com"] = true
  /\ isAllowedHost "evilexample.com" ["*.example.com"] = false
  /\ (forall (rt : Runtime) (params : ApiToolExecuteParams) (h : string),
        Spec.request_host rt params h ->
        isPrivateHost h = false ->
        isAllowedHost h (allowed_hosts (definition params)) = false ->
        executeApiTool rt params =
        ([], failure ("Blocked: host '" +:+ h +:+ "' not in allowed_hosts ["
                      +:+ join ", " (allowed_hosts (definition params)) +:+ "]"))
        /\ Spec.reports_unlisted_host (executeApiTool rt params).2).
Proof.
  split; [exact wildcard_entry_matches|].
  split; [exact exact_entry_matches|].
  split; [exact isAllowedHost_exists|].
  split; [reflexivity|]. split; [reflexivity|]. split; [reflexivity|].
  intros rt params h (Henv & u & Hurl & Hhost) Hpublic Hunlisted.
  assert (Hrun : executeApiTool rt params =
    ([], failure ("Blocked: host '" +:+ h +:+ "' not in allowed_hosts ["
                  +:+ join ", " (allowed_hosts (definition params)) +:+ "]"))).
  { apply (url_failure rt params u _ Henv Hurl).
    now apply validateUrl_unlisted. }
  split; [exact Hrun|].
  rewrite Hrun. split; [reflexivity|].
  eexists. split; [reflexivity|].
  change ("Blocked: host '" +:+ h +:+ "' not in allowed_hosts ["
          +:+ join ", " (allowed_hosts (definition params)) +:+ "]")
    with (("Blocked: host '" +:+ h) +:+ "' " +:+ "not in allowed_hosts"
          +:+ (" [" +:+ join ", " (allowed_hosts (definition params)) +:+ "]")).
  rewrite <- (app_assoc ("Blocked: host '" +:+ h) "' " _).
  apply includes_app.
Qed.


Lemma empty_is_falsy (merged : gmap string string) (key : string) :
  merged !! key = Some "" -> env_falsy merged key = true.
Proof.
  intros H. unfold env_falsy.
  now rewrite (TemplateProperties.env_member_own _ _ _ H).
Qed.

Lemma missing_env_failure (rt : Runtime) (params : ApiToolExecuteParams)
    (requires : list string) (key : string) :
  requires_env (definition params) = Some requires ->
  In key requires ->
  env_falsy (merged_env rt (extraEnv params)) key = true ->
  executeApiTool rt params =
  ([], failure ("Missing required environment variables: "
                +:+ join ", " (Spec.missing_names rt requires (extraEnv params)))).
Proof.
  intros Hreq Hin Hfalsy. apply env_failure. rewrite Hreq.
  now apply (checkRequiredEnvVars_missing rt requires _ key).
Qed.



(** C7.  The delay given to the abort timer of every request is the
    minimum of the declared [timeout_ms], or of 30000 when none is
    declared, and 60000; it never exceeds 60000, and a declaration above
    60000 gives exactly 60000. *)
Theorem timeout_clamped (rt : Runtime) (params : ApiToolExecuteParams)
    (rq : Request) :
  In rq (executeApiTool rt params).1 ->
  let declared := timeout_ms (request (definition params)) in
  rq_timeout rq = Z.min (default 30000 declared) 60000
  /\ rq_timeout rq <= 60000
  /\ (forall t, declared = Some t -> 60000 < t -> rq_timeout rq = 60000)
  /\ (declared = None -> rq_timeout rq = 30000).
Proof.
  intros Hin declared.
  assert (Heff : rq_timeout rq = effective_timeout (definition params)).
  { destruct (executeApiTool_outcome rt params)
      as [msg | rq' msg Ht _ | rq' resp' msg Ht _ _ | rq' resp' d' msg Ht _ _
          | rq' resp' d' result Ht _ _ _ _ _];
      simpl in Hin; [destruct Hin | | | | ];
      destruct Hin as [<-|[]]; exact Ht. }
  rewrite Heff. unfold effective_timeout, MAX_TIMEOUT_MS, DEFAULT_TIMEOUT_MS.
  fold declared. split; [reflexivity|]. split; [lia|]. split.
  - intros t -> Ht. simpl. lia.
  - intros ->. reflexivity.
Qed.

(** C10.  A required variable that is present with the empty string as
    value is reported missing by the environment check, so the invocation
    fails before any call to [fetch], naming the variable; yet strict
    interpolation over the same environment treats [{{env.KEY}}] as present
    and replaces it by the empty string without error. *)
Theorem empty_env_value_disagreement (rt : Runtime)
    (params : ApiToolExecuteParams) (requires : list string) (key : string) :
  requires_env (definition params) = Some requires ->
  In key requires ->
  merged_env rt (extraEnv params) !! key = Some "" ->
  (exists missing,
     let msg := "Missing required environment variables: " +:+ join ", " missing in
     executeApiTool rt params = ([], failure msg)
     /\ In key missing
     /\ includes msg key = true)
  /\ (TemplateEngine.is_identifier key = true ->
      forall pre post,
        let interp t :=
          TemplateEngine.interpolateString t (call_context rt params) None in
        interp (pre +:+ Spec.placeholder "env" key +:+ post) =
        (let* a := interp pre in let* b := interp post in Ok (a +:+ "" +:+ b)))
  /\ (TemplateEngine.is_identifier key = true ->
      TemplateEngine.interpolateString (Spec.placeholder "env" key)
        (call_context rt params) None = Ok "").
Proof.
  intros Hreq Hin Hempty.
  assert (Hpresent : forall pre post,
    TemplateEngine.is_identifier key = true ->
    TemplateEngine.interpolateString
      (pre +:+ Spec.placeholder "env" key +:+ post) (call_context rt params) None =
    (let* a := TemplateEngine.interpolateString pre (call_context rt params) None in
     let* b := TemplateEngine.interpolateString post (call_context rt params) None in
     Ok (a +:+ "" +:+ b))).
  { intros pre post Hkey.
    rewrite (TemplateProperties.interpolate_placeholder _ _ _ _ _ _
               TemplateProperties.in_scopes_env Hkey).
    rewrite (TemplateProperties.replacer_env_own (call_context rt params)
               _ _ key "" Hempty).
    reflexivity. }
  split; [|split].
  - exists (Spec.missing_names rt requires (extraEnv params)). cbv zeta.
    assert (Hmiss : In key (Spec.missing_names rt requires (extraEnv params))).
    { apply filter_In. split; [exact Hin | now apply empty_is_falsy]. }
    split; [|split; [exact Hmiss|]].
    + apply (missing_env_failure rt params requires key Hreq Hin).
      now apply empty_is_falsy.
    + destruct (join_includes ", " key _ Hmiss) as (a & b & ->).
      rewrite <- app_assoc. apply includes_app.
  - intros Hkey pre post interp. unfold interp. now apply Hpresent.
  - intros Hkey.
    pose proof (Hpresent "" "" Hkey) as H.
    rewrite app_nil_l, app_nil_r in H. exact H.
Qed.

End WithNumbers.

(** *** Worked examples *)

Import Reference Scenarios.

Lemma private_host_always_blocked_witness :
  Spec.request_host (sample_runtime ∅ 200) (call localhost_tool) "localhost"
  /\ Spec.listed_private_host "localhost"
  /\ In "localhost" (allowed_hosts localhost_tool)
  /\ executeApiTool (sample_runtime ∅ 200) (call localhost_tool)
     = ([], failure
              "Blocked: requests to private/internal hosts not allowed (localhost)").
Proof.
  assert (Hreq : Spec.request_host (sample_runtime ∅ 200) (call localhost_tool)
                   "localhost").
  { split; [reflexivity|].
    exists "http://localhost:8080/secret". split; vm_compute; reflexivity. }
  split; [exact Hreq|]. split; [constructor|]. split; [now left|].
  exact (proj1 (private_host_always_blocked _ _ _ Hreq Spec.lp_localhost)).
Defined.

(** C2 as stated does not hold: a host name that matches no allow-list
    entry is not always reported as such.  For a private host the
    invocation fails with the private-host message instead. *)
Lemma unlisted_private_host_counterexample :
  let rt := sample_runtime ∅ 200 in
  let params := call unlisted_private_tool in
  Spec.request_host rt params "localhost"
  /\ isAllowedHost "localhost" (allowed_hosts (definition params)) = false
  /\ executeApiTool rt params
     = ([], failure
              "Blocked: requests to private/internal hosts not allowed (localhost)")
  /\ ~ Spec.reports_unlisted_host (executeApiTool rt params).2.
Proof.
  intros rt params.
  split; [|split; [|split]].
  - split; [reflexivity|].
    exists "http://localhost:8080/secret". split; vm_compute; reflexivity.
  - reflexivity.
  - vm_compute. reflexivity.
  - intros (_ & msg & Hmsg & Hincl).
    vm_compute in Hmsg. injection Hmsg as <-.
    vm_compute in Hincl. discriminate Hincl.
Qed.

Lemma allow_list_enforced_witness :
  Spec.request_host (sample_runtime ∅ 200) (call evil_tool) "evil.com"
  /\ isPrivateHost "evil.com" = false
  /\ isAllowedHost "evil.com" (allowed_hosts evil_tool) = false
  /\ executeApiTool (sample_runtime ∅ 200) (call evil_tool)
     = ([], failure
              "Blocked: host 'evil.com' not in allowed_hosts [api.example.com]").
Proof.
  assert (Hreq : Spec.request_host (sample_runtime ∅ 200) (call evil_tool) "evil.com").
  { split; [reflexivity|].
    exists "https://evil.com/steal". split; vm_compute; reflexivity. }
  split; [exact Hreq|]. split; [reflexivity|]. split; [reflexivity|].
  destruct allow_list_enforced as (_ & _ & _ & _ & _ & _ & Hexec).
  exact (proj1 (Hexec _ _ _ Hreq eq_refl eq_refl)).
Defined.





Lemma timeout_clamped_witness :
  exists rq,
    In rq (executeApiTool (sample_runtime ∅ 200) (call slow_tool)).1
    /\ timeout_ms (request slow_tool) = Some 120000
    /\ rq_timeout rq = 60000.
Proof.
  eexists. split; [vm_compute; left; reflexivity|]. split; [reflexivity|].
  refine (proj1 (timeout_clamped (sample_runtime ∅ 200) (call slow_tool) _ _)).
  vm_compute. left. reflexivity.
Defined.

Lemma empty_env_value_disagreement_witness :
  let rt := sample_runtime {[ "API_KEY" := "" ]} 200 in
  requires_env keyed_tool = Some ["API_KEY"]
  /\ merged_env rt None !! "API_KEY" = Some ""
  /\ (exists missing,
        executeApiTool rt (call keyed_tool)
        = ([], failure ("Missing required environment variables: "
                        +:+ join ", " missing))
        /\ In "API_KEY" missing)
  /\ TemplateEngine.interpolateString "{{env.API_KEY}}"
       (call_context rt (call keyed_tool)) None = Ok "".
Proof.
  intros rt.
  assert (Hempty : merged_env rt None !! "API_KEY" = Some "")
    by (vm_compute; reflexivity).
  split; [reflexivity|]. split; [exact Hempty|].
  destruct (empty_env_value_disagreement rt (call keyed_tool) ["API_KEY"] "API_KEY"
              eq_refl (or_introl eq_refl) Hempty)
    as ((missing & Hrun & Hin & _) & _ & Hinterp).
  split.
  - exists missing. split; [exact Hrun | exact Hin].
  - exact (Hinterp eq_refl).
Defined.

End ExecutorProperties.

(** ** schema-builder.ts *)

Module SchemaProperties.
Import Js Types SchemaBuilder.

Section WithNumbers.
Context {N : JsNumber}.

Lemma assoc_app_fresh {A} (props : list (string * A)) (key : string) (v : A) :
  ~ In key (map fst props) ->
  assoc (props ++ [(key, v)])%list key = Some v /\ assign props key v = (props ++ [(key, v)])%list.
Proof.
  induction props as [|[k w] props IH]; intros Hfresh; simpl.
  - now rewrite String.eqb_refl.
  - simpl in Hfresh.
    destruct (String.eqb_spec k key) as [->|Hne]; [tauto|].
    destruct IH as [IH1 IH2]; [tauto|].
    split; [exact IH1 | now rewrite IH2].
Qed.


(** Under any other name than [__proto__] an assignment defines the
    property. *)
Lemma set_assign {A} (props : list (string * A)) (key : string) (v : A) :
  key <> "__proto__" -> set props key v = assign props key v.
Proof.
  intros H. unfold set.
  destruct (String.eqb_spec key "__proto__"); [contradiction | reflexivity].
Qed.









End WithNumbers.

Import Reference.



End SchemaProperties.

(** ** yaml-loader.ts *)

Module LoaderProperties.
Import Js YamlLoader StringFacts.

Section WithNumbers.
Context {N : JsNumber}.

Lemma not_an_object_structure (v : JsValue) :
  not_an_object v = negb (Spec.is_structure v).
Proof.
  destruct v; try reflexivity.
  - destruct b; reflexivity.
  - unfold not_an_object. simpl. apply orb_true_r.
  - unfold not_an_object. simpl. apply orb_true_r.
Qed.

Lemma array_includes_decide (xs : list string) (x : string) :
  array_includes xs x = bool_decide (x ∈ xs).
Proof.
  unfold array_includes. induction xs as [|y xs IH]; [reflexivity|].
  cbn [existsb]. rewrite IH.
  destruct (String.eqb_spec x y) as [->|Hne].
  - symmetry. apply bool_decide_eq_true. rewrite elem_of_cons. now left.
  - cbn [orb]. apply bool_decide_ext. rewrite elem_of_cons. tauto.
Qed.

Lemma about_includes (filename warning : string) :
  Spec.about filename warning -> includes warning filename = true.
Proof. intros [rest ->]. apply includes_app. Qed.

Ltac reduce_checks :=
  cbn [typeof JsType_eqb negb orb andb as_string default from_option id
       isArray array_length length Nat.eqb is_undefined Spec.is_structure].

Ltac rejected := split; [reflexivity | eexists; reflexivity].

Lemma check_parameters_spec (filename : string) (entries : JsRecord) :
  match check_parameters filename entries with
  | None => forallb (fun kv => Spec.well_typed_parameter kv.2) entries = true
  | Some w =>
      forallb (fun kv => Spec.well_typed_parameter kv.2) entries = false
      /\ Spec.about filename w
  end.
Proof.
  induction entries as [|[key param] entries IH]; [reflexivity|].
  cbn [check_parameters forallb snd]. unfold Spec.well_typed_parameter at 1 3.
  rewrite not_an_object_structure.
  destruct (Spec.is_structure param); cbn [negb andb].
  - unfold includes_value.
    destruct (prop param "type") as [| |b|n|t|xs|props]; cbn [negb];
      try (split; [reflexivity | eexists; reflexivity]).
    rewrite array_includes_decide.
    destruct (bool_decide _); cbn [negb andb].
    + exact IH.
    + split; [reflexivity | eexists; reflexivity].
  - split; [reflexivity | eexists; reflexivity].
Qed.

(** [validateDefinition] accepts exactly the trees that satisfy every
    structural rule, returns an accepted tree unchanged, and otherwise
    produces one warning about the file. *)
Lemma validateDefinition_spec (def : JsValue) (filename : string) :
  match validateDefinition def filename with
  | inr d => d = def /\ Spec.passes_validation def = true
  | inl w => Spec.passes_validation def = false /\ Spec.about filename w
  end.
Proof.
  unfold validateDefinition, Spec.passes_validation.
  rewrite not_an_object_structure.
  destruct (Spec.is_structure def); reduce_checks; [|rejected].
  (* name *)
  unfold Spec.valid_name.
  destruct (prop def "name") as [| |b|n|nm|xs|props];
    reduce_checks; try rejected.
  destruct (RegExp.test TOOL_NAME_PATTERN nm); reduce_checks; [|rejected].
  (* description *)
  unfold Spec.has_description.
  destruct (prop def "description") as [| |b|n|ds|xs|props];
    reduce_checks; try rejected.
  (* request *)
  unfold Spec.has_request. rewrite not_an_object_structure.
  destruct (Spec.is_structure (prop def "request")); reduce_checks; [|rejected].
  (* request.method *)
  unfold Spec.valid_method, includes_value.
  destruct (prop (prop def "request") "method") as [| |b|n|m|xs|props];
    reduce_checks; try rejected.
  rewrite array_includes_decide.
  destruct (bool_decide _); reduce_checks; [|rejected].
  (* request.url *)
  unfold Spec.has_url.
  destruct (prop (prop def "request") "url") as [| |b|n|u|xs|props];
    reduce_checks; try rejected.
  (* allowed_hosts *)
  unfold Spec.nonempty_allowed_hosts.
  destruct (prop def "allowed_hosts") as [| |b|n|t|[|x xs]|props];
    reduce_checks; try rejected.
  (* parameters *)
  unfold Spec.well_typed_parameters.
  destruct (prop def "parameters") as [| |b|n|t|ps|ps] eqn:Hps;
    reduce_checks; try rejected; try (split; reflexivity).
  - pose proof (check_parameters_spec filename (entries (JArr ps))) as H.
    destruct (check_parameters filename (entries (JArr ps))) as [w|].
    + destruct H as [-> Hw]. now split.
    + rewrite H. now split.
  - pose proof (check_parameters_spec filename (entries (JObj ps))) as H.
    destruct (check_parameters filename (entries (JObj ps))) as [w|].
    + destruct H as [-> Hw]. now split.
    + rewrite H. now split.
Qed.

Lemma validateDefinition_accepts (def : JsValue) (filename : string) :
  validateDefinition def filename = inr def <-> Spec.passes_validation def = true.
Proof.
  pose proof (validateDefinition_spec def filename) as H.
  destruct (validateDefinition def filename) as [w|d].
  - destruct H as [H _]. rewrite H. split; discriminate.
  - destruct H as [-> H]. tauto.
Qed.

(** One file adds its definition, or its diagnostic, or nothing. *)
Lemma load_file_spec (h : Host) (dir : string)
    (definitions : list JsValue) (console : list string) (file : string) :
  load_file h dir (definitions, console) file
  = ((definitions ++ option_list (Spec.definition_of h dir file))%list,
     (console ++ option_list (Spec.diagnostic_of h dir file))%list).
Proof.
  unfold load_file, Spec.definition_of, Spec.diagnostic_of, Spec.is_tool_file.
  rewrite <- negb_orb.
  destruct (endsWith file ".yaml" || endsWith file ".yml"); cbn [negb].
  2:{ cbn [option_list]. now rewrite !List.app_nil_r. }
  destruct (readFileSync h (path_join h dir file)) as [content|msg];
    cbn [rbind option_list]; [|now rewrite List.app_nil_r].
  destruct (parseYaml h content) as [parsed|msg];
    cbn [rbind option_list]; [|now rewrite List.app_nil_r].
  pose proof (validateDefinition_spec parsed file) as H.
  destruct (validateDefinition parsed file) as [w|d].
  - destruct H as [-> _]. cbn [option_list]. now rewrite List.app_nil_r.
  - destruct H as [-> ->]. cbn [option_list]. now rewrite List.app_nil_r.
Qed.

Lemma load_files_spec (h : Host) (dir : string) (files : list string)
    (definitions : list JsValue) (console : list string) :
  fold_left (load_file h dir) files (definitions, console)
  = ((definitions ++ omap (Spec.definition_of h dir) files)%list,
     (console ++ omap (Spec.diagnostic_of h dir) files)%list).
Proof.
  revert definitions console.
  induction files as [|file files IH]; intros definitions console.
  - cbn. now rewrite !List.app_nil_r.
  - cbn [fold_left]. rewrite load_file_spec, IH.
    rewrite <- !List.app_assoc. cbn [omap list_omap].
    destruct (Spec.definition_of h dir file), (Spec.diagnostic_of h dir file);
      reflexivity.
Qed.

Lemma definition_of_valid (h : Host) (dir file : string) (d : JsValue) :
  Spec.definition_of h dir file = Some d -> Spec.passes_validation d = true.
Proof.
  unfold Spec.definition_of.
  destruct (Spec.is_tool_file file); [|discriminate].
  destruct (readFileSync h _) as [content|]; [|discriminate].
  destruct (parseYaml h content) as [parsed|]; [|discriminate].
  destruct (Spec.passes_validation parsed) eqn:E; [|discriminate].
  now intros [= <-].
Qed.

(** A tool file contributes a definition or a diagnostic, never both and
    never neither. *)
Lemma tool_file_outcome (h : Host) (dir file : string) :
  Spec.is_tool_file file = true ->
  match Spec.definition_of h dir file with
  | Some d => Spec.diagnostic_of h dir file = None
  | None => exists w, Spec.diagnostic_of h dir file = Some w
                      /\ includes w file = true
  end.
Proof.
  intros Htool. unfold Spec.definition_of, Spec.diagnostic_of. rewrite Htool.
  assert (Hfailed : forall msg,
    includes ("api-tools: failed to parse " +:+ file +:+ ": " +:+ msg) file = true).
  { intros msg. apply includes_app. }
  destruct (readFileSync h _) as [content|msg]; [|eauto].
  destruct (parseYaml h content) as [parsed|msg]; [|eauto].
  pose proof (validateDefinition_spec parsed file) as H.
  destruct (validateDefinition parsed file) as [w|d].
  - destruct H as [-> Hw]. exists w. split; [reflexivity|].
    now apply about_includes.
  - destruct H as [_ ->]. reflexivity.
Qed.

(** C8.  [loadToolDefinitions] returns, in directory order, exactly the
    trees of the [.yaml]/[.yml] files that can be read, parse and pass the
    field-by-field validation.  Every other such file is left out and makes
    the loader write one diagnostic naming it, without any effect on the
    other files.  When the [api-tools] subdirectory does not exist (or
    cannot be listed) the result is the empty list. *)
Theorem loader_returns_valid_definitions (h : Host) (agentDir : string) :
  let dir := path_join h agentDir "api-tools" in
  let loaded := (loadToolDefinitions h agentDir).1 in
  let console := (loadToolDefinitions h agentDir).2 in
  (existsSync h dir = false -> loaded = [] /\ console = [])
  /\ (forall msg, readdirSync h dir = Throw msg -> loaded = [] /\ console = [])
  /\ (forall files, existsSync h dir = true -> readdirSync h dir = Ok files ->
        loaded = omap (Spec.definition_of h dir) files
        /\ console = omap (Spec.diagnostic_of h dir) files
        /\ (forall d, In d loaded -> Spec.passes_validation d = true)
        /\ (forall file, In file files -> Spec.is_tool_file file = true ->
              match Spec.definition_of h dir file with
              | Some d => In d loaded /\ Spec.diagnostic_of h dir file = None
              | None =>
                  exists w, Spec.diagnostic_of h dir file = Some w
                            /\ In w console /\ includes w file = true
              end))
  /\ (forall def filename,
        validateDefinition def filename = inr def
        <-> Spec.passes_validation def = true).
Proof.
  intros dir loaded console.
  unfold loaded, console, loadToolDefinitions. fold dir.
  split; [|split; [|split]].
  - intros ->. now split.
  - intros msg ->. destruct (existsSync h dir); now split.
  - intros files -> ->. cbn [negb]. rewrite load_files_spec. cbn [fst snd app].
    assert (Hin_omap : forall {A} (f : string -> option A) file x,
              In file files -> f file = Some x -> In x (omap f files)).
    { intros A f file x Hin Hf. apply list_elem_of_In.
      apply list_elem_of_omap. exists file. split; [|exact Hf].
      now apply list_elem_of_In. }
    split; [reflexivity|]. split; [reflexivity|]. split.
    + intros d Hd. apply list_elem_of_In in Hd.
      apply list_elem_of_omap in Hd as (file & _ & Hfile).
      now apply definition_of_valid in Hfile.
    + intros file Hin Htool.
      pose proof (tool_file_outcome h dir file Htool) as H.
      destruct (Spec.definition_of h dir file) as [d|] eqn:Hd.
      * split; [|exact H]. now apply (Hin_omap _ _ file).
      * destruct H as (w & Hw & Hincl). exists w.
        split; [exact Hw|]. split; [|exact Hincl].
        now apply (Hin_omap _ _ file).
  - exact validateDefinition_accepts.
Qed.

End WithNumbers.

Import Reference.

Lemma loader_returns_valid_definitions_witness :
  existsSync sample_host "/agent/api-tools" = true
  /\ (loadToolDefinitions sample_host "/agent").1 = [test_tool_tree]
  /\ (loadToolDefinitions sample_host "/agent").2
     = [ "api-tools: bad.yaml has invalid name (must match /^[a-z][a-z0-9_]*$/)";
         "api-tools: failed to parse broken.yml: Implicit map keys need to be followed by map values" ]
  /\ (loadToolDefinitions sample_host "/missing").1 = [].
Proof.
  split; [reflexivity|].
  destruct (loader_returns_valid_definitions sample_host "/agent")
    as (_ & _ & Hfiles & _).
  destruct (Hfiles _ eq_refl eq_refl) as (Hloaded & Hconsole & _).
  split; [|split].
  - etransitivity; [exact Hloaded|]. vm_compute. reflexivity.
  - etransitivity; [exact Hconsole|]. vm_compute. reflexivity.
  - exact (proj1 (proj1 (loader_returns_valid_definitions sample_host "/missing")
                    eq_refl)).
Defined.

End LoaderProperties.

(** ** template-engine.ts: further properties of [interpolateString] *)

Module TemplateMore.
Import Js TemplateEngine TemplateScan StringFacts TemplateFacts.

Lemma match_here_two_braces (s : string) (m : Match) :
  match_here s = Some m -> startsWith s "{{" = true.
Proof.
  intros H. apply match_here_inv in H as [-> _].
  change (m_text m +:+ m_rest m)
    with ("{{" +:+ ((m_scope m +:+ "." +:+ m_key m +:+ "}}") +:+ m_rest m)).
  apply startsWith_app.
Qed.

Section Scan.
Variable callback : string -> string -> string -> Result string.

Lemma replace_without_braces (s : string) :
  includes s "{{" = false -> replace callback s = Ok s.
Proof.
  induction s as [|c s IH]; intros H; [reflexivity|].
  cbn [includes] in H. apply orb_false_elim in H as [Hstart Hrest].
  rewrite replace_eq.
  destruct (match_here (String c s)) as [m|] eqn:E.
  - apply match_here_two_braces in E. congruence.
  - now rewrite (IH Hrest).
Qed.

(** The scan of [replace] succeeds when the callback succeeds on every
    match it visits. *)
Lemma replace_from_succeeds (fuel : nat) (s : string) :
  Forall (fun m => exists v, callback (m_text m) (m_scope m) (m_key m) = Ok v)
    (matches_from fuel s) ->
  exists out, replace_from callback fuel s = Ok out.
Proof.
  revert s; induction fuel as [|fuel IH]; intros s H; simpl in *; [eauto|].
  destruct (match_here s) as [m|].
  - inversion H as [|m' ms [v Hv] Hrest]; subst.
    rewrite Hv. destruct (IH _ Hrest) as [out ->]. simpl. eauto.
  - destruct s as [|c s]; [eauto|].
    destruct (IH _ H) as [out ->]. simpl. eauto.
Qed.

(** Conversely, when the scan succeeds the callback succeeded on every
    match. *)
Lemma replace_from_succeeded (fuel : nat) (s out : string) :
  replace_from callback fuel s = Ok out ->
  Forall (fun m => exists v, callback (m_text m) (m_scope m) (m_key m) = Ok v)
    (matches_from fuel s).
Proof.
  revert s out; induction fuel as [|fuel IH]; intros s out H; simpl in *;
    [constructor|].
  destruct (match_here s) as [m|].
  - destruct (callback (m_text m) (m_scope m) (m_key m)) as [v|e] eqn:Hcb;
      simpl in H; [|discriminate].
    destruct (replace_from callback fuel (m_rest m)) as [out'|e] eqn:Hrest;
      simpl in H; [|discriminate].
    constructor; [eauto | now apply (IH _ out')].
  - destruct s as [|c s]; [constructor|].
    destruct (replace_from callback fuel s) as [out'|e] eqn:Hrest;
      simpl in H; [|discriminate].
    now apply (IH _ out').
Qed.

(** When it throws, the error is the one the callback threw on one of the
    matches. *)
Lemma replace_from_throws (fuel : nat) (s msg : string) :
  replace_from callback fuel s = Throw msg ->
  exists m, In m (matches_from fuel s)
            /\ callback (m_text m) (m_scope m) (m_key m) = Throw msg.
Proof.
  revert s; induction fuel as [|fuel IH]; intros s H; simpl in *; [discriminate|].
  destruct (match_here s) as [m|].
  - destruct (callback (m_text m) (m_scope m) (m_key m)) as [v|e] eqn:Hcb;
      simpl in H.
    + destruct (replace_from callback fuel (m_rest m)) as [out|e] eqn:Hrest;
        simpl in H; [discriminate|].
      injection H as ->. destruct (IH _ Hrest) as (m' & Hin & Hm').
      exists m'. split; [now right | exact Hm'].
    + injection H as ->. exists m. split; [now left | exact Hcb].
  - destruct s as [|c s]; [discriminate|].
    destruct (replace_from callback fuel s) as [out|e] eqn:Hrest;
      simpl in H; [discriminate|].
    injection H as ->. now apply IH.
Qed.

End Scan.

(** A callback that succeeds wherever another one does gives the same
    output wherever the other one gives one. *)
Lemma replace_from_extends
    (cb1 cb2 : string -> string -> string -> Result string)
    (fuel : nat) (s out : string) :
  (forall a b c v, cb1 a b c = Ok v -> cb2 a b c = Ok v) ->
  replace_from cb1 fuel s = Ok out -> replace_from cb2 fuel s = Ok out.
Proof.
  intros Hext. revert s out.
  induction fuel as [|fuel IH]; intros s out H; simpl in *; [exact H|].
  destruct (match_here s) as [m|].
  - destruct (cb1 (m_text m) (m_scope m) (m_key m)) as [v|e] eqn:Hcb;
      simpl in H; [|discriminate].
    rewrite (Hext _ _ _ _ Hcb). simpl.
    destruct (replace_from cb1 fuel (m_rest m)) as [out'|e] eqn:Hrest;
      simpl in H; [|discriminate].
    now rewrite (IH _ _ Hrest).
  - destruct s as [|c s]; [exact H|].
    destruct (replace_from cb1 fuel s) as [out'|e] eqn:Hrest;
      simpl in H; [|discriminate].
    now rewrite (IH _ _ Hrest).
Qed.

(** Every match visited by the scan is a piece of the text. *)
Lemma matches_from_occur (fuel : nat) (s : string) (m : Match) :
  In m (matches_from fuel s) ->
  In (m_scope m) TEMPLATE_SCOPES /\ is_identifier (m_key m) = true
  /\ exists pre, s = pre +:+ m_text m +:+ m_rest m.
Proof.
  revert s; induction fuel as [|fuel IH]; intros s H; simpl in H; [destruct H|].
  destruct (match_here s) as [m0|] eqn:E.
  - apply match_here_inv in E as (Es & Hscope & Hkey).
    destruct H as [<-|H].
    + split; [exact Hscope|]. split; [exact Hkey|]. exists "". exact Es.
    + destruct (IH _ H) as (Hs & Hk & pre & Hpre).
      split; [exact Hs|]. split; [exact Hk|].
      exists (m_text m0 +:+ pre). rewrite Es, Hpre. now rewrite app_assoc.
  - destruct s as [|c s]; [destruct H|].
    destruct (IH _ H) as (Hs & Hk & pre & Hpre).
    split; [exact Hs|]. split; [exact Hk|].
    exists (String c pre). now rewrite Hpre.
Qed.

Section WithNumbers.
Context {N : JsNumber}.

(** Induction on values, with the elements of arrays and the property
    values of objects as smaller values. *)
Lemma JsValue_nested_ind (P : JsValue -> Prop) :
  P JUndefined -> P JNull -> (forall b, P (JBool b)) -> (forall n, P (JNum n)) ->
  (forall s, P (JStr s)) ->
  (forall xs, Forall P xs -> P (JArr xs)) ->
  (forall ps, Forall (fun kv => P kv.2) ps -> P (JObj ps)) ->
  forall v, P v.
Proof.
  intros Hu Hn Hb Hnum Hs Harr Hobj.
  fix IH 1. intros [ | |b|n|s|xs|ps].
  - exact Hu.
  - exact Hn.
  - apply Hb.
  - apply Hnum.
  - apply Hs.
  - apply Harr. revert xs. fix IHxs 1. intros [|x xs]; constructor.
    + apply IH.
    + apply IHxs.
  - apply Hobj. revert ps. fix IHps 1. intros [|[k x] ps]; constructor.
    + apply IH.
    + apply IHps.
Qed.

(** [String] fails in one way only. *)
Lemma String_throws (v : JsValue) (msg : string) :
  String_ v = Throw msg -> msg = cannot_convert.
Proof.
  revert msg. induction v as [ | |b|n|s|xs IHxs|ps _]
    using JsValue_nested_ind; intros msg H; cbn [String_] in H;
    try discriminate H.
  - destruct b; discriminate H.
  - match type of H with
    | rbind ?m _ = _ => destruct m as [parts|e] eqn:E; simpl in H; [discriminate|]
    end.
    injection H as ->. clear -E IHxs. revert E.
    induction IHxs as [|x xs Hx _ IH]; intros E; [discriminate E|].
    assert (Hs : forall e',
      match x with JUndefined | JNull => Ok "" | _ => String_ x end = Throw e' ->
      String_ x = Throw e').
    { destruct x; intros e' He'; try discriminate He'; exact He'. }
    destruct (match x with JUndefined | JNull => Ok "" | _ => String_ x end)
      as [s|e'] eqn:Ex; cbn [rbind] in E.
    + match type of E with
      | rbind ?m _ = _ => destruct m as [more|e'] eqn:Er; simpl in E; [discriminate|]
      end.
      injection E as ->. now apply IH.
    + injection E as ->. apply Hx. now apply Hs.
  - destruct (assoc ps "toString"); [|discriminate H]. now injection H as <-.
Qed.

Lemma String_member_throws (value : Member) (msg : string) :
  String_member value = Throw msg -> msg = cannot_convert.
Proof.
  destruct value as [v| | |]; cbn; try discriminate. apply String_throws.
Qed.

(** A name of the env scope resolves when it is a variable of the
    environment or a name inherited from [Object.prototype]. *)
Lemma env_member_defined (env : gmap string string) (key : string) :
  member_undefined (env_member env key) = false
  <-> env !! key <> None \/ Spec.inherited key = true.
Proof.
  unfold env_member. destruct (env !! key) as [s|] eqn:E.
  - split; [now left | reflexivity].
  - destruct (Spec.inherited key) eqn:Hk.
    + split; [now right|]. intros _.
      now destruct (TemplateProperties.Object_prototype_member_inherited key Hk).
    + rewrite (TemplateProperties.Object_prototype_member_absent _ _ Hk).
      split; [discriminate|]. now intros [?|?].
Qed.

(** The two ways in which the callback throws. *)
Lemma replacer_throws (ctx : TemplateContext) (strict : bool) (m : Match)
    (msg : string) :
  replacer ctx strict (m_text m) (m_scope m) (m_key m) = Throw msg ->
  (strict = true /\ m_scope m = "env" /\ env ctx !! m_key m = None
   /\ Spec.inherited (m_key m) = false
   /\ msg = "Missing required environment variable: " +:+ m_key m)
  \/ msg = cannot_convert.
Proof.
  unfold replacer.
  destruct (String.eqb_spec (m_scope m) "env") as [Henv|_].
  - destruct (member_undefined (env_member (env ctx) (m_key m))) eqn:Hu.
    + destruct strict; cbn [andb]; [|discriminate].
      intros [= <-]. left.
      assert (Hnot : ~ (env ctx !! m_key m <> None
                        \/ Spec.inherited (m_key m) = true)).
      { intros H. apply env_member_defined in H. congruence. }
      repeat split; try reflexivity; try exact Henv.
      * destruct (env ctx !! m_key m); [|reflexivity].
        exfalso. apply Hnot. now left.
      * destruct (Spec.inherited (m_key m)); [|reflexivity].
        exfalso. apply Hnot. now right.
    + cbn [andb]. intros H. right. now apply String_member_throws in H.
  - destruct (String.eqb (m_scope m) "params").
    { destruct (member_undefined _); [discriminate|].
      intros H. right. now apply String_member_throws in H. }
    destruct (String.eqb (m_scope m) "response"); [|discriminate].
    destruct (response ctx) as [r|]; [|discriminate].
    destruct (member_undefined _); [discriminate|].
    intros H. right. now apply String_member_throws in H.
Qed.

(** In strict mode the callback gives what it gives in non-strict mode,
    unless the name of the env scope does not resolve. *)
Lemma replacer_strict_of_lenient (ctx : TemplateContext) (m : Match) (v : string) :
  (m_scope m = "env" -> member_undefined (env_member (env ctx) (m_key m)) = false) ->
  replacer ctx false (m_text m) (m_scope m) (m_key m) = Ok v ->
  replacer ctx true (m_text m) (m_scope m) (m_key m) = Ok v.
Proof.
  unfold replacer.
  destruct (String.eqb_spec (m_scope m) "env") as [Henv|_]; [|trivial].
  intros H. now rewrite (H Henv).
Qed.

Lemma in_env_keys (template key : string) :
  In key (env_keys template) <->
  exists m, In m (matches_of template) /\ m_scope m = "env" /\ m_key m = key.
Proof.
  unfold env_keys. rewrite in_map_iff. split.
  - intros (m & Hk & Hm). apply filter_In in Hm as [Hm Hs].
    apply String.eqb_eq in Hs. now exists m.
  - intros (m & Hm & Hs & Hk). exists m. split; [exact Hk|].
    apply filter_In. split; [exact Hm|]. now apply String.eqb_eq.
Qed.

(** X1.  A template in which no two opening braces follow each other is
    returned unchanged, in strict and in non-strict mode. *)
Theorem text_without_placeholder_unchanged (template : string)
    (ctx : TemplateContext) (strictEnv : option bool) :
  includes template "{{" = false ->
  interpolateString template ctx strictEnv = Ok template.
Proof. intros H. unfold interpolateString. now apply replace_without_braces. Qed.

(** X2.  Strict interpolation succeeds exactly when non-strict
    interpolation does and every key of an [{{env.KEY}}] placeholder of the
    template resolves in the env scope, as a variable of the environment or
    as a name inherited from [Object.prototype].  When it throws, either the
    message names a key of such a placeholder that is neither, or the error
    is the one of a value that cannot be converted to a string.  The keys
    in question are those of placeholders that occur in the template. *)
Theorem strict_succeeds_iff_env_present (template : string) (ctx : TemplateContext) :
  ((exists out, interpolateString template ctx None = Ok out)
   <-> (forall key, In key (env_keys template) ->
          env ctx !! key <> None \/ Spec.inherited key = true)
       /\ exists out, interpolateString template ctx (Some false) = Ok out)
  /\ (forall msg, interpolateString template ctx None = Throw msg ->
        (exists key, In key (env_keys template) /\ env ctx !! key = None
                     /\ Spec.inherited key = false
                     /\ msg = "Missing required environment variable: " +:+ key)
        \/ msg = cannot_convert)
  /\ (forall key, In key (env_keys template) ->
        is_identifier key = true
        /\ exists pre post, template = pre +:+ Spec.placeholder "env" key +:+ post).
Proof.
  split; [split|split].
  - intros [out Hout]. split.
    + intros key Hkey. apply env_member_defined.
      apply in_env_keys in Hkey as (m & Hin & Hs & <-).
      unfold interpolateString, replace in Hout.
      apply replace_from_succeeded in Hout.
      rewrite List.Forall_forall in Hout. destruct (Hout m Hin) as [v Hv].
      unfold replacer in Hv. rewrite Hs in Hv. cbn [String.eqb Ascii.eqb Bool.eqb] in Hv.
      cbn [default] in Hv.
      destruct (member_undefined (env_member (env ctx) (m_key m)));
        [discriminate Hv | reflexivity].
    + exists out. revert Hout. unfold interpolateString, replace.
      cbn [default]. apply replace_from_extends.
      intros a b c v. unfold replacer. destruct (String.eqb b "env"); [|trivial].
      destruct (member_undefined _); cbn [andb]; [discriminate | trivial].
  - intros [Hall [out Hout]]. unfold interpolateString, replace in *.
    cbn [default] in *.
    apply replace_from_succeeded in Hout. rewrite List.Forall_forall in Hout.
    apply replace_from_succeeds. apply List.Forall_forall. intros m Hm.
    destruct (Hout m Hm) as [v Hv]. exists v.
    apply replacer_strict_of_lenient; [|exact Hv].
    intros Hs. apply env_member_defined. apply Hall.
    apply in_env_keys. now exists m.
  - intros msg H. unfold interpolateString, replace in H.
    apply replace_from_throws in H as (m & Hin & Hm).
    apply replacer_throws in Hm as [(_ & Hs & Hnone & Hinh & Hmsg)|Hmsg];
      subst msg; [left | now right].
    exists (m_key m). split; [|now repeat split].
    apply in_env_keys. now exists m.
  - intros key Hkey.
    apply in_env_keys in Hkey as (m & Hin & Hs & <-).
    apply matches_from_occur in Hin as (_ & Hid & pre & Hpre).
    split; [exact Hid|]. exists pre, (m_rest m).
    rewrite Hpre. unfold m_text, Spec.placeholder. now rewrite Hs.
Qed.

Lemma replacer_strict_then_lenient (ctx : TemplateContext) (a b c v : string) :
  replacer ctx true a b c = Ok v -> replacer ctx false a b c = Ok v.
Proof.
  unfold replacer. destruct (String.eqb b "env"); [|trivial].
  destruct (member_undefined _); cbn [andb]; [discriminate | trivial].
Qed.

(** X3.  The mode only matters for missing environment variables: whenever
    strict interpolation produces a string, non-strict interpolation
    produces the same string. *)
Theorem lenient_agrees_with_strict (template : string) (ctx : TemplateContext)
    (out : string) :
  interpolateString template ctx None = Ok out ->
  interpolateString template ctx (Some false) = Ok out.
Proof.
  unfold interpolateString, replace. simpl default.
  apply replace_from_extends. apply replacer_strict_then_lenient.
Qed.

End WithNumbers.

Import Reference.

Lemma text_without_placeholder_unchanged_witness :
  includes "Bearer {static} token" "{{" = false
  /\ interpolateString "Bearer {static} token" sample_ctx None
     = Ok "Bearer {static} token".
Proof.
  split; [reflexivity|].
  now apply text_without_placeholder_unchanged.
Defined.

Lemma strict_succeeds_iff_env_present_witness :
  env_keys "{{env.API_KEY}}/{{params.name}}/{{env.REGION}}" = ["API_KEY"; "REGION"]
  /\ env sample_ctx !! "REGION" = None
  /\ Spec.inherited "REGION" = false
  /\ ~ exists out,
        interpolateString "{{env.API_KEY}}/{{params.name}}/{{env.REGION}}"
          sample_ctx None = Ok out.
Proof.
  split; [vm_compute; reflexivity|].
  assert (Hnone : env sample_ctx !! "REGION" = None) by (vm_compute; reflexivity).
  split; [exact Hnone|]. split; [reflexivity|].
  intros Hout.
  destruct (strict_succeeds_iff_env_present
              "{{env.API_KEY}}/{{params.name}}/{{env.REGION}}" sample_ctx)
    as (Hiff & _ & _).
  destruct (proj1 Hiff Hout) as [Hall _].
  destruct (Hall "REGION") as [Hown|Hinh].
  - vm_compute. right; left. reflexivity.
  - now apply Hown.
  - discriminate Hinh.
Defined.

Lemma lenient_agrees_with_strict_witness :
  interpolateString "Bearer {{env.API_KEY}}" sample_ctx None = Ok "Bearer secret123"
  /\ interpolateString "Bearer {{env.API_KEY}}" sample_ctx (Some false)
     = Ok "Bearer secret123".
Proof.
  assert (H : interpolateString "Bearer {{env.API_KEY}}" sample_ctx None
              = Ok "Bearer secret123") by (vm_compute; reflexivity).
  split; [exact H|]. now apply lenient_agrees_with_strict.
Defined.

End TemplateMore.

(** ** template-engine.ts: [interpolateDeep] *)

Module DeepProperties.
Import Js TemplateEngine TemplateScan Shape StringFacts TemplateFacts TemplateMore.

Lemma distinct_NoDup (ks : list string) :
  distinct ks = true -> List.NoDup ks.
Proof.
  induction ks as [|k ks IH]; simpl; intros H; [constructor|].
  apply andb_prop in H as [Hk Hks]. constructor; [|now apply IH].
  intros Hin. apply negb_true_iff in Hk.
  assert (array_includes ks k = true); [|congruence].
  unfold array_includes. apply existsb_exists. exists k.
  split; [exact Hin | apply String.eqb_refl].
Qed.

Section WithNumbers.
Context {N : JsNumber}.

Lemma interpolateString_throws (template : string) (ctx : TemplateContext)
    (strictEnv : option bool) (msg : string) :
  interpolateString template ctx strictEnv = Throw msg ->
  (default true strictEnv = true
   /\ exists key, env ctx !! key = None /\ Spec.inherited key = false
                  /\ msg = "Missing required environment variable: " +:+ key)
  \/ msg = cannot_convert.
Proof.
  unfold interpolateString, replace. intros H.
  apply replace_from_throws in H as (m & _ & Hm).
  apply replacer_throws in Hm as [(Hstrict & _ & Hnone & Hinh & Hmsg)|Hmsg];
    [left | now right].
  split; [exact Hstrict|]. now exists (m_key m).
Qed.

(** X4.  [interpolateDeep] fails in two ways only: in strict mode, with the
    error of an environment variable that is missing (its name is no
    variable of the environment and is not inherited from
    [Object.prototype]), and, in either mode, with the error of a value
    that cannot be converted to a string. *)
Theorem deep_fails_only_on_missing_env (value : JsValue) (ctx : TemplateContext)
    (strictEnv : option bool) (msg : string) :
  interpolateDeep value ctx strictEnv = Throw msg ->
  (default true strictEnv = true
   /\ exists key, env ctx !! key = None /\ Spec.inherited key = false
                  /\ msg = "Missing required environment variable: " +:+ key)
  \/ msg = cannot_convert.
Proof.
  revert msg. induction value as [ | |b|n|s|xs IHxs|ps IHps]
    using JsValue_nested_ind; intros msg H; simpl in H; try discriminate H.
  - destruct (interpolateString s ctx strictEnv) as [s'|e] eqn:E;
      simpl in H; [discriminate|].
    injection H as ->. now apply (interpolateString_throws s).
  - match type of H with
    | rbind ?m _ = _ => destruct m as [ys|e] eqn:E; simpl in H; [discriminate|]
    end.
    injection H as ->. clear -E IHxs.
    induction IHxs as [|x xs Hx _ IH]; [discriminate E|].
    destruct (interpolateDeep x ctx strictEnv) as [x'|e] eqn:Ex.
    + simpl in E.
      match type of E with
      | rbind ?m _ = _ => destruct m as [ys|e] eqn:Er; simpl in E; [discriminate|]
      end.
      injection E as ->. now apply IH.
    + simpl in E. injection E as ->. now apply Hx.
  - match type of H with
    | rbind ?m _ = _ => destruct m as [qs|e] eqn:E; simpl in H; [discriminate|]
    end.
    injection H as ->. clear -E IHps.
    revert E.
    generalize (@None Interpolated, @nil (string * Interpolated)) as acc.
    induction IHps as [|[k x] ps Hx _ IH]; intros acc E; [discriminate E|].
    destruct (interpolateDeep x ctx strictEnv) as [x'|e] eqn:Ex.
    + simpl in E. now apply (IH (set_interpolated acc k x')).
    + simpl in E. injection E as ->. now apply Hx.
Qed.

(** X5.  On a value in which no object has a property named [__proto__],
    [interpolateDeep] keeps the structure: the result has the same arrays
    (with the same lengths), the same objects (with the same property names
    in the same order, and the prototype of an object literal) and the same
    leaves, except that strings may have changed. *)
Theorem deep_preserves_shape (value : JsValue) (ctx : TemplateContext)
    (strictEnv : option bool) (out : Interpolated) :
  well_formed value = true ->
  proto_free value = true ->
  interpolateDeep value ctx strictEnv = Ok out ->
  SameShape value out.
Proof.
  revert out. induction value as [ | |b|n|s|xs IHxs|ps IHps]
    using JsValue_nested_ind; intros out Hwf Hpf H; simpl in H;
    try (injection H as <-; constructor).
  - destruct (interpolateString s ctx strictEnv) as [s'|e];
      simpl in H; [|discriminate].
    injection H as <-. constructor.
  - match type of H with
    | rbind ?m _ = _ => destruct m as [ys|e] eqn:E; simpl in H; [|discriminate]
    end.
    injection H as <-. constructor. simpl in Hwf, Hpf. clear -E IHxs Hwf Hpf.
    revert ys E Hwf Hpf.
    induction IHxs as [|x xs Hx _ IH]; intros ys E Hwf Hpf.
    + injection E as <-. constructor.
    + apply andb_prop in Hwf as [Hwx Hwxs].
      apply andb_prop in Hpf as [Hpx Hpxs].
      destruct (interpolateDeep x ctx strictEnv) as [x'|e] eqn:Ex;
        simpl in E; [|discriminate].
      match type of E with
      | rbind ?m _ = _ => destruct m as [ys'|e] eqn:Er; simpl in E; [|discriminate]
      end.
      injection E as <-. constructor; [now apply Hx | now apply IH].
  - match type of H with
    | rbind ?m _ = _ => destruct m as [qs|e] eqn:E; simpl in H; [|discriminate]
    end.
    injection H as <-. simpl in Hwf, Hpf.
    apply andb_prop in Hwf as [Hdistinct Hwf]. apply distinct_NoDup in Hdistinct.
    assert (Hgen : forall acc qs,
      List.NoDup (map fst acc.2 ++ map fst ps) ->
      (fix each_entry (props : JsRecord)
           (result : option Interpolated * list (string * Interpolated))
           {struct props}
         : Result (option Interpolated * list (string * Interpolated)) :=
         match props with
         | [] => Ok result
         | (k, v) :: rest =>
             let* v' := interpolateDeep v ctx strictEnv in
             each_entry rest (set_interpolated result k v')
         end) ps acc = Ok qs ->
      qs.1 = acc.1
      /\ exists qs', qs.2 = (acc.2 ++ qs')%list
                  /\ Forall2 (fun p q => p.1 = q.1 /\ SameShape p.2 q.2) ps qs').
    { clear E Hdistinct. revert Hwf Hpf.
      induction IHps as [|[k x] ps Hx _ IH]; intros Hwf Hpf acc qs' Hnd E.
      - injection E as <-. split; [reflexivity|].
        exists []. split; [now rewrite List.app_nil_r | constructor].
      - apply andb_prop in Hwf as [Hwx Hwps].
        apply andb_prop in Hpf as [Hpf Hpps].
        apply andb_prop in Hpf as [Hk Hpx]. apply negb_true_iff in Hk.
        destruct (interpolateDeep x ctx strictEnv) as [x'|e] eqn:Ex;
          simpl in E; [|discriminate].
        assert (Hfresh : ~ In k (map fst acc.2)).
        { simpl in Hnd. apply NoDup_remove_2 in Hnd. intros Hin. apply Hnd.
          apply in_or_app. now left. }
        destruct (SchemaProperties.assoc_app_fresh acc.2 k x' Hfresh) as [_ Hassign].
        unfold set_interpolated in E. rewrite Hk, Hassign in E.
        destruct (IH Hwps Hpps (acc.1, (acc.2 ++ [(k, x')])%list) qs')
          as (Hproto & rest & Hqs & Hrest).
        + cbn [snd]. rewrite map_app. simpl. rewrite <- List.app_assoc. exact Hnd.
        + exact E.
        + split; [exact Hproto|]. exists ((k, x') :: rest). split.
          * rewrite Hqs. cbn [snd]. now rewrite <- List.app_assoc.
          * constructor; [|exact Hrest]. split; [reflexivity|]. now apply Hx. }
    destruct (Hgen (None, []) qs Hdistinct E) as (Hproto & qs' & Hqs & Hshape).
    cbn [fst snd app] in Hproto, Hqs. rewrite Hproto, Hqs. now constructor.
Qed.

End WithNumbers.

Import Reference.

Lemma deep_fails_only_on_missing_env_witness :
  interpolateDeep (JArr [JStr "{{params.name}}"; JObj [("auth", JStr "{{env.TOKEN}}")]])
    sample_ctx None
  = Throw "Missing required environment variable: TOKEN"
  /\ env sample_ctx !! "TOKEN" = None
  /\ Spec.inherited "TOKEN" = false.
Proof.
  assert (H : interpolateDeep
                (JArr [JStr "{{params.name}}"; JObj [("auth", JStr "{{env.TOKEN}}")]])
                sample_ctx None
              = Throw "Missing required environment variable: TOKEN")
    by (vm_compute; reflexivity).
  split; [exact H|].
  destruct (deep_fails_only_on_missing_env _ _ _ _ H)
    as [(_ & key & Hnone & Hinh & Hmsg)|Hmsg]; [|discriminate Hmsg].
  assert (key = "TOKEN") as <-; [|now split].
  change "Missing required environment variable: TOKEN"
    with ("Missing required environment variable: " +:+ "TOKEN") in Hmsg.
  now apply String.app_inj in Hmsg.
Defined.

Lemma deep_preserves_shape_witness :
  well_formed
    (JObj [("header", JStr "Bearer {{env.API_KEY}}");
           ("body", JObj [("text", JStr "{{params.name}}"); ("n", JNum 3)])]) = true
  /\ proto_free
    (JObj [("header", JStr "Bearer {{env.API_KEY}}");
           ("body", JObj [("text", JStr "{{params.name}}"); ("n", JNum 3)])]) = true
  /\ SameShape
       (JObj [("header", JStr "Bearer {{env.API_KEY}}");
           ("body", JObj [("text", JStr "{{params.name}}"); ("n", JNum 3)])])
       (IObj None
          [("header", IStr "Bearer secret123");
           ("body", IObj None [("text", IStr "World"); ("n", INum 3)])]).
Proof.
  split; [reflexivity|]. split; [reflexivity|].
  apply (deep_preserves_shape _ sample_ctx None); [reflexivity|reflexivity|].
  vm_compute. reflexivity.
Defined.

End DeepProperties.

(** ** executor.ts: what reaches the network, and what comes back *)

Module ExecutorMore.
Import Js Types Executor Rendering StringFacts HostFacts ExecutorFacts.

Lemma assoc_assign_same {A} (props : list (string * A)) (key : string) (v : A) :
  assoc (assign props key v) key = Some v.
Proof.
  induction props as [|[k w] props IH]; simpl.
  - now rewrite String.eqb_refl.
  - destruct (String.eqb k key) eqn:E; simpl; now rewrite E.
Qed.

Lemma assoc_assign_other {A} (props : list (string * A)) (key k : string) (v : A) :
  key <> k -> assoc (assign props key v) k = assoc props k.
Proof.
  intros Hne. induction props as [|[k' w] props IH]; simpl.
  - destruct (String.eqb_spec key k); [contradiction | reflexivity].
  - destruct (String.eqb_spec k' key) as [->|Hk]; simpl.
    + destruct (String.eqb_spec key k); [contradiction | reflexivity].
    + destruct (String.eqb k' k); [reflexivity | exact IH].
Qed.

(** [{ ...a, ...b }[k]]: the value in [b] when [b] has the key, otherwise
    the value in [a]. *)
Lemma assoc_spread {A} (a b : list (string * A)) (k : string) :
  List.NoDup (map fst b) ->
  assoc (spread a b) k =
  match assoc b k with Some v => Some v | None => assoc a k end.
Proof.
  unfold spread. revert a.
  induction b as [|[k' v'] b IH]; intros a Hnd; [reflexivity|].
  simpl in *. apply NoDup_cons_iff in Hnd as [Hfresh Hnd].
  rewrite (IH _ Hnd).
  destruct (String.eqb_spec k' k) as [->|Hne].
  - assert (assoc b k = None) as ->.
    { clear -Hfresh. induction b as [|[k2 v2] b IH]; [reflexivity|].
      simpl in *. destruct (String.eqb_spec k2 k) as [->|]; [tauto|].
      apply IH. tauto. }
    apply assoc_assign_same.
  - destruct (assoc b k); [reflexivity|]. now apply assoc_assign_other.
Qed.

Section WithNumbers.
Context {N : JsNumber}.

(** A name that does not read as falsy in the environment has a non-empty
    value there or is inherited. *)
Lemma env_truthy (merged : gmap string string) (key : string) :
  env_falsy merged key = false ->
  (exists v, merged !! key = Some v /\ v <> "")
  \/ (merged !! key = None /\ Spec.inherited key = true).
Proof.
  unfold env_falsy, env_member. destruct (merged !! key) as [v|].
  - cbn. intros H. left. exists v. split; [reflexivity|].
    intros ->. discriminate H.
  - destruct (Spec.inherited key) eqn:Hk; [now right|].
    rewrite (TemplateProperties.Object_prototype_member_absent _ _ Hk).
    discriminate.
Qed.

(** [if (!headers["Content-Type"]) headers["Content-Type"] = v] *)
Lemma content_type_defaulted (hs : list (string * string)) (v : string) :
  v <> "" ->
  let hs' := if no_content_type hs then set hs "Content-Type" v else hs in
  (forall name, name <> "Content-Type" -> assoc hs' name = assoc hs name)
  /\ exists v',
       assoc hs' "Content-Type" = Some v' /\ v' <> ""
       /\ match assoc hs "Content-Type" with
          | Some w => if String.eqb w "" then v' = v else v' = w
          | None => v' = v
          end.
Proof.
  intros Hv hs'. subst hs'. unfold no_content_type.
  rewrite (SchemaProperties.set_assign hs "Content-Type" v) by discriminate.
  destruct (assoc hs "Content-Type") as [w|] eqn:Hw;
    [destruct (String.eqb_spec w "") as [->|Hne]|].
  - split; [intros name Hname; apply assoc_assign_other; congruence|].
    exists v. split; [apply assoc_assign_same|now split].
  - split; [reflexivity|]. exists w. now repeat split.
  - split; [intros name Hname; apply assoc_assign_other; congruence|].
    exists v. split; [apply assoc_assign_same|now split].
Qed.

(** X6.  Whatever [executeApiTool] hands to [fetch] has passed the egress
    checks: the URL is the resolved URL template, its host name is not a
    blocked private host and matches an entry of [allowed_hosts], and the
    method is the declared one.  There is no second request. *)
Theorem requests_pass_egress_checks (rt : Runtime)
    (params : ApiToolExecuteParams) (rq : Request) :
  In rq (executeApiTool rt params).1 ->
  (executeApiTool rt params).1 = [rq]
  /\ TemplateEngine.interpolateString (url (request (definition params)))
       (call_context rt params) None = Ok (rq_url rq)
  /\ rq_method rq = method (request (definition params))
  /\ exists h,
       URL_hostname rt (rq_url rq) = Some h
       /\ isPrivateHost h = false
       /\ isAllowedHost h (allowed_hosts (definition params)) = true.
Proof.
  intros Hin.
  destruct (request_history rt params rq Hin)
    as (Hlog & _ & Hurl & Hval & Hmethod & _ & _).
  split; [exact Hlog|]. split; [exact Hurl|]. split; [exact Hmethod|].
  now apply validateUrl_ok.
Qed.

(** X7.  No request is made unless every name of [requires_env] reads as
    a truthy value in the merged environment: it has a non-empty value
    there, or it is no variable of the environment and names a member
    inherited from [Object.prototype]. *)
Theorem requests_have_required_env (rt : Runtime)
    (params : ApiToolExecuteParams) (rq : Request)
    (requires : list string) (key : string) :
  In rq (executeApiTool rt params).1 ->
  requires_env (definition params) = Some requires ->
  In key requires ->
  (exists v, merged_env rt (extraEnv params) !! key = Some v /\ v <> "")
  \/ (merged_env rt (extraEnv params) !! key = None /\ Spec.inherited key = true).
Proof.
  intros Hin Hreq Hkey.
  destruct (request_history rt params rq Hin) as (_ & Henv & _).
  rewrite Hreq in Henv.
  now apply env_truthy, (checkRequiredEnvVars_ok rt requires).
Qed.

(** X8.  Results are consistent: a successful result carries a status
    from 200 to 299 and the data, and no error; a failed result carries no
    summary; status and data are present or absent together, and a result
    without status is a failure with an error message. *)
Theorem result_is_consistent (rt : Runtime) (params : ApiToolExecuteParams) :
  let r := (executeApiTool rt params).2 in
  (success r = true ->
     error r = None
     /\ exists s d, status r = Some s /\ 200 <= s <= 299 /\ data r = Some d)
  /\ (success r = false -> summary r = None)
  /\ (status r = None <-> data r = None)
  /\ (status r = None ->
        success r = false /\ summary r = None /\ exists msg, error r = Some msg).
Proof.
  intros r. subst r.
  destruct (result_cases rt params)
    as [[msg ->]|(resp & d & summary_text & error_text & -> & Hno_error & Hno_summary)].
  - cbn. repeat split; try discriminate; eauto.
  - unfold completed. cbn [success error status data summary].
    split; [|split; [|split]].
    + intros Hok. split; [now apply Hno_error|].
      exists (rs_status resp), d.
      split; [reflexivity|split; [|reflexivity]].
      unfold rs_ok in Hok. apply andb_prop in Hok as [H1 H2].
      apply Z.leb_le in H1, H2. lia.
    + exact Hno_summary.
    + split; discriminate.
    + discriminate.
Qed.

(** X9.  A request with a JSON or form body carries a non-empty
    [Content-Type] header: the one the definition declares when that is
    non-empty, otherwise the default for the kind of body.  The other
    headers are the declared ones, and a text body or no body adds
    nothing. *)
Theorem body_requests_carry_content_type (rt : Runtime)
    (params : ApiToolExecuteParams) (rq : Request) :
  In rq (executeApiTool rt params).1 ->
  exists declared,
    match headers (request (definition params)) with
    | Some hs => interpolate_headers (call_context rt params) hs []
    | None => Ok []
    end = Ok declared
    /\ match body (request (definition params)) with
       | None => rq_body rq = None /\ rq_headers rq = declared
       | Some b =>
           match body_type b with
           | BodyText => rq_headers rq = declared
           | kind =>
               (forall name, name <> "Content-Type" ->
                  assoc (rq_headers rq) name = assoc declared name)
               /\ exists v,
                    assoc (rq_headers rq) "Content-Type" = Some v /\ v <> ""
                    /\ match assoc declared "Content-Type" with
                       | Some w =>
                           if String.eqb w "" then Some v = default_content_type kind
                           else v = w
                       | None => Some v = default_content_type kind
                       end
           end
       end.
Proof.
  intros Hin.
  destruct (request_history rt params rq Hin)
    as (_ & _ & _ & _ & _ & _ & hs & Hhs & Hbody).
  exists hs. split; [exact Hhs|].
  unfold build_body in Hbody.
  destruct (body (request (definition params))) as [b|].
  2:{ injection Hbody as <- <-. now split. }
  destruct (TemplateEngine.interpolateDeep (body_content b)
              (call_context rt params) None) as [content|msg];
    cbn [rbind] in Hbody; [|discriminate].
  destruct (body_type b).
  - injection Hbody as _ <-.
    destruct (content_type_defaulted hs "application/json") as (Ho & v & Hv & Hne & Hw);
      [discriminate|].
    split; [exact Ho|]. exists v. split; [exact Hv|]. split; [exact Hne|].
    destruct (assoc hs "Content-Type") as [w|]; [destruct (String.eqb w "")|];
      cbn [default_content_type]; congruence.
  - destruct (if is_object_i content then _ else _) as [formData|msg];
      cbn [rbind] in Hbody; [|discriminate].
    injection Hbody as _ <-.
    destruct (content_type_defaulted hs "application/x-www-form-urlencoded")
      as (Ho & v & Hv & Hne & Hw); [discriminate|].
    split; [exact Ho|]. exists v. split; [exact Hv|]. split; [exact Hne|].
    destruct (assoc hs "Content-Type") as [w|]; [destruct (String.eqb w "")|];
      cbn [default_content_type]; congruence.
  - destruct (String_interpolated _ content) as [text|msg];
      cbn [rbind] in Hbody; [|discriminate].
    now injection Hbody as _ <-.
Qed.

(** A template that contains a placeholder is declared. *)
Lemma declared_placeholder (pre scope key post : string) :
  declared_template (Some (pre +:+ Spec.placeholder scope key +:+ post))
  = Some (pre +:+ Spec.placeholder scope key +:+ post).
Proof.
  unfold declared_template, Spec.placeholder.
  destruct pre; [|reflexivity].
  rewrite app_nil_l. unfold_app. reflexivity.
Qed.

(** A response template around a [{{response.key}}] placeholder: the
    placeholder is replaced by the text of what the read of [key] gives. *)
Lemma render_response_key (rt : Runtime) (params : ApiToolExecuteParams)
    (scope : JsObject) (pre key post : string) :
  TemplateEngine.is_identifier key = true ->
  let ctx := response_context rt params scope in
  TemplateEngine.interpolateString
    (pre +:+ Spec.placeholder "response" key +:+ post) ctx (Some false)
  = (let* a := TemplateEngine.interpolateString pre ctx (Some false) in
     let* v := shown (lookup scope key) in
     let* b := TemplateEngine.interpolateString post ctx (Some false) in
     Ok (a +:+ v +:+ b)).
Proof.
  intros Hk ctx.
  rewrite (TemplateProperties.interpolate_placeholder ctx (Some false)
             pre "response" key post TemplateProperties.in_scopes_response Hk).
  now rewrite TemplateProperties.replacer_response.
Qed.

(** A template that is not wanted is not rendered. *)
Lemma rendered_unwanted (template : option string)
    (ctx : TemplateEngine.TemplateContext) :
  rendered false template ctx = Ok None.
Proof. unfold rendered. now destruct (declared_template template). Qed.

(** X10.  When a failed call returns an object, a [{{response.key}}]
    placeholder of the error template reads the payload's own property
    [key] when it has one; only otherwise does [{{response.status}}] read
    the HTTP status, and any other key what it names on
    [Object.prototype].  What is read is shown as [shown] has it, between
    the renderings of the text before and after the placeholder, and the
    result carries that text as its error, beside the status and the data;
    when one of the three throws, the result is the failure with that
    error instead. *)
Theorem error_template_reads_payload_first (rt : Runtime)
    (params : ApiToolExecuteParams) (rq : Request) (resp : Response)
    (props : JsRecord) (pre key post : string) :
  (executeApiTool rt params).1 = [rq] ->
  fetch rt rq = Ok resp ->
  parse_response resp = Ok (JObj props) ->
  Shape.distinct (map fst props) = true ->
  rs_ok resp = false ->
  Types.response (definition params) ≫= error_template
    = Some (pre +:+ Spec.placeholder "response" key +:+ post) ->
  TemplateEngine.is_identifier key = true ->
  let ctx :=
    response_context rt params (error_scope (rs_status resp) (JObj props)) in
  let value :=
    match assoc props key with
    | Some v => Data v
    | None =>
        if String.eqb key "status" then Data (JNum (Number_ofZ (rs_status resp)))
        else Object_prototype_member ObjectPrototype key
    end in
  (executeApiTool rt params).2
  = match (let* a := TemplateEngine.interpolateString pre ctx (Some false) in
           let* v := shown value in
           let* b := TemplateEngine.interpolateString post ctx (Some false) in
           Ok (a +:+ v +:+ b)) with
    | Ok text => completed resp (JObj props) None (Some text)
    | Throw msg => failure msg
    end.
Proof.
  intros Hlog Hfetch Hparse Hdistinct Hko Htemplate Hk ctx value.
  rewrite (completed_exchange rt params rq resp (JObj props) Hlog Hfetch Hparse).
  unfold finish. rewrite Hko, rendered_unwanted. cbn [negb].
  unfold rendered. rewrite Htemplate, declared_placeholder.
  rewrite (render_response_key rt params _ pre key post Hk). fold ctx.
  assert (lookup (error_scope (rs_status resp) (JObj props)) key = value) as ->.
  { unfold error_scope. cbn [is_object typeof JsType_eqb andb negb entries lookup].
    rewrite assoc_spread by now apply DeepProperties.distinct_NoDup.
    subst value. destruct (assoc props key); [reflexivity|].
    cbn [assoc]. rewrite String.eqb_sym.
    now destruct (String.eqb key "status"). }
  destruct (TemplateEngine.interpolateString pre ctx (Some false)); [|reflexivity].
  cbn [rbind]. destruct (shown value); [|reflexivity].
  cbn [rbind].
  now destruct (TemplateEngine.interpolateString post ctx (Some false)).
Qed.

(** X11.  When the body of the response is not an object, the summary
    template reads it as [{{response.value}}] and the error template as
    [{{response.message}}]; in the error template [{{response.status}}]
    reads the HTTP status, and any other key what it names on
    [Object.prototype].  The result carries the rendered text as summary or
    as error; when the rendering throws, the result is the failure with
    that error. *)
Theorem text_payload_scopes (rt : Runtime) (params : ApiToolExecuteParams)
    (rq : Request) (resp : Response) (d : JsValue) (pre post : string) :
  (executeApiTool rt params).1 = [rq] ->
  fetch rt rq = Ok resp ->
  parse_response resp = Ok d ->
  is_object d = false ->
  (rs_ok resp = true ->
   Types.response (definition params) ≫= Types.summary
     = Some (pre +:+ Spec.placeholder "response" "value" +:+ post) ->
   let ctx := response_context rt params (summary_scope d) in
   (executeApiTool rt params).2
   = match (let* a := TemplateEngine.interpolateString pre ctx (Some false) in
            let* v := shown (Data d) in
            let* b := TemplateEngine.interpolateString post ctx (Some false) in
            Ok (a +:+ v +:+ b)) with
     | Ok text => completed resp d (Some text) None
     | Throw msg => failure msg
     end)
  /\ (rs_ok resp = false ->
      forall key,
      Types.response (definition params) ≫= error_template
        = Some (pre +:+ Spec.placeholder "response" key +:+ post) ->
      TemplateEngine.is_identifier key = true ->
      let ctx := response_context rt params (error_scope (rs_status resp) d) in
      let value :=
        if String.eqb key "message" then Data d
        else if String.eqb key "status"
             then Data (JNum (Number_ofZ (rs_status resp)))
             else Object_prototype_member ObjectPrototype key in
      (executeApiTool rt params).2
      = match (let* a := TemplateEngine.interpolateString pre ctx (Some false) in
               let* v := shown value in
               let* b := TemplateEngine.interpolateString post ctx (Some false) in
               Ok (a +:+ v +:+ b)) with
        | Ok text => completed resp d None (Some text)
        | Throw msg => failure msg
        end).
Proof.
  intros Hlog Hfetch Hparse Hd.
  split.
  - intros Hok Htemplate ctx.
    rewrite (completed_exchange rt params rq resp d Hlog Hfetch Hparse).
    unfold finish. rewrite Hok. cbn [negb]. rewrite rendered_unwanted.
    unfold rendered. rewrite Htemplate, declared_placeholder.
    rewrite (render_response_key rt params _ pre "value" post eq_refl). fold ctx.
    assert (lookup (summary_scope d) "value" = Data d) as ->.
    { unfold summary_scope. destruct d; try discriminate Hd; reflexivity. }
    destruct (TemplateEngine.interpolateString pre ctx (Some false)); [|reflexivity].
    cbn [rbind]. destruct (shown (Data d)); [|reflexivity].
    cbn [rbind].
    now destruct (TemplateEngine.interpolateString post ctx (Some false)).
  - intros Hko key Htemplate Hk ctx value.
    rewrite (completed_exchange rt params rq resp d Hlog Hfetch Hparse).
    unfold finish. rewrite Hko, rendered_unwanted. cbn [negb].
    unfold rendered. rewrite Htemplate, declared_placeholder.
    rewrite (render_response_key rt params _ pre key post Hk). fold ctx.
    assert (lookup (error_scope (rs_status resp) d) key = value) as ->.
    { unfold error_scope. rewrite Hd. cbn [lookup].
      rewrite assoc_spread by (repeat constructor; simpl; tauto).
      subst value. cbn [assoc]. rewrite (String.eqb_sym "message").
      destruct (String.eqb key "message"); [reflexivity|].
      rewrite (String.eqb_sym "status").
      now destruct (String.eqb key "status"). }
    destruct (TemplateEngine.interpolateString pre ctx (Some false)); [|reflexivity].
    cbn [rbind]. destruct (shown value); [|reflexivity].
    cbn [rbind].
    now destruct (TemplateEngine.interpolateString post ctx (Some false)).
Qed.

End WithNumbers.

Import Reference Scenarios.

Lemma requests_pass_egress_checks_witness :
  let rt := sample_runtime ∅ 200 in
  exists rq h,
    (executeApiTool rt (call slow_tool)).1 = [rq]
    /\ rq_url rq = "https://httpbin.org/get"
    /\ URL_hostname rt (rq_url rq) = Some h
    /\ isPrivateHost h = false
    /\ isAllowedHost h ["httpbin.org"] = true.
Proof.
  intros rt.
  set (rq := {| rq_url := "https://httpbin.org/get"; rq_method := GET;
                rq_headers := []; rq_body := None; rq_timeout := 60000 |}).
  assert (Hin : In rq (executeApiTool rt (call slow_tool)).1)
    by (vm_compute; left; reflexivity).
  destruct (requests_pass_egress_checks rt (call slow_tool) rq Hin)
    as (Hlog & _ & _ & h & Hh & Hprivate & Hallowed).
  exists rq, h. repeat split; assumption.
Defined.

Lemma requests_have_required_env_witness :
  let rt := sample_runtime {[ "API_KEY" := "k" ]} 200 in
  (exists rq, In rq (executeApiTool rt (call keyed_tool)).1)
  /\ requires_env keyed_tool = Some ["API_KEY"]
  /\ Spec.inherited "API_KEY" = false
  /\ exists v, merged_env rt None !! "API_KEY" = Some v /\ v <> "".
Proof.
  intros rt.
  set (rq := {| rq_url := "https://api.example.com/k/test"; rq_method := GET;
                rq_headers := []; rq_body := None; rq_timeout := 30000 |}).
  assert (Hin : In rq (executeApiTool rt (call keyed_tool)).1)
    by (vm_compute; left; reflexivity).
  split; [now exists rq|]. split; [reflexivity|]. split; [reflexivity|].
  destruct (requests_have_required_env rt (call keyed_tool) rq ["API_KEY"] "API_KEY"
              Hin eq_refl (or_introl eq_refl)) as [Hown|[_ Hinherited]].
  - exact Hown.
  - discriminate Hinherited.
Defined.

Lemma result_is_consistent_witness :
  let r := (executeApiTool (sample_runtime ∅ 200) post_call).2 in
  success r = true
  /\ error r = None
  /\ exists s d, status r = Some s /\ 200 <= s <= 299 /\ data r = Some d.
Proof.
  intros r.
  assert (Hok : success r = true) by (vm_compute; reflexivity).
  split; [exact Hok|].
  exact (proj1 (result_is_consistent (sample_runtime ∅ 200) post_call) Hok).
Defined.

Lemma body_requests_carry_content_type_witness :
  let rt := sample_runtime ∅ 200 in
  exists rq,
    In rq (executeApiTool rt form_call).1
    /\ assoc (rq_headers rq) "Accept" = Some "text/plain"
    /\ assoc (rq_headers rq) "Content-Type"
       = Some "application/x-www-form-urlencoded".
Proof.
  intros rt.
  set (rq := {| rq_url := "https://api.example.com/search"; rq_method := POST;
                rq_headers := [("Accept", "text/plain");
                               ("Content-Type", "application/x-www-form-urlencoded")];
                rq_body := Some "q=rocq&page=2"; rq_timeout := 30000 |}).
  assert (Hin : In rq (executeApiTool rt form_call).1)
    by (vm_compute; left; reflexivity).
  exists rq. split; [exact Hin|].
  destruct (body_requests_carry_content_type rt form_call rq Hin)
    as (declared & Hdeclared & Hbody).
  vm_compute in Hdeclared. injection Hdeclared as <-.
  cbn [body request definition form_call form_tool body_type] in Hbody.
  destruct Hbody as (Hothers & v & Hv & _ & Hdefault).
  split.
  - now rewrite Hothers.
  - cbn in Hdefault. injection Hdefault as ->. exact Hv.
Defined.

Lemma error_template_reads_payload_first_witness :
  let rt := answering ∅ rate_limited in
  error (executeApiTool rt (call report_tool)).2
  = Some "Failed (rate_limited): ".
Proof.
  intros rt.
  set (rq := {| rq_url := "https://api.example.com/ping"; rq_method := GET;
                rq_headers := []; rq_body := None; rq_timeout := 30000 |}).
  assert (Hlog : (executeApiTool rt (call report_tool)).1 = [rq])
    by (vm_compute; reflexivity).
  pose proof (error_template_reads_payload_first rt (call report_tool) rq
                rate_limited rate_limited_payload
                "Failed (" "status" "): {{response.message}}"
                Hlog eq_refl eq_refl eq_refl eq_refl eq_refl eq_refl) as H.
  cbv zeta in H. rewrite H. vm_compute. reflexivity.
Defined.

Lemma text_payload_scopes_witness :
  let rt := answering ∅ (plain 200 "pong") in
  summary (executeApiTool rt (call report_tool)).2 = Some "Got pong".
Proof.
  intros rt.
  set (rq := {| rq_url := "https://api.example.com/ping"; rq_method := GET;
                rq_headers := []; rq_body := None; rq_timeout := 30000 |}).
  assert (Hlog : (executeApiTool rt (call report_tool)).1 = [rq])
    by (vm_compute; reflexivity).
  destruct (text_payload_scopes rt (call report_tool) rq (plain 200 "pong")
              (JStr "pong") "Got " "" Hlog eq_refl eq_refl eq_refl)
    as [Hsummary _].
  pose proof (Hsummary eq_refl eq_refl) as H.
  cbv zeta in H. rewrite H. vm_compute. reflexivity.
Defined.

End ExecutorMore.

(** ** index.ts: tenant, environment and labels of the registered tools *)

Module IndexProperties.
Import Js Types Executor Index Notions StringFacts ExecutorFacts.

Lemma split_slash_free (x : string) :
  slash_free x = true -> split "/" x = [x].
Proof.
  induction x as [|c x IH]; [reflexivity|].
  cbn [slash_free split]. intros H. apply andb_prop in H as [Hc Hx].
  apply negb_true_iff in Hc. rewrite Hc, (IH Hx). reflexivity.
Qed.

Lemma split_component (x rest : string) :
  slash_free x = true ->
  split "/" (x +:+ "/" +:+ rest) = x :: split "/" rest.
Proof.
  induction x as [|c x IH]; intros H.
  - rewrite app_nil_l. unfold_app. reflexivity.
  - cbn [slash_free] in H. apply andb_prop in H as [Hc Hx].
    apply negb_true_iff in Hc.
    rewrite app_cons. cbn [split]. rewrite Hc, (IH Hx). reflexivity.
Qed.

(** Splitting undoes joining, for components without a slash. *)
Lemma split_join (part : string) (parts : list string) :
  forallb slash_free (part :: parts) = true ->
  split "/" (join "/" (part :: parts)) = part :: parts.
Proof.
  revert part. induction parts as [|next parts IH]; intros part H.
  - cbn [forallb] in H. rewrite andb_true_r in H. now apply split_slash_free.
  - cbn [forallb] in H. apply andb_prop in H as [Hpart Hrest].
    change (join "/" (part :: next :: parts))
      with (part +:+ "/" +:+ join "/" (next :: parts)).
    rewrite (split_component _ _ Hpart). f_equal. now apply IH.
Qed.

Lemma indexOf_absent (xs : list string) (x : string) :
  ~ In x xs -> indexOf xs x = -1.
Proof.
  induction xs as [|y xs IH]; intros H; [reflexivity|].
  cbn [indexOf]. destruct (String.eqb_spec y x) as [->|Hne].
  - exfalso. apply H. now left.
  - rewrite IH by (intros Hin; apply H; now right). reflexivity.
Qed.

Lemma indexOf_first (pre : list string) (x : string) (rest : list string) :
  ~ In x pre -> indexOf (pre ++ x :: rest)%list x = Z.of_nat (length pre).
Proof.
  induction pre as [|y pre IH]; intros H.
  - cbn [app indexOf length]. now rewrite String.eqb_refl.
  - cbn [app indexOf length]. destruct (String.eqb_spec y x) as [->|Hne].
    + exfalso. apply H. now left.
    + rewrite IH by (intros Hin; apply H; now right).
      destruct (Z.ltb_spec (Z.of_nat (length pre)) 0); lia.
Qed.

(** X12.  The tenant of an agent directory is the path component in front
    of the first component [agents]. *)
Theorem tenant_precedes_agents (before : list string) (tenant : string)
    (after : list string) :
  forallb slash_free (before ++ tenant :: after)%list = true ->
  ~ In "agents" before ->
  tenant <> "agents" ->
  extractTenantId (join "/" (before ++ tenant :: "agents" :: after)%list)
  = Some tenant.
Proof.
  intros Hfree Hbefore Htenant.
  assert (Hsplit : split "/" (join "/" (before ++ tenant :: "agents" :: after)%list)
                   = (before ++ tenant :: "agents" :: after)%list).
  { assert (Hall : forallb slash_free (before ++ tenant :: "agents" :: after)%list
                   = true).
    { rewrite forallb_app in *. cbn [forallb] in *.
      apply andb_prop in Hfree as [-> Hfree].
      apply andb_prop in Hfree as [-> ->]. reflexivity. }
    destruct before as [|b before]; cbn [app] in *; now apply split_join. }
  unfold extractTenantId. rewrite Hsplit.
  assert (Hidx : indexOf (before ++ tenant :: "agents" :: after)%list "agents"
                 = Z.of_nat (length before) + 1).
  { change (before ++ tenant :: "agents" :: after)%list
      with (before ++ [tenant] ++ "agents" :: after)%list.
    rewrite List.app_assoc, indexOf_first.
    - rewrite List.length_app. cbn [length]. lia.
    - intros Hin. apply in_app_or in Hin as [Hin|[Hin|[]]]; [tauto|congruence]. }
  cbv zeta. rewrite Hidx.
  destruct (Z.ltb_spec 0 (Z.of_nat (length before) + 1)); [|lia].
  replace (Z.to_nat (Z.of_nat (length before) + 1 - 1)) with (length before) by lia.
  rewrite nth_error_app2 by lia. now rewrite Nat.sub_diag.
Qed.

(** X13.  A directory has no tenant when none of its components is
    [agents], or when [agents] is its first component; below a leading
    [/agents/] the tenant is the empty string. *)
Theorem tenant_edge_cases (part : string) (parts : list string) (rest : string) :
  (forallb slash_free (part :: parts) = true -> ~ In "agents" (part :: parts) ->
   extractTenantId (join "/" (part :: parts)) = None)
  /\ extractTenantId ("agents/" +:+ rest) = None
  /\ extractTenantId ("/agents/" +:+ rest) = Some "".
Proof.
  split; [|split].
  - intros Hfree Habsent. unfold extractTenantId.
    rewrite (split_join _ _ Hfree), (indexOf_absent _ _ Habsent). reflexivity.
  - unfold extractTenantId.
    change ("agents/" +:+ rest) with ("agents" +:+ "/" +:+ rest).
    rewrite split_component by reflexivity. reflexivity.
  - unfold extractTenantId.
    change ("/agents/" +:+ rest) with ("" +:+ "/" +:+ "agents" +:+ "/" +:+ rest).
    rewrite !split_component by reflexivity. reflexivity.
Qed.

Section WithNumbers.
Context {N : JsNumber}.

(** The tenant of the agent directory wins over every other source of
    [TENANT_ID]. *)
Lemma tenant_id_lookup (rt : Runtime) (tenantEnv : gmap string string)
    (agentDir : string) (agentId : option string) :
  agentDir <> "" ->
  merged_env rt (Some (build_extraEnv tenantEnv agentDir agentId)) !! "TENANT_ID"
  = Some (default "" (extractTenantId agentDir)).
Proof.
  intros Hdir. unfold merged_env, build_extraEnv.
  cbn [default from_option id].
  destruct (String.eqb_spec agentDir "") as [|_]; [contradiction|]. cbn [negb].
  apply lookup_union_Some_l.
  destruct agentId as [id|]; [destruct (String.eqb id "")|]; cbn [negb].
  - rewrite (left_id ∅ (∪)). apply lookup_union_Some_l, lookup_singleton_eq.
  - rewrite lookup_union_r by (now apply lookup_singleton_ne).
    apply lookup_union_Some_l, lookup_singleton_eq.
  - rewrite (left_id ∅ (∪)). apply lookup_union_Some_l, lookup_singleton_eq.
Qed.

(** X14.  The environment a registered tool runs with: [TENANT_ID] is the
    tenant of the agent directory, whatever the tenant's configuration or
    the process environment say; [AGENT_ID] is the agent's id when the
    context has one; every other name comes from the tenant's
    configuration first and from the process environment second. *)
Theorem registered_tool_environment (rt : Runtime)
    (tenantEnv : gmap string string) (agentDir : string)
    (agentId : option string) :
  agentDir <> "" ->
  let env := merged_env rt (Some (build_extraEnv tenantEnv agentDir agentId)) in
  env !! "TENANT_ID" = Some (default "" (extractTenantId agentDir))
  /\ (forall id, agentId = Some id -> id <> "" -> env !! "AGENT_ID" = Some id)
  /\ (forall key,
        key <> "TENANT_ID" ->
        key <> "AGENT_ID" \/ agentId = None \/ agentId = Some "" ->
        env !! key = match tenantEnv !! key with
                     | Some v => Some v
                     | None => process_env rt !! key
                     end).
Proof.
  intros Hdir env. subst env.
  split; [now apply tenant_id_lookup|].
  unfold merged_env, build_extraEnv.
  cbn [default from_option id].
  destruct (String.eqb_spec agentDir "") as [|_]; [contradiction|]. cbn [negb].
  split.
  - intros id -> Hid.
    destruct (String.eqb_spec id "") as [|_]; [contradiction|]. cbn [negb].
    apply lookup_union_Some_l, lookup_union_Some_l, lookup_singleton_eq.
  - intros key Htenant Hagent.
    assert (Hidentity :
      match agentId return gmap string string with
      | Some id => if negb (String.eqb id "") then {[ "AGENT_ID" := id ]} else ∅
      | None => ∅
      end !! key = None).
    { destruct agentId as [id|]; [|apply lookup_empty].
      destruct (String.eqb_spec id "") as [->|Hid]; cbn [negb];
        [apply lookup_empty|].
      apply lookup_singleton_ne.
      destruct Hagent as [H|[H|H]]; congruence. }
    rewrite <- (assoc_L (∪)), <- (assoc_L (∪)).
    rewrite lookup_union_r by exact Hidentity.
    rewrite lookup_union_r by (apply lookup_singleton_ne; congruence).
    destruct (tenantEnv !! key) as [v|] eqn:Hv.
    + now apply lookup_union_Some_l.
    + now rewrite lookup_union_r.
Qed.

(** X15.  A tool that requires [TENANT_ID] makes no request when the agent
    directory has no tenant: the invocation fails with the list of missing
    variables, even when the tenant's configuration or the process
    environment define [TENANT_ID]. *)
Theorem tenantless_tool_fails (rt : Runtime) (tenantEnv : gmap string string)
    (agentDir : string) (agentId : option string)
    (def : ApiToolDefinition) (args : JsRecord) (requires : list string) :
  agentDir <> "" ->
  default "" (extractTenantId agentDir) = "" ->
  requires_env def = Some requires ->
  In "TENANT_ID" requires ->
  exists missing,
    In "TENANT_ID" missing
    /\ execute rt (build_extraEnv tenantEnv agentDir agentId) def args
       = ([], failure ("Missing required environment variables: "
                       +:+ join ", " missing)).
Proof.
  intros Hdir Htenant Hreq Hin.
  pose proof (tenant_id_lookup rt tenantEnv agentDir agentId Hdir) as Hlookup.
  rewrite Htenant in Hlookup.
  set (extra := build_extraEnv tenantEnv agentDir agentId) in *.
  exists (Spec.missing_names rt requires (Some extra)).
  split.
  - unfold Spec.missing_names. apply filter_In. split; [exact Hin|].
    now apply ExecutorProperties.empty_is_falsy.
  - unfold execute. apply env_failure. cbn [definition Types.extraEnv].
    rewrite Hreq. apply (checkRequiredEnvVars_missing _ _ _ "TENANT_ID" Hin).
    now apply ExecutorProperties.empty_is_falsy.
Qed.

End WithNumbers.

Lemma label_name_chars (a b : string) :
  all_name_chars a = true -> all_name_chars b = true ->
  label a = label b -> a = b.
Proof.
  revert b. induction a as [|c a IH]; intros [|d b] Ha Hb E;
    try reflexivity; try discriminate E.
  cbn [all_name_chars] in Ha, Hb.
  apply andb_prop in Ha as [Hc Ha]. apply andb_prop in Hb as [Hd Hb].
  cbn [label] in E. injection E as Ecd Eab.
  f_equal; [|now apply IH].
  destruct (Ascii.eqb_spec c "_") as [->|Hc'], (Ascii.eqb_spec d "_") as [->|Hd'];
    try reflexivity; try assumption.
  - subst d. discriminate Hd.
  - subst c. discriminate Hc.
Qed.

(** X16.  The label of a tool has the length of its name and no
    underscore, and two valid tool names with the same label are the same
    name. *)
Theorem labels_identify_tools (name other : string) :
  String.length (label name) = String.length name
  /\ includes (label name) "_" = false
  /\ (is_tool_name name = true -> is_tool_name other = true ->
      label name = label other -> name = other).
Proof.
  split; [|split].
  - induction name as [|c name IH]; [reflexivity|]. cbn [label String.length].
    now rewrite IH.
  - induction name as [|c name IH]; [reflexivity|].
    cbn [label includes startsWith]. rewrite IH, orb_false_r, andb_true_r.
    destruct (Ascii.eqb_spec c "_") as [->|Hc]; [reflexivity|].
    apply Ascii.eqb_neq. congruence.
  - intros Hname Hother E.
    destruct name as [|c name], other as [|d other]; try discriminate.
    cbn [is_tool_name] in Hname, Hother.
    apply andb_prop in Hname as [Hc Hname].
    apply andb_prop in Hother as [Hd Hother].
    apply label_name_chars; [| |exact E]; cbn [all_name_chars];
      unfold name_char; [rewrite Hc | rewrite Hd]; assumption.
Qed.

Import Reference Scenarios.

Lemma tenant_precedes_agents_witness :
  extractTenantId agent_directory = Some "acme".
Proof.
  refine (tenant_precedes_agents [""; "data"; "tenants"] "acme" ["support"]
            eq_refl _ _).
  - simpl. intuition discriminate.
  - discriminate.
Defined.

Lemma tenant_edge_cases_witness :
  extractTenantId stray_directory = None
  /\ extractTenantId "agents/support" = None
  /\ extractTenantId "/agents/support" = Some "".
Proof.
  destruct (tenant_edge_cases "" ["srv"; "bot"] "support") as (Hnone & Hfirst & Hroot).
  split; [|split; [exact Hfirst | exact Hroot]].
  apply Hnone; [reflexivity|]. simpl. intuition discriminate.
Defined.

Lemma registered_tool_environment_witness :
  let rt := sample_runtime {[ "TENANT_ID" := "spoofed"; "REGION" := "eu" ]} 200 in
  let env :=
    merged_env rt
      (Some (build_extraEnv tenant_config agent_directory (Some "support"))) in
  env !! "TENANT_ID" = Some "acme"
  /\ env !! "AGENT_ID" = Some "support"
  /\ env !! "API_KEY" = Some "k1"
  /\ env !! "REGION" = Some "eu".
Proof.
  intros rt env.
  destruct (registered_tool_environment rt tenant_config agent_directory
              (Some "support") ltac:(discriminate))
    as (Htenant & Hagent & Hother).
  split; [exact Htenant|].
  split; [exact (Hagent "support" eq_refl ltac:(discriminate))|].
  split.
  - etrans; [apply Hother; [discriminate | left; discriminate]|].
    vm_compute. reflexivity.
  - etrans; [apply Hother; [discriminate | left; discriminate]|].
    vm_compute. reflexivity.
Defined.

Lemma tenantless_tool_fails_witness :
  let rt := sample_runtime {[ "TENANT_ID" := "spoofed" ]} 200 in
  exists missing,
    In "TENANT_ID" missing
    /\ execute rt (build_extraEnv tenant_config stray_directory (Some "support"))
         tenant_tool []
       = ([], failure ("Missing required environment variables: "
                       +:+ join ", " missing)).
Proof.
  intros rt.
  exact (tenantless_tool_fails rt tenant_config stray_directory (Some "support")
           tenant_tool [] ["TENANT_ID"] ltac:(discriminate) eq_refl eq_refl
           (or_introl eq_refl)).
Defined.

Lemma labels_identify_tools_witness :
  is_tool_name "get_weather" = true
  /\ label "get_weather" = "get weather"
  /\ forall other, is_tool_name other = true ->
       label other = "get weather" -> other = "get_weather".
Proof.
  split; [reflexivity|]. split; [reflexivity|].
  intros other Hother E. symmetry.
  exact (proj2 (proj2 (labels_identify_tools "get_weather" other))
           eq_refl Hother (eq_sym E)).
Defined.

End IndexProperties.

(** ** executor.ts: the host names [isPrivateHost] blocks *)

Module HostCharacterisation.
Import Js Executor Notions StringFacts RegExpSemantics RegExpFacts HostFacts.

(** With the [i] flag a literal matches the strings that agree with it up
    to the case of ASCII letters. *)
Lemma Matches_lit_ignoreCase (p s : string) :
  RegExp.Matches true (RegExp.lit p) s <-> upper_string s = upper_string p.
Proof.
  split.
  - revert s. induction p as [|c p IH]; cbn [RegExp.lit]; intros s H.
    + now inversion H.
    + inversion H as [ | | | | |a b s1 s2 Hc Hp| | ]; subst.
      inversion Hc as [ |p' d E| | | | | | ]; subst.
      unfold RegExp.chr_matches in E. apply Ascii.eqb_eq in E.
      rewrite app_cons, app_nil_l. cbn [upper_string].
      now rewrite E, (IH _ Hp).
  - revert s. induction p as [|c p IH]; intros [|d s] E;
      cbn [upper_string] in E; try discriminate E.
    + constructor.
    + injection E as Ed Es. cbn [RegExp.lit].
      change (String d s) with (String d "" +:+ s).
      apply RegExp.M_Seq; [|now apply IH].
      constructor. unfold RegExp.chr_matches. rewrite Ed. apply Ascii.eqb_refl.
Qed.

Lemma Matches_two_chars (p lo hi : ascii) (w : string) :
  RegExp.Matches false (RegExp.Seq (RegExp.Chr p) (RegExp.Rng lo hi)) w ->
  exists c, w = String p (String c "") /\ RegExp.in_range lo hi c = true.
Proof.
  intros H. inversion H as [ | | | | |a b s1 s2 H1 H2| | ]; subst.
  inversion H1 as [ |p' c1 E1| | | | | | ]; subst.
  inversion H2 as [ | |lo' hi' c2 E2| | | | | ]; subst.
  apply Ascii.eqb_eq in E1 as <-.
  exists c2. split; [reflexivity | exact E2].
Qed.

Lemma Matches_second_octet (w : string) :
  RegExp.Matches false second_octet w ->
  exists n, (16 <= n <= 31)%nat /\ w = Spec.numeral n.
Proof.
  intros H. unfold second_octet in H.
  inversion H as [ | | |a b s Hl|a b s Hr| | | ]; subst;
    [|inversion Hr as [ | | |a b s Hl|a b s Hr'| | | ]; subst];
    match goal with
    | Hm : RegExp.Matches false (RegExp.Seq _ _) _ |- _ =>
        apply Matches_two_chars in Hm as (c & -> & Hc)
    end;
    destruct c as [[] [] [] [] [] [] [] []];
    try (vm_compute in Hc; discriminate Hc);
    first [ exists 16%nat; split; [lia | reflexivity]
          | exists 17%nat; split; [lia | reflexivity]
          | exists 18%nat; split; [lia | reflexivity]
          | exists 19%nat; split; [lia | reflexivity]
          | exists 20%nat; split; [lia | reflexivity]
          | exists 21%nat; split; [lia | reflexivity]
          | exists 22%nat; split; [lia | reflexivity]
          | exists 23%nat; split; [lia | reflexivity]
          | exists 24%nat; split; [lia | reflexivity]
          | exists 25%nat; split; [lia | reflexivity]
          | exists 26%nat; split; [lia | reflexivity]
          | exists 27%nat; split; [lia | reflexivity]
          | exists 28%nat; split; [lia | reflexivity]
          | exists 29%nat; split; [lia | reflexivity]
          | exists 30%nat; split; [lia | reflexivity]
          | exists 31%nat; split; [lia | reflexivity] ].
Qed.

(** A pattern anchored at the start and open at the end. *)
Lemma test_anchored_prefix (body : RegExp.re) (h : string) :
  RegExp.test
    {| RegExp.anchor_start := true; RegExp.body := body;
       RegExp.anchor_end := false; RegExp.ignoreCase := false |} h = true ->
  exists w rest, h = w +:+ rest /\ RegExp.Matches false body w.
Proof.
  intros H. apply test_spec in H as (pre & w & post & -> & Hw & Hs & _).
  cbn in Hs, Hw. rewrite (Hs eq_refl), app_nil_l. now exists w, post.
Qed.

Lemma test_literal_prefix (p h : string) :
  RegExp.test
    {| RegExp.anchor_start := true; RegExp.body := RegExp.lit p;
       RegExp.anchor_end := false; RegExp.ignoreCase := false |} h = true ->
  exists rest, h = p +:+ rest.
Proof.
  intros H. apply test_anchored_prefix in H as (w & rest & -> & Hw).
  apply (Matches_lit_inv p) in Hw as ->. now exists rest.
Qed.

(** A case-insensitive literal anchored at the end. *)
Lemma test_literal_suffix (p h : string) :
  RegExp.test
    {| RegExp.anchor_start := false; RegExp.body := RegExp.lit p;
       RegExp.anchor_end := true; RegExp.ignoreCase := true |} h = true <->
  exists labels suffix,
    h = labels +:+ suffix /\ upper_string suffix = upper_string p.
Proof.
  rewrite test_spec. cbn. split.
  - intros (pre & w & post & -> & Hw & _ & He).
    rewrite (He eq_refl), app_nil_r. exists pre, w.
    split; [reflexivity | now apply Matches_lit_ignoreCase].
  - intros (labels & suffix & -> & E).
    exists labels, suffix, "". rewrite app_nil_r.
    split; [reflexivity|]. split; [now apply Matches_lit_ignoreCase|].
    split; [discriminate | reflexivity].
Qed.

Lemma test_localhost (h : string) :
  RegExp.test
    {| RegExp.anchor_start := true; RegExp.body := RegExp.lit "localhost";
       RegExp.anchor_end := true; RegExp.ignoreCase := true |} h = true <->
  upper_string h = upper_string "localhost".
Proof.
  unfold RegExp.test, RegExp.matches_here.
  cbn [RegExp.anchor_start RegExp.anchor_end RegExp.ignoreCase RegExp.body].
  rewrite matches_all_spec. apply Matches_lit_ignoreCase.
Qed.

(** X17.  [isPrivateHost] blocks the metadata address, [localhost],
    the names that end in [.local] or [.internal] (all three in any letter
    case), and the names that start with [127.], [10.], [192.168.],
    [169.254.] or [172.16.] to [172.31.]; it blocks nothing else. *)
Theorem private_hosts_characterised (h : string) :
  isPrivateHost h = true <-> private_host h.
Proof.
  split.
  - unfold isPrivateHost.
    destruct (array_includes BLOCKED_HOSTS h) eqn:Hblocked.
    { intros _. unfold array_includes, BLOCKED_HOSTS in Hblocked.
      cbn [existsb] in Hblocked. rewrite orb_false_r in Hblocked.
      apply String.eqb_eq in Hblocked as ->. constructor. }
    unfold PRIVATE_IP_PATTERNS. cbn [existsb]. rewrite !orb_true_iff.
    intros [H|[H|[H|[H|[H|[H|[H|[H|H]]]]]]]]; [| | | | | | | |discriminate H].
    + apply ph_localhost. now apply test_localhost.
    + apply test_literal_prefix in H as [rest ->]. apply ph_127.
    + apply test_literal_prefix in H as [rest ->]. apply ph_10.
    + apply test_anchored_prefix in H as (w & rest & -> & Hw).
      inversion Hw as [ | | | | |a b s1 s2 H1 H2| | ]; subst.
      apply (Matches_lit_inv "172.") in H1 as ->.
      inversion H2 as [ | | | | |a b s3 s4 H3 H4| | ]; subst.
      apply (Matches_second_octet s3) in H3 as (n & Hn & ->).
      inversion H4 as [ |p d E| | | | | | ]; subst.
      apply Ascii.eqb_eq in E as <-.
      rewrite !app_assoc. now apply ph_172.
    + apply test_literal_prefix in H as [rest ->]. apply ph_192_168.
    + apply test_literal_prefix in H as [rest ->]. apply ph_169_254.
    + apply test_literal_suffix in H as (labels & suffix & -> & E).
      now apply ph_local.
    + apply test_literal_suffix in H as (labels & suffix & -> & E).
      now apply ph_internal.
  - intros [ |h' E|rest|rest|n rest Hn|rest|rest|labels suffix E|labels suffix E].
    + reflexivity.
    + apply (blocked_by_pattern 0 _ _ eq_refl). now apply test_localhost.
    + apply (blocked_by_pattern 1 _ _ eq_refl). now apply test_prefix.
    + apply (blocked_by_pattern 2 _ _ eq_refl). now apply test_prefix.
    + apply (blocked_by_pattern 3 _ _ eq_refl).
      rewrite <- (app_assoc (Spec.numeral n) "." rest).
      rewrite <- (app_assoc "172." _ rest).
      apply test_prefix; [reflexivity | reflexivity |].
      do 16 (destruct n as [|n]; [lia|]).
      do 16 (destruct n as [|n]; [vm_compute; reflexivity|]).
      lia.
    + apply (blocked_by_pattern 4 _ _ eq_refl). now apply test_prefix.
    + apply (blocked_by_pattern 5 _ _ eq_refl). now apply test_prefix.
    + apply (blocked_by_pattern 6 _ _ eq_refl).
      apply test_literal_suffix. now exists labels, suffix.
    + apply (blocked_by_pattern 7 _ _ eq_refl).
      apply test_literal_suffix. now exists labels, suffix.
Qed.

Lemma private_hosts_characterised_witness :
  private_host "LocalHost" /\ private_host "db.Internal"
  /\ ~ private_host "172.32.0.1" /\ ~ private_host "localhost.example.com".
Proof.
  split; [apply private_hosts_characterised; reflexivity|].
  split; [apply private_hosts_characterised; reflexivity|].
  split; intros H; apply private_hosts_characterised in H;
    vm_compute in H; discriminate H.
Defined.

End HostCharacterisation.

(** ** yaml-loader.ts: names, counts and the fields that are not checked *)

Module LoaderMore.
Import Js YamlLoader Notions StringFacts RegExpSemantics TemplateFacts
  LoaderProperties.

(** [[a-z0-9_]] *)
Lemma Matches_name_char (w : string) :
  RegExp.Matches false
    (RegExp.Alt (RegExp.Rng "a" "z")
       (RegExp.Alt (RegExp.Rng "0" "9") (RegExp.Chr "_"))) w
  <-> exists c, w = String c "" /\ name_char c = true.
Proof.
  unfold name_char, lower_letter. split.
  - intros H.
    inversion H as [ | | |a b s Hl|a b s Hr| | | ]; subst.
    + inversion Hl as [ | |lo hi c E| | | | | ]; subst.
      exists c. split; [reflexivity|]. cbn in E. now rewrite E.
    + inversion Hr as [ | | |a b s Hl|a b s Hr'| | | ]; subst.
      * inversion Hl as [ | |lo hi c E| | | | | ]; subst.
        exists c. split; [reflexivity|]. cbn in E. rewrite E.
        now rewrite orb_true_r.
      * inversion Hr' as [ |p c E| | | | | | ]; subst.
        exists c. split; [reflexivity|].
        unfold RegExp.chr_matches in E. rewrite Ascii.eqb_sym in E.
        rewrite E. apply orb_true_r.
  - intros (c & -> & H). rewrite !orb_true_iff in H.
    destruct H as [[H|H]|H].
    + apply RegExp.M_Alt_l. now constructor.
    + apply RegExp.M_Alt_r, RegExp.M_Alt_l. now constructor.
    + apply RegExp.M_Alt_r, RegExp.M_Alt_r. constructor.
      unfold RegExp.chr_matches. now rewrite Ascii.eqb_sym.
Qed.

Lemma Matches_name_chars (k : string) :
  RegExp.Matches false
    (RegExp.Star
       (RegExp.Alt (RegExp.Rng "a" "z")
          (RegExp.Alt (RegExp.Rng "0" "9") (RegExp.Chr "_")))) k
  <-> all_name_chars k = true.
Proof.
  split.
  - intros H.
    apply (Matches_one_char _ k name_char) in H; [exact H|].
    intros w Hw. now apply Matches_name_char.
  - induction k as [|c k IH]; cbn [all_name_chars]; intros H; [constructor|].
    apply andb_prop in H as [Hc Hk].
    change (String c k) with (String c "" +:+ k).
    apply RegExp.M_Star_more; [|now apply IH].
    apply Matches_name_char. now exists c.
Qed.

(** [TOOL_NAME_PATTERN] accepts a lower-case letter followed by lower-case
    letters, digits and underscores, and nothing else. *)
Lemma tool_name_pattern_spec (s : string) :
  RegExp.test TOOL_NAME_PATTERN s = true <-> is_tool_name s = true.
Proof.
  unfold RegExp.test, RegExp.matches_here, TOOL_NAME_PATTERN.
  cbn [RegExp.anchor_start RegExp.anchor_end RegExp.ignoreCase RegExp.body].
  rewrite matches_all_spec. split.
  - intros H. inversion H as [ | | | | |a b s1 s2 H1 H2| | ]; subst.
    inversion H1 as [ | |lo hi c E| | | | | ]; subst.
    rewrite app_cons, app_nil_l. cbn [is_tool_name].
    cbn in E. unfold lower_letter. rewrite E.
    now apply Matches_name_chars.
  - destruct s as [|c s]; cbn [is_tool_name]; [discriminate|].
    intros H. apply andb_prop in H as [Hc Hs].
    change (String c s) with (String c "" +:+ s).
    apply RegExp.M_Seq; [now constructor | now apply Matches_name_chars].
Qed.

Section WithNumbers.
Context {N : JsNumber}.

Lemma loaded_from_file (h : Host) (agentDir : string) (d : JsValue) :
  In d (loadToolDefinitions h agentDir).1 ->
  exists file,
    Spec.definition_of h (path_join h agentDir "api-tools") file = Some d.
Proof.
  unfold loadToolDefinitions.
  destruct (existsSync h _); cbn [negb]; [|intros []].
  destruct (readdirSync h _) as [files|msg]; [|intros []].
  rewrite load_files_spec. cbn [fst app]. intros Hin.
  apply list_elem_of_In, list_elem_of_omap in Hin as (file & _ & Hfile).
  now exists file.
Qed.

(** X18.  Every loaded definition has a string [name] that consists of a
    lower-case letter followed by lower-case letters, digits and
    underscores; these are exactly the strings [TOOL_NAME_PATTERN]
    accepts. *)
Theorem loaded_names_are_tool_names (h : Host) (agentDir : string) :
  (forall s, RegExp.test TOOL_NAME_PATTERN s = true <-> is_tool_name s = true)
  /\ (forall d, In d (loadToolDefinitions h agentDir).1 ->
        exists name, prop d "name" = JStr name /\ is_tool_name name = true).
Proof.
  split; [exact tool_name_pattern_spec|].
  intros d Hin.
  destruct (loaded_from_file h agentDir d Hin) as [file Hfile].
  apply definition_of_valid in Hfile.
  unfold Spec.passes_validation in Hfile.
  do 6 (apply andb_prop in Hfile as [Hfile _]).
  apply andb_prop in Hfile as [_ Hname].
  unfold Spec.valid_name in Hname.
  destruct (prop d "name") as [| | | |name| |]; try discriminate Hname.
  exists name. split; [reflexivity | now apply tool_name_pattern_spec].
Qed.

Lemma other_file_ignored (h : Host) (dir file : string) :
  Spec.is_tool_file file = false ->
  Spec.definition_of h dir file = None /\ Spec.diagnostic_of h dir file = None.
Proof.
  intros H. unfold Spec.definition_of, Spec.diagnostic_of. now rewrite H.
Qed.

Lemma outcomes_count (h : Host) (dir : string) (files : list string) :
  (length (omap (Spec.definition_of h dir) files)
   + length (omap (Spec.diagnostic_of h dir) files))%nat
  = length (List.filter Spec.is_tool_file files).
Proof.
  induction files as [|file files IH]; [reflexivity|].
  cbn [omap list_omap List.filter].
  destruct (Spec.is_tool_file file) eqn:Htool.
  - pose proof (tool_file_outcome h dir file Htool) as H.
    destruct (Spec.definition_of h dir file) as [d|].
    + rewrite H. cbn [length]. lia.
    + destruct H as (w & -> & _). cbn [length]. lia.
  - destruct (other_file_ignored h dir file Htool) as [-> ->]. exact IH.
Qed.

(** X19.  Every file of the directory whose name ends in [.yaml] or
    [.yml] is accounted for exactly once, by a loaded definition or by a
    warning; the other files leave no trace. *)
Theorem tool_files_accounted_for (h : Host) (agentDir : string)
    (files : list string) :
  existsSync h (path_join h agentDir "api-tools") = true ->
  readdirSync h (path_join h agentDir "api-tools") = Ok files ->
  (length (loadToolDefinitions h agentDir).1
   + length (loadToolDefinitions h agentDir).2)%nat
  = length (List.filter Spec.is_tool_file files).
Proof.
  intros Hexists Hfiles. unfold loadToolDefinitions.
  rewrite Hexists, Hfiles. cbn [negb].
  rewrite load_files_spec. cbn [fst snd app]. apply outcomes_count.
Qed.

(** A property read is not affected by an assignment to another
    property. *)
Lemma prop_assign_other (props : JsRecord) (key k : string) (v : JsValue) :
  key <> k -> prop (JObj (assign props key v)) k = prop (JObj props) k.
Proof.
  intros Hne. unfold prop, get. cbn [own_properties].
  now rewrite ExecutorMore.assoc_assign_other.
Qed.

(** X20.  Validation reads [name], [description], [request],
    [allowed_hosts] and [parameters] only: setting any other property of a
    definition, to any value, changes neither the verdict nor the
    warning. *)
Theorem other_properties_are_not_validated (props : JsRecord)
    (key : string) (v : JsValue) (filename : string) :
  ~ In key ["name"; "description"; "request"; "allowed_hosts"; "parameters"] ->
  validateDefinition (JObj (assign props key v)) filename
  = match validateDefinition (JObj props) filename with
    | inl warning => inl warning
    | inr _ => inr (JObj (assign props key v))
    end.
Proof.
  intros Hkey.
  assert (Hread : forall k,
            In k ["name"; "description"; "request"; "allowed_hosts"; "parameters"] ->
            prop (JObj (assign props key v)) k = prop (JObj props) k).
  { intros k Hk. apply prop_assign_other. intros ->. contradiction. }
  unfold validateDefinition.
  rewrite (Hread "name"), (Hread "description"), (Hread "request"),
    (Hread "allowed_hosts"), (Hread "parameters")
    by (cbn [In]; tauto).
  change (not_an_object (JObj (assign props key v))) with false.
  change (not_an_object (JObj props)) with false.
  cbv iota.
  repeat match goal with
  | |- context [if ?c then _ else _] =>
      lazymatch c with
      | context [if _ then _ else _] => fail
      | _ => destruct c
      end
  end; try reflexivity;
  destruct (check_parameters filename (entries (prop (JObj props) "parameters")));
  reflexivity.
Qed.

End WithNumbers.

Import Reference.

Lemma loaded_names_are_tool_names_witness :
  In test_tool_tree (loadToolDefinitions sample_host "/agent").1
  /\ exists name,
       prop test_tool_tree "name" = JStr name /\ is_tool_name name = true.
Proof.
  assert (Hin : In test_tool_tree (loadToolDefinitions sample_host "/agent").1)
    by (vm_compute; left; reflexivity).
  split; [exact Hin|].
  exact (proj2 (loaded_names_are_tool_names sample_host "/agent") _ Hin).
Defined.

Lemma tool_files_accounted_for_witness :
  (length (loadToolDefinitions sample_host "/agent").1
   + length (loadToolDefinitions sample_host "/agent").2)%nat = 3%nat.
Proof.
  exact (tool_files_accounted_for sample_host "/agent"
           ["bad.yaml"; "test_tool.yaml"; "notes.txt"; "broken.yml"]
           eq_refl eq_refl).
Defined.

Lemma other_properties_are_not_validated_witness :
  validateDefinition
    (JObj (assign (entries test_tool_tree) "requires_env" (JStr "not a list")))
    "test_tool.yaml"
  = inr (JObj (assign (entries test_tool_tree) "requires_env" (JStr "not a list"))).
Proof.
  refine (other_properties_are_not_validated (entries test_tool_tree)
            "requires_env" (JStr "not a list") "test_tool.yaml" _).
  simpl. intuition discriminate.
Defined.

End LoaderMore.

(** ** executor.ts: environment placeholders of a request *)

Module RequestEnvironment.
Import Js Types TemplateEngine TemplateScan Shape Executor Rendering
  StringFacts TemplateFacts TemplateMore DeepProperties ExecutorFacts
  ExecutorMore.

Section WithNumbers.
Context {N : JsNumber}.

(** Strict interpolation succeeds only when the key of every
    [{{env.KEY}}] placeholder resolves in the env scope. *)
Lemma strict_ok_env_present (template : string) (ctx : TemplateContext)
    (out key : string) :
  interpolateString template ctx None = Ok out ->
  In key (env_keys template) ->
  env ctx !! key <> None \/ Spec.inherited key = true.
Proof.
  intros Hout Hkey. apply env_member_defined.
  apply in_env_keys in Hkey as (m & Hin & Hs & <-).
  unfold interpolateString, replace in Hout.
  apply replace_from_succeeded in Hout.
  rewrite List.Forall_forall in Hout. destruct (Hout m Hin) as [v Hv].
  unfold replacer in Hv. rewrite Hs in Hv.
  cbn [String.eqb Ascii.eqb Bool.eqb default] in Hv.
  destruct (member_undefined (env_member (env ctx) (m_key m)));
    [discriminate Hv | reflexivity].
Qed.

Lemma headers_resolved (ctx : TemplateContext) (entries acc hs : list (string * string))
    (name template : string) :
  interpolate_headers ctx entries acc = Ok hs ->
  In (name, template) entries ->
  exists out, interpolateString template ctx None = Ok out.
Proof.
  revert acc. induction entries as [|[k t] entries IH]; intros acc H Hin;
    [destruct Hin|].
  cbn [interpolate_headers] in H.
  destruct (interpolateString t ctx None) as [v|e] eqn:E;
    cbn [rbind] in H; [|discriminate].
  destruct Hin as [[= <- <-]|Hin]; [eauto|].
  now apply (IH (set acc k v)).
Qed.

Lemma deep_resolved (value : JsValue) (ctx : TemplateContext)
    (strictEnv : option bool) (out : Interpolated) (s : string) :
  interpolateDeep value ctx strictEnv = Ok out ->
  In s (strings_of value) ->
  exists o, interpolateString s ctx strictEnv = Ok o.
Proof.
  revert out. induction value as [ | |b|n|t|xs IHxs|ps IHps]
    using JsValue_nested_ind; intros out H Hin; simpl in H, Hin;
    try (destruct Hin; fail).
  - destruct Hin as [<-|[]].
    destruct (interpolateString t ctx strictEnv) as [t'|e];
      simpl in H; [eauto | discriminate].
  - match type of H with
    | rbind ?m _ = _ => destruct m as [ys|e] eqn:E; simpl in H; [|discriminate]
    end.
    clear H. revert ys E Hin.
    induction IHxs as [|x xs Hx _ IH]; intros ys E Hin; [destruct Hin|].
    destruct (interpolateDeep x ctx strictEnv) as [x'|e] eqn:Ex;
      simpl in E; [|discriminate].
    match type of E with
    | rbind ?m _ = _ => destruct m as [ys'|e] eqn:Er; simpl in E; [|discriminate]
    end.
    apply in_app_or in Hin as [Hin|Hin].
    + now apply (Hx x').
    + now apply (IH ys').
  - match type of H with
    | rbind ?m _ = _ => destruct m as [qs|e] eqn:E; simpl in H; [|discriminate]
    end.
    clear H. revert qs E Hin.
    generalize (@None Interpolated, @nil (string * Interpolated)) as acc.
    induction IHps as [|[k x] ps Hx _ IH]; intros acc qs E Hin; [destruct Hin|].
    destruct (interpolateDeep x ctx strictEnv) as [x'|e] eqn:Ex;
      simpl in E; [|discriminate].
    apply in_app_or in Hin as [Hin|Hin].
    + now apply (Hx x').
    + now apply (IH (set_interpolated acc k x') qs).
Qed.

(** X21.  No request is made with an unresolved environment placeholder:
    when [fetch] is called, the key of every [{{env.KEY}}] placeholder of
    the URL template, of the header templates and of the strings of the
    body content is defined by the merged environment, or it is no variable
    of that environment and names a member inherited from
    [Object.prototype]. *)
Theorem requests_resolve_env_placeholders (rt : Runtime)
    (params : ApiToolExecuteParams) (rq : Request) (template key : string) :
  In rq (executeApiTool rt params).1 ->
  In template (request_templates (request (definition params))) ->
  In key (env_keys template) ->
  (exists v, merged_env rt (extraEnv params) !! key = Some v)
  \/ (merged_env rt (extraEnv params) !! key = None /\ Spec.inherited key = true).
Proof.
  intros Hin Htemplate Hkey.
  destruct (request_history rt params rq Hin)
    as (_ & _ & Hurl & _ & _ & _ & hs & Hhs & Hbody).
  assert (Hresolved : exists out,
            interpolateString template (call_context rt params) None = Ok out).
  { unfold request_templates in Htemplate.
    destruct Htemplate as [<-|Htemplate]; [eauto|].
    apply in_app_or in Htemplate as [Hheader|Hstring].
    - destruct (headers (request (definition params))) as [declared|];
        [|destruct Hheader].
      cbn [default from_option id] in Hheader.
      apply in_map_iff in Hheader as ([name t] & <- & Hheader).
      now apply (headers_resolved _ declared [] hs name t).
    - destruct (body (request (definition params))) as [b|]; [|destruct Hstring].
      unfold build_body in Hbody.
      destruct (interpolateDeep (body_content b) (call_context rt params) None)
        as [content|e] eqn:Hdeep; cbn [rbind] in Hbody; [|discriminate].
      now apply (deep_resolved (body_content b) _ None content). }
  destruct Hresolved as [out Hout].
  pose proof (strict_ok_env_present template _ out key Hout Hkey) as Hpresent.
  cbn [call_context env] in Hpresent.
  destruct (merged_env rt (extraEnv params) !! key) as [v|]; [eauto|].
  right. split; [reflexivity|]. now destruct Hpresent.
Qed.

End WithNumbers.

Import Reference Scenarios.

Lemma requests_resolve_env_placeholders_witness :
  let rt := sample_runtime {[ "API_KEY" := "k" ]} 200 in
  (exists rq, In rq (executeApiTool rt (call keyed_tool)).1)
  /\ In "API_KEY" (env_keys (url (request keyed_tool)))
  /\ Spec.inherited "API_KEY" = false
  /\ exists v, merged_env rt None !! "API_KEY" = Some v.
Proof.
  intros rt.
  set (rq := {| rq_url := "https://api.example.com/k/test"; rq_method := GET;
                rq_headers := []; rq_body := None; rq_timeout := 30000 |}).
  assert (Hin : In rq (executeApiTool rt (call keyed_tool)).1)
    by (vm_compute; left; reflexivity).
  assert (Hkey : In "API_KEY" (env_keys (url (request keyed_tool))))
    by (vm_compute; left; reflexivity).
  split; [now exists rq|]. split; [exact Hkey|]. split; [reflexivity|].
  destruct (requests_resolve_env_placeholders rt (call keyed_tool) rq
              (url (request keyed_tool)) "API_KEY" Hin (or_introl eq_refl) Hkey)
    as [Hown|[_ Hinherited]].
  - exact Hown.
  - discriminate Hinherited.
Defined.

End RequestEnvironment.

(** ** The repository's tests, replayed on the embedding *)

Module Tests.
Import Js Types TemplateEngine Executor SchemaBuilder YamlLoader Reference.

(** template-engine: "interpolates env variables" *)
Example interpolates_env_variables :
  interpolateString "Bearer {{env.API_KEY}}"
    {| env := {[ "API_KEY" := "secret123" ]}; params := []; response := None |}
    None
  = Ok "Bearer secret123".
Proof. vm_compute. reflexivity. Qed.

(** template-engine: "interpolates params" *)
Example interpolates_params :
  interpolateString "Hello {{params.name}}"
    {| env := ∅; params := [("name", JStr "World")]; response := None |} None
  = Ok "Hello World".
Proof. vm_compute. reflexivity. Qed.

(** template-engine: "throws on missing env var in strict mode" *)
Example throws_on_missing_env_var :
  interpolateString "{{env.MISSING}}"
    {| env := ∅; params := []; response := None |} (Some true)
  = Throw "Missing required environment variable: MISSING".
Proof. vm_compute. reflexivity. Qed.

(** template-engine: "interpolates deep objects" *)
Example interpolates_deep_objects :
  interpolateDeep
    (JObj [ ("header", JStr "Bearer {{env.TOKEN}}");
            ("body", JObj [("text", JStr "{{params.msg}}")]) ])
    {| env := {[ "TOKEN" := "abc" ]}; params := [("msg", JStr "hello")];
       response := None |}
    None
  = Ok (IObj None [ ("header", IStr "Bearer abc");
                    ("body", IObj None [("text", IStr "hello")]) ]).
Proof. vm_compute. reflexivity. Qed.

(** A property named [__proto__] of the input becomes the prototype of the
    result, not a property of it, when its value is an object. *)
Example deep_proto_property :
  interpolateDeep
    (JObj [ ("__proto__", JObj [("text", JStr "{{params.msg}}")]);
            ("id", JStr "x") ])
    {| env := ∅; params := [("msg", JStr "hello")]; response := None |}
    None
  = Ok (IObj (Some (IObj None [("text", IStr "hello")])) [("id", IStr "x")]).
Proof. vm_compute. reflexivity. Qed.

(** Names inherited from [Object.prototype] resolve in every scope. *)
Example inherited_names_resolve :
  interpolateString "{{env.constructor}}|{{params.toString}}|{{params.other}}"
    {| env := ∅; params := []; response := None |} None
  = Ok "function Object() { [native code] }|function toString() { [native code] }|".
Proof. vm_compute. reflexivity. Qed.

(** An object that hides [toString] with data cannot be printed. *)
Example unprintable_value :
  interpolateString "{{params.who}}" Scenarios.opaque_ctx (Some false)
  = Throw "Cannot convert object to primitive value".
Proof. vm_compute. reflexivity. Qed.

(** Values that are not strings are printed. *)
Example prints_values :
  interpolateString "{{params.count}} {{params.flag}} {{params.name}}"
    sample_ctx None
  = Ok "3 true World".
Proof. vm_compute. reflexivity. Qed.

(** schema-builder: "builds empty schema for no parameters" *)
Example builds_empty_schema : buildParameterSchema None = TObject [].
Proof. reflexivity. Qed.

(** schema-builder: "builds schema with required string param" and "builds
    schema with enum" *)
Example builds_sample_schema :
  buildParameterSchema (Some sample_parameters)
  = TObject
      [ ("text", TString (Some "The text"));
        ("visibility",
         TOptional (TUnion [TLiteral "PUBLIC"; TLiteral "PRIVATE"] None));
        ("limit", TOptional (TInteger None)) ].
Proof. reflexivity. Qed.

(** yaml-loader: "loads valid YAML definitions" and "skips invalid YAML
    (missing name)" *)
Example loads_valid_definitions :
  (loadToolDefinitions sample_host "/agent").1 = [test_tool_tree].
Proof. vm_compute. reflexivity. Qed.

(** yaml-loader: "returns empty array if no api-tools directory" *)
Example no_directory_no_definitions :
  loadToolDefinitions sample_host "/empty" = ([], []).
Proof. vm_compute. reflexivity. Qed.

(** executor: "blocks private IP addresses" *)
Example blocks_private_addresses :
  executeApiTool (sample_runtime ∅ 200) (call localhost_tool)
  = ([], failure
           "Blocked: requests to private/internal hosts not allowed (localhost)").
Proof. vm_compute. reflexivity. Qed.

(** executor: "blocks hosts not in allowed_hosts" *)
Example blocks_unlisted_hosts :
  executeApiTool (sample_runtime ∅ 200) (call evil_tool)
  = ([], failure
           "Blocked: host 'evil.com' not in allowed_hosts [api.example.com]").
Proof. vm_compute. reflexivity. Qed.

(** executor: "checks required env vars" *)
Example checks_required_env_vars :
  executeApiTool (sample_runtime ∅ 200) (call needs_env_tool)
  = ([], failure
           "Missing required environment variables: NONEXISTENT_VAR_12345").
Proof. vm_compute. reflexivity. Qed.

(** executor: "sends POST with interpolated body", against a server that
    answers 200, and the summary rendered from the answer. *)
Example sends_post_with_interpolated_body :
  executeApiTool (sample_runtime ∅ 200) post_call
  = ([ {| rq_url := "https://httpbin.org/post";
          rq_method := POST;
          rq_headers := [("Content-Type", "application/json")];
          rq_body :=
            Some ("{" +:+ quote +:+ "text" +:+ quote +:+ ":"
                  +:+ quote +:+ "Hello World" +:+ quote +:+ "}");
          rq_timeout := 10000 |} ],
     {| success := true;
        data := Some (JObj [("message", JStr "hello"); ("id", JNum 7)]);
        status := Some 200;
        error := None;
        summary := Some "Sent: hello (#7)" |}).
Proof. vm_compute. reflexivity. Qed.

(** The same call answered with status 500: an upstream error keeps the
    status and the data, and renders the error template. *)
Example upstream_error_keeps_status_and_data :
  (executeApiTool (sample_runtime ∅ 500) post_call).2
  = {| success := false;
       data := Some (JObj [("message", JStr "hello"); ("id", JNum 7)]);
       status := Some 500;
       error := Some "HTTP 500: hello";
       summary := None |}.
Proof. vm_compute. reflexivity. Qed.

(** Wildcard entries. *)
Example wildcard_examples :
  map (fun h => isAllowedHost h ["*.example.com"])
    ["example.com"; "api.example.com"; "a.b.example.com"; "evilexample.com";
     "example.com.evil.org"]
  = [true; true; true; false; false].
Proof. reflexivity. Qed.

(** Private hosts. *)
Example private_host_examples :
  map isPrivateHost
    ["localhost"; "LOCALHOST"; "127.0.0.1"; "10.1.2.3"; "172.16.0.1";
     "172.31.255.255"; "172.32.0.1"; "172.15.0.1"; "192.168.1.1";
     "169.254.169.254"; "printer.local"; "db.internal"; "example.com";
     "localhost.example.com"; "1270.0.0.1"]
  = [true; true; true; true; true; true; false; false; true; true; true; true;
     false; false; false].
Proof. vm_compute. reflexivity. Qed.

End Tests.
